(** * BT download / OneDrive upload service: task lifecycle and chunked upload

    A shallow embedding of [main.py] (class [BTOneDriveService]),
    [scripts/onedrive_uploader.py] and the two download adapters
    [scripts/bt_downloader_transmission.py] and [scripts/bt_downloader.py].

    Python dict objects that are mutated through aliases (a task is reachable
    from the bucket that holds it and from the loop variable that visits it)
    live in an explicit heap; buckets hold references.  The download client,
    the upload client, the clock and the file system are collaborators whose
    answers are threaded through an abstract world state. *)

From Stdlib Require Import Ascii DecimalString.
From stdpp Require Import list strings.

Local Open Scope string_scope.
Set Warnings "-register-all".
Local Open Scope Z_scope.
Local Open Scope nat_scope.
Local Open Scope list_scope.

(** ** Python values *)

(** JSON-like Python values: what [response.json()], the status dict of the
    download adapter and the upload results are made of.  A dict keeps its
    insertion order, as Python dicts do. Numbers are kept as integers. *)
Inductive pyval :=
  | PNone
  | PBool (b : bool)
  | PNum (n : Z)
  | PStr (s : string)
  | PList (l : list pyval)
  | PDict (d : list (string * pyval)).

Definition pydict := list (string * pyval).

(** [d.get(k)] *)
Fixpoint dict_get {A} (k : string) (d : list (string * A)) : option A :=
  match d with
  | [] => None
  | (k', v) :: d' => if String.eqb k' k then Some v else dict_get k d'
  end.

(** [k in d] *)
Definition dict_has {A} (k : string) (d : list (string * A)) : bool :=
  match dict_get k d with Some _ => true | None => false end.

(** [d[k] = v]: an existing key keeps its position, a new key goes last. *)
Fixpoint dict_set {A} (k : string) (v : A) (d : list (string * A))
  : list (string * A) :=
  match d with
  | [] => [(k, v)]
  | (k', v') :: d' =>
      if String.eqb k' k then (k', v) :: d' else (k', v') :: dict_set k v d'
  end.

(** [del d[k]]: the entry of key [k] goes; [None] stands for the [KeyError]
    of an absent key. *)
Fixpoint dict_del {A} (k : string) (d : list (string * A))
  : option (list (string * A)) :=
  match d with
  | [] => None
  | (k', v) :: d' =>
      if String.eqb k' k then Some d' else cons (k', v) <$> dict_del k d'
  end.

(** Truth value of a Python object, as tested by [if x:]. *)
Definition truthy (v : pyval) : bool :=
  match v with
  | PNone => false
  | PBool b => b
  | PNum n => negb (Z.eqb n 0)
  | PStr s => negb (String.eqb s "")
  | PList l => match l with [] => false | _ => true end
  | PDict d => match d with [] => false | _ => true end
  end.

(** [a == b] on Python values; dicts compare regardless of key order and
    [True == 1]. *)
Fixpoint pyval_eqb (a b : pyval) : bool :=
  match a, b with
  | PNone, PNone => true
  | PBool x, PBool y => Bool.eqb x y
  | PBool x, PNum y | PNum y, PBool x => Z.eqb (if x then 1 else 0) y
  | PNum x, PNum y => Z.eqb x y
  | PStr x, PStr y => String.eqb x y
  | PList xs, PList ys =>
      (fix go (xs ys : list pyval) : bool :=
         match xs, ys with
         | [], [] => true
         | x :: xs', y :: ys' => pyval_eqb x y && go xs' ys'
         | _, _ => false
         end) xs ys
  | PDict d1, PDict d2 =>
      Nat.eqb (length d1) (length d2) &&
      (fix all (d : list (string * pyval)) : bool :=
         match d with
         | [] => true
         | (k, v) :: d' =>
             match dict_get k d2 with
             | Some v' => pyval_eqb v v'
             | None => false
             end && all d'
         end) d1
  | _, _ => false
  end.

Definition option_eqb {A} (eqb : A → A → bool) (x y : option A) : bool :=
  match x, y with
  | Some a, Some b => eqb a b
  | None, None => true
  | _, _ => false
  end.

(** A call either returns a value or raises an exception; [Raise msg]
    carries [str(e)]. *)
Inductive Result (A : Type) :=
  | Return (a : A)
  | Raise (msg : string).
Arguments Return {A} a.
Arguments Raise {A} msg.

(** ** Tasks and the task store *)

(** [time.time()]: a point in time; only stored, never computed with. *)
Definition time := Z.

(** A task dict.  ['source'] is always present (every task is created by
    [add_task] or by [process_pending_tasks]); the other keys are there once
    the code has written them. *)
Record Task := mkTask {
  source : string;
  added_time : option time;
  start_time : option time;
  status : option pydict;
  upload_result : option pydict;
  complete_time : option time;
  error : option string
}.

Definition task_eqb (a b : Task) : bool :=
  String.eqb (source a) (source b)
  && option_eqb Z.eqb (added_time a) (added_time b)
  && option_eqb Z.eqb (start_time a) (start_time b)
  && option_eqb (λ x y, pyval_eqb (PDict x) (PDict y)) (status a) (status b)
  && option_eqb (λ x y, pyval_eqb (PDict x) (PDict y))
       (upload_result a) (upload_result b)
  && option_eqb Z.eqb (complete_time a) (complete_time b)
  && option_eqb String.eqb (error a) (error b).

(** [task['status'] = st] and its siblings. *)
Definition set_status (st : pydict) (t : Task) : Task :=
  mkTask (source t) (added_time t) (start_time t) (Some st)
         (upload_result t) (complete_time t) (error t).
Definition set_upload_result (r : pydict) (t : Task) : Task :=
  mkTask (source t) (added_time t) (start_time t) (status t)
         (Some r) (complete_time t) (error t).
Definition set_complete_time (c : time) (t : Task) : Task :=
  mkTask (source t) (added_time t) (start_time t) (status t)
         (upload_result t) (Some c) (error t).
Definition set_error (e : string) (t : Task) : Task :=
  mkTask (source t) (added_time t) (start_time t) (status t)
         (upload_result t) (complete_time t) (Some e).

(** References to task objects, and the heap they point into. *)
Definition loc := nat.
Definition Heap := loc → Task.

Definition upd (h : Heap) (l : loc) (t : Task) : Heap :=
  λ l', if Nat.eqb l' l then t else h l'.

(** [self.tasks]: three lists and a dict keyed by info hash. *)
Record Tasks := mkTasks {
  heap : Heap;
  pending : list loc;
  downloading : list (string * loc);
  completed : list loc;
  failed : list loc
}.

(** [task[key] = value] on the task object [l]: every alias sees it. *)
Definition mutate (l : loc) (f : Task → Task) (t : Tasks) : Tasks :=
  mkTasks (upd (heap t) l (f (heap t l))) (pending t) (downloading t)
          (completed t) (failed t).

(** The store with another [pending] list, another [downloading] dict. *)
Definition set_pending (p : list loc) (t : Tasks) : Tasks :=
  mkTasks (heap t) p (downloading t) (completed t) (failed t).
Definition set_downloading (d : list (string * loc)) (t : Tasks) : Tasks :=
  mkTasks (heap t) (pending t) d (completed t) (failed t).

(** The objects reachable from the store. *)
Definition live (t : Tasks) : list loc :=
  pending t ++ (downloading t).*2 ++ completed t ++ failed t.

(** A reference that none of [roots] uses: where a new dict is allocated. *)
Definition fresh (roots : list loc) : loc := S (foldr Nat.max 0 roots).

(** What [json.dump(self.tasks, f)] serialises. *)
Record Snapshot := mkSnapshot {
  s_pending : list Task;
  s_downloading : list (string * Task);
  s_completed : list Task;
  s_failed : list Task
}.

Definition snapshot (t : Tasks) : Snapshot :=
  mkSnapshot (heap t <$> pending t)
             (prod_map id (heap t) <$> downloading t)
             (heap t <$> completed t)
             (heap t <$> failed t).

Inductive Level := Info | Warning | Error.

(** The log lines of [main.py], one constructor per call site. *)
Inductive LogMsg :=
  | TaskAlreadyExists (src : string)
  | TaskAdded (src : string)
  | StartedDownloading (src : string)
  | FailedToStartDownload (src err : string)
  | DownloadCompleted (name : pyval)
  | UploadingToOneDrive (path : string)
  | UploadSuccessful (path : string)
  | UploadFailed (path : string) (err : option pyval)
  | ErrorCheckingDownload (info_hash err : string).

(** What the service does to the outside: [_save_tasks] and the logger. *)
Inductive Event :=
  | Saved (snap : Snapshot)
  | Logged (lvl : Level) (msg : LogMsg).

Record Service := mkService {
  tasks : Tasks;
  trace : list Event
}.

Definition log (lvl : Level) (m : LogMsg) (sv : Service) : Service :=
  mkService (tasks sv) (trace sv ++ [Logged lvl m]).

(** [self._save_tasks()]: the whole store is serialised over the tasks
    file. A write that fails is caught and logged inside [_save_tasks], and
    nothing else in the service sees it. *)
Definition save_tasks (sv : Service) : Service :=
  mkService (tasks sv) (trace sv ++ [Saved (snapshot (tasks sv))]).

(** The four buckets and the sources found in each. *)
Inductive Bucket := Pending | Downloading | Completed | Failed.

#[global] Instance Bucket_eq_dec : EqDecision Bucket.
Proof. solve_decision. Defined.

Definition bucket_locs (b : Bucket) (t : Tasks) : list loc :=
  match b with
  | Pending => pending t
  | Downloading => (downloading t).*2
  | Completed => completed t
  | Failed => failed t
  end.

(** The sources of the task objects in [ls]. *)
Definition sources (h : Heap) (ls : list loc) : list string :=
  (λ l, source (h l)) <$> ls.

Definition bucket_sources (b : Bucket) (t : Tasks) : list string :=
  sources (heap t) (bucket_locs b t).

Definition all_sources (t : Tasks) : list string := sources (heap t) (live t).

(** The source [s] occupies bucket [b]. *)
Definition occupies (s : string) (b : Bucket) (t : Tasks) : Prop :=
  s ∈ bucket_sources b t.

(** Number of tasks with source [s] in the whole store. *)
Definition count_source (s : string) (t : Tasks) : nat :=
  length (filter (λ s', s' = s) (all_sources t)).

(** No task object is referenced twice from the store. *)
Definition no_alias (t : Tasks) : Prop := NoDup (live t).

(** Each source is found once in the whole store: every task occupies
    exactly one bucket. *)
Definition one_bucket_each (t : Tasks) : Prop := NoDup (all_sources t).

(** The keys of the [downloading] dict are distinct, as dict keys are. *)
Definition dict_ok (t : Tasks) : Prop := NoDup (downloading t).*1.

(** Position of a bucket on the path Pending, Downloading, then Completed
    or Failed. *)
Definition rank (b : Bucket) : nat :=
  match b with
  | Pending => 0
  | Downloading => 1
  | Completed | Failed => 2
  end.

(** [b'] is [b], or lies further along the path. *)
Definition forward (b b' : Bucket) : Prop := b = b' ∨ rank b < rank b'.

(** Every source of [t'] was already in [t], in the same bucket or in one
    that lies before it. *)
Definition comes_from (t t' : Tasks) : Prop :=
  ∀ s b', occupies s b' t' → ∃ b, occupies s b t ∧ forward b b'.

(** [h'] is [h] but for keys other than ['source'] of the object [l]. *)
Definition same_but (l : loc) (h h' : Heap) : Prop :=
  (∀ x, x ≠ l → h' x = h x) ∧ source (h' l) = source (h l).

(** What a turn of [check_downloads] for the entry [k, l], found between
    [kept] and [rest] in the dict, may do to the store: the task object
    changes, and it either stays in [downloading] or moves to the end of
    [completed]. *)
Definition check_turn (k : string) (l : loc) (kept rest : list (string * loc))
    (t t' : Tasks) : Prop :=
  pending t' = pending t
  ∧ failed t' = failed t
  ∧ same_but l (heap t) (heap t')
  ∧ ((downloading t' = downloading t ∧ completed t' = completed t)
     ∨ (downloading t' = kept ++ rest ∧ completed t' = completed t ++ [l])).

(** ** The collaborators *)

(** The download client, the upload client, the clock and the file system,
    over a world state [W] that each call may change. *)
Record Collaborators (W : Type) := mkCollaborators {
  clock : W → time * W;
  add_torrent : string → W → Result string * W;
  get_torrent_status : string → W → Result pydict * W;
  get_download_path : string → W → Result (option string) * W;
  isdir : string → W → bool;
  upload_folder : string → W → Result pydict * W;
  upload_file : string → W → Result pydict * W
}.
Arguments mkCollaborators {W}.
Arguments clock {W} _ _.
Arguments add_torrent {W} _ _ _.
Arguments get_torrent_status {W} _ _ _.
Arguments get_download_path {W} _ _ _.
Arguments isdir {W} _ _ _.
Arguments upload_folder {W} _ _ _.
Arguments upload_file {W} _ _ _.

(** The test on a polled status: [status.get('is_finished', False)]. *)
Definition is_finished (st : pydict) : bool :=
  truthy (default (PBool false) (dict_get "is_finished" st)).

(** The caller's test on an upload result: ['error' not in upload_result]. *)
Definition upload_reported_ok (r : pydict) : bool := negb (dict_has "error" r).

Section BTOneDriveService.
Context {W : Type} (E : Collaborators W).

(** [any(t.get('source') == s for t in task_list)] *)
Definition source_in_list (h : Heap) (s : string) (ls : list loc) : bool :=
  existsb (λ l, String.eqb (source (h l)) s) ls.

(** [any(task_list[k].get('source') == s for k in task_list)] *)
Definition source_in_dict (h : Heap) (s : string) (d : list (string * loc))
  : bool :=
  existsb (λ kv, String.eqb (source (h kv.2)) s) d.

(** The duplicate check at the head of [add_task]. *)
Definition task_exists (s : string) (t : Tasks) : bool :=
  source_in_list (heap t) s (pending t)
  || source_in_dict (heap t) s (downloading t)
  || source_in_list (heap t) s (completed t)
  || source_in_list (heap t) s (failed t).

Definition add_task (s : string) (sv : Service) (w : W)
  : bool * Service * W :=
  let t := tasks sv in
  if task_exists s t then
    (false, log Warning (TaskAlreadyExists s) sv, w)
  else
    let '(now, w1) := clock E w in
    let l := fresh (live t) in
    let t1 := mkTasks (upd (heap t) l
                         (mkTask s (Some now) None None None None None))
                      (pending t ++ [l]) (downloading t)
                      (completed t) (failed t) in
    (true,
     log Info (TaskAdded s) (save_tasks (mkService t1 (trace sv))),
     w1).

(** An operation ends normally or an exception leaves it. *)
Inductive Outcome :=
  | Normal
  | Raised (msg : string).

(** [ls.remove(x)]: drops the first element that is [x] itself or equals
    it; [None] stands for the [ValueError] when there is none. *)
Fixpoint list_remove (h : Heap) (x : loc) (ls : list loc)
  : option (list loc) :=
  match ls with
  | [] => None
  | y :: ys =>
      if Nat.eqb y x || task_eqb (h y) (h x) then Some ys
      else cons y <$> list_remove h x ys
  end.

Definition not_in_list : string := "list.remove(x): x not in list".

(** [self.tasks['pending'].remove(task)] *)
Definition remove_pending (l : loc) (t : Tasks) : option Tasks :=
  (λ p, set_pending p t) <$> list_remove (heap t) l (pending t).

(** [self.tasks['downloading'][info_hash] = {'source': ..., 'start_time':
    ..., 'added_time': ...}]: a new dict, filled from the task [l]. *)
Definition enter_downloading (l : loc) (info_hash : string)
    (start now : time) (t : Tasks) : Tasks :=
  let l' := fresh (l :: live t) in
  mkTasks (upd (heap t) l'
               (mkTask (source (heap t l))
                       (Some (default now (added_time (heap t l))))
                       (Some start) None None None None))
          (pending t) (dict_set info_hash l' (downloading t))
          (completed t) (failed t).

(** [task['error'] = str(e); self.tasks['failed'].append(task)] *)
Definition enter_failed (l : loc) (e : string) (t : Tasks) : Tasks :=
  let t1 := mutate l (set_error e) t in
  mkTasks (heap t1) (pending t1) (downloading t1) (completed t1)
          (failed t1 ++ [l]).

(** The [except Exception as e] block of [process_pending_tasks], entered
    with the task [l] and [str(e)]. *)
Definition dispatch_failed (l : loc) (e : string) (sv : Service)
  : Outcome * Service :=
  let sv1 :=
    log Error (FailedToStartDownload (source (heap (tasks sv) l)) e) sv in
  let t1 := enter_failed l e (tasks sv1) in
  match remove_pending l t1 with
  | Some t2 => (Normal, save_tasks (mkService t2 (trace sv1)))
  | None => (Raised not_in_list, mkService t1 (trace sv1))
  end.

(** One turn of the loop of [process_pending_tasks], for the task [l]. *)
Definition dispatch (l : loc) (sv : Service) (w : W)
  : Outcome * Service * W :=
  match add_torrent E (source (heap (tasks sv) l)) w with
  | (Return info_hash, w1) =>
      let '(start, w2) := clock E w1 in
      let '(now, w3) := clock E w2 in
      let t1 := enter_downloading l info_hash start now (tasks sv) in
      match remove_pending l t1 with
      | Some t2 =>
          (Normal,
           log Info (StartedDownloading (source (heap t2 l)))
               (save_tasks (mkService t2 (trace sv))),
           w3)
      | None =>
          (dispatch_failed l not_in_list (mkService t1 (trace sv)), w3)
      end
  | (Raise e, w1) => (dispatch_failed l e sv, w1)
  end.

(** [for task in list(self.tasks['pending'])]: the loop runs over a copy
    of the list and stops when an exception leaves a turn. *)
Fixpoint dispatch_all (snap : list loc) (sv : Service) (w : W)
  : Outcome * Service * W :=
  match snap with
  | [] => (Normal, sv, w)
  | l :: rest =>
      match dispatch l sv w with
      | (Normal, sv1, w1) => dispatch_all rest sv1 w1
      | stopped => stopped
      end
  end.

Definition process_pending_tasks (sv : Service) (w : W)
  : Outcome * Service * W :=
  match pending (tasks sv) with
  | [] => (Normal, sv, w)
  | snap => dispatch_all snap sv w
  end.

(** [str(KeyError(k))] *)
Definition key_error (k : string) : string := "'" +:+ k +:+ "'".

(** [task['complete_time'] = time.time();
    self.tasks['completed'].append(task)] *)
Definition enter_completed (l : loc) (now : time) (t : Tasks) : Tasks :=
  let t1 := mutate l (set_complete_time now) t in
  mkTasks (heap t1) (pending t1) (downloading t1) (completed t1 ++ [l])
          (failed t1).

(** [del self.tasks['downloading'][info_hash]] *)
Definition leave_downloading (info_hash : string) (t : Tasks)
  : option Tasks :=
  (λ d, set_downloading d t) <$> dict_del info_hash (downloading t).

(** The tail of a turn of [check_downloads]: the task [l] is stamped,
    appended to [completed] and deleted from [downloading]; a [KeyError]
    of the deletion lands in the [except] block of the turn. *)
Definition complete (info_hash : string) (l : loc) (sv : Service) (w : W)
  : Service * W :=
  let '(now, w1) := clock E w in
  let t1 := enter_completed l now (tasks sv) in
  match leave_downloading info_hash t1 with
  | Some t2 => (save_tasks (mkService t2 (trace sv)), w1)
  | None =>
      (log Error (ErrorCheckingDownload info_hash (key_error info_hash))
           (mkService t1 (trace sv)),
       w1)
  end.

(** The upload of the artifact at [path] and what is kept of it:
    [task['upload_result'] = upload_result] and one log line. *)
Definition upload (l : loc) (path : string) (sv : Service) (w : W)
  : Result Service * W :=
  let sv1 := log Info (UploadingToOneDrive path) sv in
  match (if isdir E path w then upload_folder E path w
         else upload_file E path w) with
  | (Raise e, w1) => (Raise e, w1)
  | (Return r, w1) =>
      let sv2 :=
        mkService (mutate l (set_upload_result r) (tasks sv1)) (trace sv1) in
      (Return (if upload_reported_ok r
               then log Info (UploadSuccessful path) sv2
               else log Error (UploadFailed path (dict_get "error" r)) sv2),
       w1)
  end.

(** One turn of the loop of [check_downloads], for the entry
    [info_hash, task] of the copied item list; [task] is the object [l]. *)
Definition check_one (item : string * loc) (sv : Service) (w : W)
  : Service * W :=
  let '(info_hash, l) := item in
  match get_torrent_status E info_hash w with
  | (Raise e, w1) => (log Error (ErrorCheckingDownload info_hash e) sv, w1)
  | (Return st, w1) =>
      let sv1 :=
        save_tasks (mkService (mutate l (set_status st) (tasks sv))
                              (trace sv)) in
      if is_finished st then
        let sv2 :=
          log Info (DownloadCompleted
                      (default (PStr info_hash) (dict_get "name" st))) sv1 in
        match get_download_path E info_hash w1 with
        | (Raise e, w2) =>
            (log Error (ErrorCheckingDownload info_hash e) sv2, w2)
        | (Return None, w2) => complete info_hash l sv2 w2
        | (Return (Some path), w2) =>
            if String.eqb path "" then complete info_hash l sv2 w2
            else
              match upload l path sv2 w2 with
              | (Raise e, w3) =>
                  (log Error (ErrorCheckingDownload info_hash e)
                       (log Info (UploadingToOneDrive path) sv2),
                   w3)
              | (Return sv3, w3) => complete info_hash l sv3 w3
              end
        end
      else (sv1, w1)
  end.

(** [for info_hash, task in list(self.tasks['downloading'].items())] *)
Fixpoint check_all (items : list (string * loc)) (sv : Service) (w : W)
  : Service * W :=
  match items with
  | [] => (sv, w)
  | item :: rest =>
      let '(sv1, w1) := check_one item sv w in check_all rest sv1 w1
  end.

Definition check_downloads (sv : Service) (w : W) : Service * W :=
  match downloading (tasks sv) with
  | [] => (sv, w)
  | items => check_all items sv w
  end.

(** The operations of the task lifecycle. *)
Inductive Op :=
  | AddTask (s : string)
  | ProcessPendingTasks
  | CheckDownloads.

Definition run_op (op : Op) (sv : Service) (w : W) : Service * W :=
  match op with
  | AddTask s => let '(_, sv1, w1) := add_task s sv w in (sv1, w1)
  | ProcessPendingTasks =>
      let '(_, sv1, w1) := process_pending_tasks sv w in (sv1, w1)
  | CheckDownloads => check_downloads sv w
  end.

End BTOneDriveService.

(** ** Paths *)

(** ['/' in s] *)
Fixpoint has_slash (s : string) : bool :=
  match s with
  | EmptyString => false
  | String c rest => Ascii.eqb c "/"%char || has_slash rest
  end.

(** [os.path.basename]: what follows the last slash. *)
Fixpoint basename (p : string) : string :=
  match p with
  | EmptyString => EmptyString
  | String c rest =>
      if has_slash rest then basename rest
      else if Ascii.eqb c "/"%char then rest
      else p
  end.

(** [s.replace('//', '/')] *)
Fixpoint replace_double_slash (s : string) : string :=
  match s with
  | String "/"%char (String "/"%char rest) =>
      String "/"%char (replace_double_slash rest)
  | String c rest => String c (replace_double_slash rest)
  | EmptyString => EmptyString
  end.

(** [s.endswith('/')] *)
Fixpoint ends_with_slash (s : string) : bool :=
  match s with
  | EmptyString => false
  | String c EmptyString => Ascii.eqb c "/"%char
  | String _ rest => ends_with_slash rest
  end.

(** [os.path.join(a, b)] *)
Definition path_join (a b : string) : string :=
  match b with
  | String "/"%char _ => b
  | _ =>
      if String.eqb a "" || ends_with_slash a then a +:+ b
      else a +:+ "/" +:+ b
  end.

(** ** The upload client: [scripts/onedrive_uploader.py] *)

Module OneDriveUploader.

(** [str(n)] for an integer. *)
Definition str_Z (n : Z) : string := NilZero.string_of_int (Z.to_int n).

(** What [requests] hands back: status code, body text, parsed JSON body. *)
Record Response := mkResponse {
  status_code : Z;
  text : string;
  json : pydict
}.

(** The headers of one range-addressed PUT of the chunked upload:
    [Content-Length] and [Content-Range: bytes start-end/total]. *)
Record ChunkPut := mkChunkPut {
  put_url : pyval;
  content_length : Z;
  range_start : Z;
  range_end : Z;
  range_total : Z
}.

Definition chunk_size : Z := 10 * 1024 * 1024.

(** [response.status_code in codes] *)
Definition status_in (codes : list Z) (r : Response) : bool :=
  existsb (Z.eqb (status_code r)) codes.

Definition no_confirmation : pydict :=
  [("error", PStr "Upload completed but no confirmation received")].

(** The PUT for the chunk [chunk_num]: [start = chunk_num * chunk_size],
    [end = min(file_size, start + chunk_size) - 1], and the headers made of
    them. *)
Definition chunk_put (file_size : Z) (upload_url : pyval) (chunk_num : nat)
  : ChunkPut :=
  let start := (Z.of_nat chunk_num * chunk_size)%Z in
  let end_ := (Z.min file_size (start + chunk_size) - 1)%Z in
  mkChunkPut upload_url (end_ - start + 1)%Z start end_ file_size.

(** The loop [for chunk_num in range(total_chunks)] of [_chunked_upload].
    [reply n] is what [requests.put] gives for the chunk [n]. The result is
    the list of PUTs issued and, when the loop was left by a [return] or an
    exception, what left it. *)
Fixpoint put_chunks (file_name : string) (file_size : Z) (upload_url : pyval)
    (reply : nat → Result Response) (chunks : list nat)
  : list ChunkPut * option (Result pydict) :=
  match chunks with
  | [] => ([], None)
  | chunk_num :: rest =>
      let put := chunk_put file_size upload_url chunk_num in
      match reply chunk_num with
      | Raise e => ([put], Some (Raise e))
      | Return response =>
          if status_in [200; 201; 202]%Z response then
            if status_in [200; 201]%Z response then
              ([put], Some (Return (json response)))
            else
              let '(puts, out) :=
                put_chunks file_name file_size upload_url reply rest in
              (put :: puts, out)
          else
            ([put],
             Some (Return
                     [("error",
                       PStr ("Failed chunk upload for file " +:+ file_name
                             +:+ ": " +:+ str_Z (status_code response)
                             +:+ " - " +:+ text response))]))
      end
  end.

(** [_chunked_upload], for a file of name [file_name] and size [file_size]:
    [session] is what the POST that creates the upload session gives. *)
Definition _chunked_upload (file_name : string) (file_size : Z)
    (session : Result Response) (reply : nat → Result Response)
  : list ChunkPut * Result pydict :=
  match session with
  | Raise e => ([], Raise e)
  | Return response =>
      if negb (Z.eqb (status_code response) 200) then
        ([],
         Return [("error",
                  PStr ("Failed to create upload session: "
                        +:+ str_Z (status_code response)
                        +:+ " - " +:+ text response))])
      else
        match dict_get "uploadUrl" (json response) with
        | None => ([], Raise "'uploadUrl'")
        | Some upload_url =>
            let total_chunks := ((file_size + chunk_size - 1) / chunk_size)%Z in
            let '(puts, out) :=
              put_chunks file_name file_size upload_url reply
                         (seq 0 (Z.to_nat total_chunks)) in
            (puts, default (Return no_confirmation) out)
        end
  end.

(** The byte ranges of [puts] tile the bytes [lo .. hi - 1]: the first one
    starts at [lo], none is empty, each one starts right after the end of the
    one before, and the last one ends at [hi - 1]. *)
Fixpoint tiles (lo : Z) (puts : list ChunkPut) (hi : Z) : Prop :=
  match puts with
  | [] => lo = hi
  | p :: ps =>
      range_start p = lo ∧ (lo ≤ range_end p)%Z
      ∧ tiles (range_end p + 1)%Z ps hi
  end.

(** The mirrored remote folder that [upload_folder] creates first:
    [destination_folder or self.upload_folder], then the folder name. *)
Definition target_folder (default_folder folder_path : string)
    (destination_folder : option string) : string :=
  let destination_folder :=
    match destination_folder with
    | Some d => if String.eqb d "" then default_folder else d
    | None => default_folder
    end in
  replace_double_slash (destination_folder +:+ "/" +:+ basename folder_path).

Section UploadFolder.
Context {W : Type}.
(** The file system and the rest of the upload client. *)
Variable isdir : string → W → bool.
Variable walk : string → W → list (string * list string * list string).
Variable relpath : string → string → string.
Variable create_folder : string → W → Result pydict * W.
Variable upload_file : string → string → W → Result pydict * W.
(** [self.upload_folder] *)
Variable default_folder : string.

(** [for file in files]: one directory of the walk. The accumulator is the
    two lists of the [results] dict. *)
Fixpoint upload_files (root current_target : string) (files : list string)
    (success errors : list pyval) (w : W)
  : Result (list pyval * list pyval) * W :=
  match files with
  | [] => (Return (success, errors), w)
  | file :: rest =>
      let file_path := path_join root file in
      match upload_file file_path current_target w with
      | (Raise e, w1) => (Raise e, w1)
      | (Return result, w1) =>
          match dict_get "error" result with
          | Some err =>
              upload_files root current_target rest success
                (errors ++ [PDict [("file", PStr file_path); ("error", err)]])
                w1
          | None =>
              upload_files root current_target rest
                (success ++ [PDict [("file", PStr file_path);
                                    ("result", PDict result)]])
                errors w1
          end
      end
  end.

(** [for root, dirs, files in os.walk(folder_path)] *)
Fixpoint upload_walk (folder_path target_folder : string)
    (dirs : list (string * list string * list string))
    (success errors : list pyval) (w : W)
  : Result (list pyval * list pyval) * W :=
  match dirs with
  | [] => (Return (success, errors), w)
  | (root, _, files) :: rest =>
      let relative_path := relpath root folder_path in
      let relative_path :=
        if String.eqb relative_path "." then "" else relative_path in
      let current_target :=
        replace_double_slash (target_folder +:+ "/" +:+ relative_path) in
      match upload_files root current_target files success errors w with
      | (Raise e, w1) => (Raise e, w1)
      | (Return (success1, errors1), w1) =>
          upload_walk folder_path target_folder rest success1 errors1 w1
      end
  end.

(** The function [upload_folder] of the class (line 402), with
    [default_folder] for [self.upload_folder] in its body. On an instance
    the name [upload_folder] is bound to the folder string that [__init__]
    has stored (line 38), so this function is reached through the class
    only; see [Uploader] below for the call that [main.py] makes. *)
Definition upload_folder (folder_path : string)
    (destination_folder : option string) (w : W) : Result pydict * W :=
  if negb (isdir folder_path w) then
    (Return [("error", PStr ("Not a directory: " +:+ folder_path))], w)
  else
    let target := target_folder default_folder folder_path destination_folder in
    match create_folder target w with
    | (Raise e, w1) => (Raise e, w1)
    | (Return folder_info, w1) =>
        if dict_has "error" folder_info then (Return folder_info, w1)
        else
          match upload_walk folder_path target (walk folder_path w1)
                            [] [] w1 with
          | (Raise e, w2) => (Raise e, w2)
          | (Return (success, errors), w2) =>
              (Return [("success", PList success); ("error", PList errors)],
               w2)
          end
    end.

End UploadFolder.

End OneDriveUploader.

(** ** The download adapters *)

(** [scripts/bt_downloader_transmission.py], the adapter [main.py] imports. *)
Module Transmission.

(** What [session.get_torrent] gives. [metadata_complete] tells whether the
    metadata of the torrent has been fetched; while it has not, [files()] is
    empty. *)
Record Torrent := mkTorrent {
  name : string;
  files : list string;
  metadata_complete : bool
}.

Record BTDownloader := mkBTDownloader {
  download_dir : string;
  handles : list (string * Z);
  get_torrent : Z → Result Torrent
}.

Definition get_download_path (self : BTDownloader) (info_hash : string)
  : Result (option string) :=
  match dict_get info_hash (handles self) with
  | None => Return None
  | Some torrent_id =>
      match get_torrent self torrent_id with
      | Raise e => Raise e
      | Return torrent =>
          if Nat.eqb (length (files torrent)) 1 then
            Return (Some (path_join (download_dir self) (name torrent)))
          else Return (Some (path_join (download_dir self) (name torrent)))
      end
  end.

End Transmission.

(** [scripts/bt_downloader.py], the libtorrent adapter. *)
Module Libtorrent.

(** A torrent handle: [has_metadata()], [name()] and
    [get_torrent_info().files().num_files()]. *)
Record Handle := mkHandle {
  has_metadata : bool;
  name : string;
  num_files : nat
}.

Record BTDownloader := mkBTDownloader {
  download_dir : string;
  handles : list (string * Handle)
}.

Definition get_download_path (self : BTDownloader) (info_hash : string)
  : option string :=
  match dict_get info_hash (handles self) with
  | None => None
  | Some handle =>
      if negb (has_metadata handle) then None
      else if Nat.eqb (num_files handle) 1 then
        Some (path_join (download_dir self) (name handle))
      else Some (path_join (download_dir self) (name handle))
  end.

End Libtorrent.

(** ** A scripted world *)

(** A concrete set of collaborators, to run the service on: the world is a
    clock that ticks at every call. One torrent file is rejected by the
    download client, one transfer cannot be polled, every other download is
    finished and its upload is refused by the remote store. *)
Module Demo.

Definition chunk_error : pydict :=
  [("error", PStr "Failed chunk upload for file show.mkv: 507 - full")].

(** The status dict of a finished download. *)
Definition finished : pydict :=
  [("name", PStr "show.mkv"); ("progress", PNum 100);
   ("is_finished", PBool true)].

Definition world : Collaborators nat :=
  mkCollaborators
    (λ w, (Z.of_nat w, S w))
    (λ src w,
       (if String.eqb src "broken.torrent" then Raise "invalid torrent data"
        else Return ("hash:" +:+ src),
        S w))
    (λ info_hash w,
       (if String.eqb info_hash "hash:stalled" then Raise "timed out"
        else Return finished,
        S w))
    (λ info_hash w, (Return (Some "/downloads/show.mkv"), w))
    (λ path w, false)
    (λ path w, (Return [("success", PList []); ("error", PList [])], S w))
    (λ path w, (Return chunk_error, S w)).

Definition blank (src : string) : Task :=
  mkTask src (Some 0%Z) None None None None None.

Definition no_tasks : Service :=
  mkService (mkTasks (λ _, blank "") [] [] [] []) [].

(** The same world, but the download client knows every source as one and
    the same torrent. *)
Definition same_torrent : Collaborators nat :=
  mkCollaborators (clock world) (λ src w, (Return "hash:show", S w))
    (get_torrent_status world) (get_download_path world) (isdir world)
    (upload_folder world) (upload_file world).

(** A torrent file and a magnet link, both pending. *)
Definition two_pending : Service :=
  mkService
    (mkTasks (λ l, match l with
                   | 0 => blank "show.torrent"
                   | _ => blank "magnet:?xt=urn:btih:show"
                   end)
             [0; 1] [] [] [])
    [].

(** Three pending tasks; the download client rejects the second. *)
Definition three_pending : Service :=
  mkService
    (mkTasks (λ l, match l with
                   | 0 => blank "first.torrent"
                   | 1 => blank "broken.torrent"
                   | _ => blank "magnet:?xt=urn:btih:last"
                   end)
             [0; 1; 2] [] [] [])
    [].

(** Three downloading tasks; the second cannot be polled. *)
Definition three_downloading : Service :=
  mkService
    (mkTasks (λ l, match l with
                   | 0 => blank "first.torrent"
                   | 1 => blank "magnet:?xt=urn:btih:stalled"
                   | _ => blank "magnet:?xt=urn:btih:last"
                   end)
             [] [("hash:first", 0); ("hash:stalled", 1); ("hash:last", 2)]
             [] [])
    [].

(** One pending task, of source [src]. *)
Definition one_pending (src : string) : Service :=
  mkService (mkTasks (λ _, blank src) [0] [] [] []) [].

(** One downloading task, under the key [info_hash]. *)
Definition one_downloading (info_hash : string) : Service :=
  mkService (mkTasks (λ _, blank "magnet:?xt=urn:btih:show")
                     [] [(info_hash, 0)] [] []) [].

(** A transfer added from a magnet link whose metadata has not arrived. *)
Definition transmission : Transmission.BTDownloader :=
  Transmission.mkBTDownloader "/downloads" [("abc123", 7%Z)]
    (λ torrent_id,
       if Z.eqb torrent_id 7 then Return (Transmission.mkTorrent "abc123" [] false)
       else Raise "Torrent not found in result").

Definition libtorrent : Libtorrent.BTDownloader :=
  Libtorrent.mkBTDownloader "/downloads"
    [("abc123", Libtorrent.mkHandle false "abc123" 0)].

(** An upload session whose every PUT is answered 202. *)
Definition session : OneDriveUploader.Response :=
  OneDriveUploader.mkResponse 200 "" [("uploadUrl", PStr "https://upload")].

Definition accepted : nat → Result OneDriveUploader.Response :=
  λ _, Return (OneDriveUploader.mkResponse 202 "" []).

(** A local folder with two files, each uploaded without error. *)
Definition walk (folder_path : string) (w : nat)
  : list (string * list string * list string) :=
  [(folder_path, [], ["a.mkv"; "b.srt"])].

Definition upload_one (file target : string) (w : nat) : Result pydict * nat :=
  (Return [("id", PStr file)], S w).

Definition create_folder (target : string) (w : nat) : Result pydict * nat :=
  (Return [("id", PStr target)], S w).

End Demo.

(** A second scripted world, for the turns of [check_downloads]: one
    transfer is still running, one is finished but the download client has
    no path for it, and every upload is cut off by the network. *)
Module Scripted.

Definition in_progress : pydict :=
  [("name", PStr "show.mkv"); ("progress", PNum 40);
   ("is_finished", PBool false)].

Definition world : Collaborators nat :=
  mkCollaborators
    (clock Demo.world)
    (add_torrent Demo.world)
    (λ info_hash w,
       (Return (if String.eqb info_hash "hash:slow" then in_progress
                else Demo.finished),
        S w))
    (λ info_hash w,
       (Return (if String.eqb info_hash "hash:gone" then None
                else Some "/downloads/show.mkv"),
        w))
    (λ path w, false)
    (upload_folder Demo.world)
    (λ path w, (Raise "Connection aborted", S w)).


End Scripted.

(** ** The upload client as a stateful object *)

(** The part of [scripts/onedrive_uploader.py] that keeps [self.token] and
    talks to MSAL and to the Graph API: authentication, [get_item_by_path],
    [create_folder], [upload_file] and [_simple_upload]. *)
Module OneDriveClient.

(** The Graph URLs that the client builds. *)
Inductive Url :=
  | DriveRoot                      (* .../me/drive/root *)
  | DriveItem (path : string)      (* .../me/drive/root:/{path} *)
  | DriveItems                     (* .../me/drive/items *)
  | ItemChildren (parent_id : pyval)
                                   (* .../me/drive/items/{parent_id}/children *)
  | ItemContent (destination_folder file_name : string).
                      (* .../me/drive/root:/{destination_folder}/{file_name}:/content *)

(** A call of [requests]; [bearer] is [self.token['access_token']], put in
    the [Authorization] header. *)
Inductive Request :=
  | GET (url : Url) (bearer : pyval)
  | POST (url : Url) (bearer : pyval) (data : pydict)
  | PUT (url : Url) (bearer : pyval) (file_path : string).

(** What the client does to the outside. *)
Inductive ClientEvent :=
  | TokenSaved (t : pydict)        (* [_save_token] *)
  | Sent (r : Request)
  | Printed (message : pyval).     (* the device flow prompt *)

Record Client := mkClient {
  token : option pydict;
  history : list ClientEvent
}.

(** MSAL, the network, the clock and the file system, over a world state. *)
Record Cloud (W : Type) := mkCloud {
  time_time : W → time * W;
  get_accounts : W → Result (list pyval) * W;
  acquire_token_silent : pyval → W → Result (option pydict) * W;
  initiate_device_flow : W → Result pydict * W;
  acquire_token_by_device_flow : pydict → W → Result pydict * W;
  request : Request → W → Result OneDriveUploader.Response * W;
  open_rb : string → W → Result unit * W;
  getsize : string → W → Result Z * W
}.
Arguments mkCloud {W}.
Arguments time_time {W} _ _.
Arguments get_accounts {W} _ _.
Arguments acquire_token_silent {W} _ _ _.
Arguments initiate_device_flow {W} _ _.
Arguments acquire_token_by_device_flow {W} _ _ _.
Arguments request {W} _ _ _.
Arguments open_rb {W} _ _ _.
Arguments getsize {W} _ _ _.

(** A method of the client: it may change the client and the world, and it
    returns or raises. *)
Definition M (W A : Type) : Type := Client → W → Result A * Client * W.

#[global] Instance M_ret {W} : MRet (M W) := λ A a c w, (Return a, c, w).

#[global] Instance M_bind {W} : MBind (M W) := λ A B f m c w,
  match m c w with
  | (Return a, c1, w1) => f a c1 w1
  | (Raise e, c1, w1) => (Raise e, c1, w1)
  end.

Definition raise {W A} (e : string) : M W A := λ c w, (Raise e, c, w).

(** A call of a collaborator. *)
Definition call {W A} (f : W → Result A * W) : M W A :=
  λ c w, let '(r, w1) := f w in (r, c, w1).

Definition get_token {W} : M W (option pydict) :=
  λ c w, (Return (token c), c, w).

Definition set_token {W} (t : pydict) : M W unit :=
  λ c w, (Return (), mkClient (Some t) (history c), w).

Definition emit {W} (ev : ClientEvent) : M W unit :=
  λ c w, (Return (), mkClient (token c) (history c ++ [ev]), w).

(** [s[1:] if s.startswith('/') else s] *)
Definition strip_slash (s : string) : string :=
  match s with
  | String "/"%char rest => rest
  | _ => s
  end.

(** [s.split('/')] *)
Fixpoint split_slash (s : string) : list string :=
  match s with
  | EmptyString => [EmptyString]
  | String c rest =>
      if Ascii.eqb c "/"%char then EmptyString :: split_slash rest
      else
        match split_slash rest with
        | p :: ps => String c p :: ps
        | [] => [String c EmptyString]
        end
  end.

(** [type(v).__name__] *)
Definition type_name (v : pyval) : string :=
  match v with
  | PNone => "NoneType"
  | PBool _ => "bool"
  | PNum _ => "int"
  | PStr _ => "str"
  | PList _ => "list"
  | PDict _ => "dict"
  end.

(** [v < now], for [now] a [time.time()]. *)
Definition lt_time (v : pyval) (now : time) : Result bool :=
  match v with
  | PNum n => Return (Z.ltb n now)
  | PBool b => Return (Z.ltb (if b then 1 else 0) now)
  | _ =>
      Raise ("'<' not supported between instances of '" +:+ type_name v
             +:+ "' and 'float'")
  end.

(** [d[k]] *)
Definition item {W} (d : pydict) (k : string) : M W pyval :=
  match dict_get k d with
  | Some v => mret v
  | None => raise (key_error k)
  end.

Definition authentication_failed : pydict :=
  [("error", PStr "Authentication failed")].

(** The body of the POST that creates the folder [part]. *)
Definition folder_data (part : string) : pydict :=
  [("name", PStr part); ("folder", PDict []);
   ("@microsoft.graph.conflictBehavior", PStr "rename")].

(** [destination_folder or default_folder] *)
Definition or_default (default_folder : string)
    (destination_folder : option string) : string :=
  match destination_folder with
  | Some d => if String.eqb d "" then default_folder else d
  | None => default_folder
  end.

(** The events [evs] are GET requests sent with [bearer]. *)
Definition only_gets (bearer : pyval) (evs : list ClientEvent) : Prop :=
  ∀ ev, ev ∈ evs → ∃ url, ev = Sent (GET url bearer).

Section Client.
Context {W : Type} (C : Cloud W).
(** [self.upload_folder] *)
Variable default_folder : string.
(** [self._chunked_upload(file_path, destination_folder, show_progress)] *)
Variable _chunked_upload : string → string → M W pydict.

(** [self._save_token()]; a write that fails is caught inside. *)
Definition _save_token : M W unit :=
  tok ← get_token;
  match tok with
  | Some t => emit (TokenSaved t)
  | None => mret ()
  end.

(** [requests.get], [requests.post], [requests.put] *)
Definition send (r : Request) : M W OneDriveUploader.Response :=
  emit (Sent r);; call (request C r).

(** [self.token['access_token']] *)
Definition access_token : M W pyval :=
  tok ← get_token;
  match tok with
  | Some t => item t "access_token"
  | None => raise "'NoneType' object is not subscriptable"
  end.

Definition _acquire_token_silently : M W (option pydict) :=
  tok ← get_token;
  if negb (truthy (default PNone (PDict <$> tok))) then mret None
  else
    accounts ← call (get_accounts C);
    match accounts with
    | account :: _ =>
        result ← call (acquire_token_silent C account);
        match result with
        | Some r =>
            if truthy (PDict r) then
              set_token r;; _save_token;; mret (Some r)
            else mret None
        | None => mret None
        end
    | [] => mret None
    end.

Definition authenticate_device_flow : M W bool :=
  flow ← call (initiate_device_flow C);
  if negb (dict_has "user_code" flow) then mret false
  else
    message ← item flow "message";
    emit (Printed message);;
    result ← call (acquire_token_by_device_flow C flow);
    if dict_has "access_token" result then
      set_token result;; _save_token;; mret true
    else mret false.

Definition authenticate : M W bool :=
  result ← _acquire_token_silently;
  match result with
  | Some _ => mret true
  | None => authenticate_device_flow
  end.

Definition is_authenticated : M W bool :=
  tok ← get_token;
  match tok with
  | None => mret false
  | Some t =>
      if negb (truthy (PDict t)) || negb (dict_has "access_token" t)
      then mret false
      else
        let expires_at := default (PNum 0) (dict_get "expires_at" t) in
        now ← call (λ w, let '(t, w1) := time_time C w in (Return t, w1));
        match lt_time expires_at now with
        | Raise e => raise e
        | Return true =>
            result ← _acquire_token_silently;
            match result with
            | Some _ => mret true
            | None => mret false
            end
        | Return false => mret true
        end
  end.

(** The guard at the head of [create_folder], [get_item_by_path] and
    [upload_file]: [Some] is the dict that the method returns at once. *)
Definition ensure_authenticated : M W (option pydict) :=
  ok ← is_authenticated;
  if ok : bool then mret None
  else
    ok ← authenticate;
    if ok : bool then mret None else mret (Some authentication_failed).

Definition get_item_by_path (path : string) : M W pydict :=
  stop ← ensure_authenticated;
  match stop with
  | Some failed => mret failed
  | None =>
      let path := strip_slash path in
      let url := if String.eqb path "" then DriveRoot else DriveItem path in
      bearer ← access_token;
      response ← send (GET url bearer);
      if Z.eqb (OneDriveUploader.status_code response) 200 then
        mret (OneDriveUploader.json response)
      else
        mret [("error",
               PStr ("Failed to get item at path " +:+ path +:+ ": "
                     +:+ OneDriveUploader.str_Z
                           (OneDriveUploader.status_code response)
                     +:+ " - " +:+ OneDriveUploader.text response))]
  end.

(** [for part in parts] of [create_folder]: [Some] is the dict of a
    [return] inside the loop. *)
Fixpoint create_parts (parts : list string) (current_path : string)
    (parent_id : pyval) : M W (option pydict) :=
  match parts with
  | [] => mret None
  | part :: rest =>
      if String.eqb part "" then create_parts rest current_path parent_id
      else
        let current_path := current_path +:+ "/" +:+ part in
        existing ← get_item_by_path current_path;
        if truthy (PDict existing) && negb (dict_has "error" existing) then
          parent_id ← item existing "id";
          create_parts rest current_path parent_id
        else
          let url :=
            if truthy parent_id then ItemChildren parent_id else DriveItems in
          bearer ← access_token;
          response ← send (POST url bearer (folder_data part));
          if Z.eqb (OneDriveUploader.status_code response) 201 then
            parent_id ← item (OneDriveUploader.json response) "id";
            create_parts rest current_path parent_id
          else
            mret (Some
                    [("error",
                      PStr ("Failed to create folder " +:+ current_path
                            +:+ ": "
                            +:+ OneDriveUploader.str_Z
                                  (OneDriveUploader.status_code response)
                            +:+ " - " +:+ OneDriveUploader.text response))])
  end.

Definition create_folder (folder_path : string) : M W pydict :=
  stop ← ensure_authenticated;
  match stop with
  | Some failed => mret failed
  | None =>
      let folder_path := strip_slash folder_path in
      stop ← create_parts (split_slash folder_path) "" PNone;
      match stop with
      | Some failed => mret failed
      | None => get_item_by_path folder_path
      end
  end.

Definition _simple_upload (file_path destination_folder : string)
  : M W pydict :=
  let file_name := basename file_path in
  let destination_folder := strip_slash destination_folder in
  bearer ← access_token;
  call (open_rb C file_path);;
  response ← send (PUT (ItemContent destination_folder file_name) bearer
                       file_path);
  if OneDriveUploader.status_in [200; 201]%Z response then
    mret (OneDriveUploader.json response)
  else
    mret [("error",
           PStr ("Failed to upload file " +:+ file_name +:+ ": "
                 +:+ OneDriveUploader.str_Z
                       (OneDriveUploader.status_code response)
                 +:+ " - " +:+ OneDriveUploader.text response))].

Definition upload_file (file_path : string)
    (destination_folder : option string) : M W pydict :=
  stop ← ensure_authenticated;
  match stop with
  | Some failed => mret failed
  | None =>
      let destination_folder :=
        or_default default_folder destination_folder in
      folder_info ← create_folder destination_folder;
      if dict_has "error" folder_info then mret folder_info
      else
        file_size ← call (getsize C file_path);
        if (file_size <=? 4 * 1024 * 1024)%Z then
          _simple_upload file_path destination_folder
        else _chunked_upload file_path destination_folder
  end.

End Client.

End OneDriveClient.

(** ** The uploader object that the service holds *)

(** Attribute lookup on the [OneDriveUploader] instance of [main.py].
    [__init__] stores the destination folder under the name
    [upload_folder] (line 38), which is also the name of the method of line
    402. An attribute of the instance is found before an attribute of the
    class, so on every instance [upload_folder] is the folder string. *)
Module Uploader.

(** What a name is bound to: data, or a function of the class that takes a
    path and gives a result dict. *)
Inductive Attribute (W : Type) :=
  | Data (v : pyval)
  | Method (f : string → W → Result pydict * W).
Arguments Data {W} v.
Arguments Method {W} f.

(** [attribute(path)]: data is not callable. *)
Definition call {W} (a : Attribute W) (path : string) (w : W)
  : Result pydict * W :=
  match a with
  | Method f => f path w
  | Data v =>
      (Raise ("'" +:+ OneDriveClient.type_name v
              +:+ "' object is not callable"), w)
  end.

(** The attributes that [__init__] sets on the instance (lines 32-40), in
    the order of the assignments; [self.app], the MSAL application, is left
    out. [token] is what [_load_token] has read. *)
Definition instance_attributes {W}
    (client_id client_secret tenant_id redirect_uri scopes token_path : pyval)
    (upload_folder : string) (token : pyval)
  : list (string * Attribute W) :=
  [("client_id", Data client_id); ("client_secret", Data client_secret);
   ("tenant_id", Data tenant_id); ("redirect_uri", Data redirect_uri);
   ("scopes", Data scopes); ("token_path", Data token_path);
   ("upload_folder", Data (PStr upload_folder)); ("token", Data token)].

(** The functions of the class that [main.py] calls with a path. *)
Definition class_attributes {W} (E : Collaborators W)
  : list (string * Attribute W) :=
  [("upload_file", Method (upload_file E));
   ("upload_folder", Method (upload_folder E))].

(** [getattr(uploader, name)]: the instance first, then the class. *)
Definition getattr {W} (instance class : list (string * Attribute W))
    (name : string) : Result (Attribute W) :=
  match dict_get name instance with
  | Some a => Return a
  | None =>
      match dict_get name class with
      | Some a => Return a
      | None =>
          Raise ("'OneDriveUploader' object has no attribute '" +:+ name
                 +:+ "'")
      end
  end.

(** [uploader.name(path)] *)
Definition invoke {W} (instance class : list (string * Attribute W))
    (name path : string) (w : W) : Result pydict * W :=
  match getattr instance class name with
  | Return a => call a path w
  | Raise e => (Raise e, w)
  end.

(** The collaborators of the service with the upload client reached as
    [check_downloads] reaches it, through the instance [self.uploader]
    (lines 169 and 171). [E] gives the download client, the clock, the file
    system and the functions of the class [OneDriveUploader]. *)
Definition through_instance {W} (instance : list (string * Attribute W))
    (E : Collaborators W) : Collaborators W :=
  mkCollaborators (clock E) (add_torrent E) (get_torrent_status E)
    (get_download_path E) (isdir E)
    (invoke instance (class_attributes E) "upload_folder")
    (invoke instance (class_attributes E) "upload_file").

End Uploader.

(** A finished download that is a directory of two files; the function
    [upload_folder] of the class would upload both. *)
Module Boxset.

Definition instance : list (string * Uploader.Attribute nat) :=
  Uploader.instance_attributes (PStr "app-id") (PStr "app-secret")
    (PStr "common") (PStr "http://localhost:8000/callback")
    (PList [PStr "Files.ReadWrite"; PStr "Files.ReadWrite.All";
            PStr "offline_access"])
    (PStr "./onedrive_token.json") "/BTDownloads" PNone.

Definition world : Collaborators nat :=
  mkCollaborators (clock Demo.world) (add_torrent Demo.world)
    (get_torrent_status Demo.world)
    (λ info_hash w, (Return (Some "/downloads/show"), w))
    (λ path w, true)
    (λ path w,
       OneDriveUploader.upload_folder (λ _ _, true) Demo.walk (λ _ _, ".")
         Demo.create_folder Demo.upload_one "/BTDownloads" path None w)
    (upload_file Demo.world).

End Boxset.

(** Scripted drives, to run the upload client on. *)
Module Drive.

(** A token that is good until the time 1000. *)
Definition good_token : pydict :=
  [("access_token", PStr "secret"); ("expires_at", PNum 1000)].

Definition signed_in : OneDriveClient.Client :=
  OneDriveClient.mkClient (Some good_token) [].

(** A token as read back from the token file, without ['expires_at']. *)
Definition restored : OneDriveClient.Client :=
  OneDriveClient.mkClient (Some [("access_token", PStr "secret")]) [].

Definition folder_item : OneDriveUploader.Response :=
  OneDriveUploader.mkResponse 200 "" [("id", PStr "folder-1")].

Definition file_item : OneDriveUploader.Response :=
  OneDriveUploader.mkResponse 201 "" [("id", PStr "file-1")].

Definition size_of (path : string) : Z :=
  if String.eqb path "/downloads/show.mkv" then 26214400 else 1024.

(** A drive on which every path exists and every upload is accepted; the
    MSAL cache is empty and no device flow can be started. *)
Definition full : OneDriveClient.Cloud nat :=
  OneDriveClient.mkCloud
    (λ w, (100%Z, S w))
    (λ w, (Return [], w))
    (λ account w, (Return None, w))
    (λ w, (Return [("error", PStr "invalid_client")], S w))
    (λ flow w, (Return [("error", PStr "expired_token")], S w))
    (λ r w,
       (Return match r with
               | OneDriveClient.PUT _ _ _ => file_item
               | _ => folder_item
               end,
        S w))
    (λ path w, (Return (), w))
    (λ path w, (Return (size_of path), w)).

(** A drive on which nothing is found and nothing may be created. *)
Definition locked : OneDriveClient.Cloud nat :=
  OneDriveClient.mkCloud
    (OneDriveClient.time_time full)
    (OneDriveClient.get_accounts full)
    (OneDriveClient.acquire_token_silent full)
    (OneDriveClient.initiate_device_flow full)
    (OneDriveClient.acquire_token_by_device_flow full)
    (λ r w,
       (Return match r with
               | OneDriveClient.GET _ _ =>
                   OneDriveUploader.mkResponse 404 "itemNotFound" []
               | _ => OneDriveUploader.mkResponse 403 "accessDenied" []
               end,
        S w))
    (OneDriveClient.open_rb full)
    (OneDriveClient.getsize full).

(** A chunked upload that ends without confirmation. *)
Definition chunked (file_path destination_folder : string)
  : OneDriveClient.M nat pydict :=
  mret OneDriveUploader.no_confirmation.

(** The answers to the PUTs of a chunked upload: the second chunk is
    rejected. *)
Definition rejecting (n : nat) : Result OneDriveUploader.Response :=
  if Nat.eqb n 1 then Return (OneDriveUploader.mkResponse 507 "full" [])
  else Return (OneDriveUploader.mkResponse 202 "" []).

(** The answers to the PUTs of a chunked upload: the third chunk completes
    the file. *)
Definition confirming (n : nat) : Result OneDriveUploader.Response :=
  if Nat.eqb n 2 then Return file_item
  else Return (OneDriveUploader.mkResponse 202 "" []).

End Drive.

(** ** The download adapter as a stateful object *)

(** [scripts/bt_downloader_transmission.py] with its [self.handles] dict:
    the methods that register, look up and forget transfers. *)
Module TransmissionAdapter.

(** What [session.add_torrent] is given as [torrent]: a magnet link, or the
    bytes of a torrent file. *)
Inductive TorrentArg :=
  | Link (magnet : string)
  | Data (torrent_data : string).

(** What [session.add_torrent] gives back: [hashString] and [id]. *)
Record Added := mkAdded {
  hashString : string;
  id : Z
}.

(** The Transmission daemon and the file system, over a world state. *)
Record Daemon (S : Type) := mkDaemon {
  session_add_torrent : TorrentArg → string → S → Result Added * S;
  read_file : string → S → Result string * S;
  session_get_torrent : Z → S → Result Transmission.Torrent * S;
  session_remove_torrent : Z → bool → S → Result unit * S
}.
Arguments mkDaemon {S}.
Arguments session_add_torrent {S} _ _ _ _.
Arguments read_file {S} _ _ _.
Arguments session_get_torrent {S} _ _ _.
Arguments session_remove_torrent {S} _ _ _ _.

(** [self.handles]: info hash to torrent id. *)
Definition Handles := list (string * Z).

Definition not_found : pydict := [("error", PStr "Torrent not found")].

Section Adapter.
Context {S : Type} (D : Daemon S).
(** [self.download_dir] *)
Variable download_dir : string.
(** The status dict that [get_torrent_status] makes of a torrent; its
    progress and its rates are floating-point numbers. *)
Variable status_dict : string → Transmission.Torrent → pydict.

Definition add_torrent (torrent_path_or_magnet : string) (handles : Handles)
    (s : S) : Result string * Handles * S :=
  let '(added, s1) :=
    if String.prefix "magnet:" torrent_path_or_magnet then
      session_add_torrent D (Link torrent_path_or_magnet) download_dir s
    else
      match read_file D torrent_path_or_magnet s with
      | (Raise e, s0) => (Raise e, s0)
      | (Return torrent_data, s0) =>
          session_add_torrent D (Data torrent_data) download_dir s0
      end in
  match added with
  | Raise e => (Raise e, handles, s1)
  | Return torrent =>
      (Return (hashString torrent),
       dict_set (hashString torrent) (id torrent) handles, s1)
  end.

Definition get_torrent_status (info_hash : string) (handles : Handles)
    (s : S) : Result pydict * S :=
  match dict_get info_hash handles with
  | None => (Return not_found, s)
  | Some torrent_id =>
      match session_get_torrent D torrent_id s with
      | (Raise e, s1) => (Raise e, s1)
      | (Return torrent, s1) => (Return (status_dict info_hash torrent), s1)
      end
  end.

Definition get_download_path (info_hash : string) (handles : Handles)
    (s : S) : Result (option string) * S :=
  match dict_get info_hash handles with
  | None => (Return None, s)
  | Some torrent_id =>
      match session_get_torrent D torrent_id s with
      | (Raise e, s1) => (Raise e, s1)
      | (Return torrent, s1) =>
          (if Nat.eqb (length (Transmission.files torrent)) 1 then
             Return (Some (path_join download_dir (Transmission.name torrent)))
           else
             Return (Some (path_join download_dir (Transmission.name torrent))),
           s1)
      end
  end.

Definition remove_torrent (info_hash : string) (remove_files : bool)
    (handles : Handles) (s : S) : Result bool * Handles * S :=
  match dict_get info_hash handles with
  | None => (Return false, handles, s)
  | Some torrent_id =>
      match session_get_torrent D torrent_id s with
      | (Raise e, s1) => (Raise e, handles, s1)
      | (Return torrent, s1) =>
          match session_remove_torrent D torrent_id remove_files s1 with
          | (Raise e, s2) => (Raise e, handles, s2)
          | (Return _, s2) =>
              match dict_del info_hash handles with
              | Some handles' => (Return true, handles', s2)
              | None => (Raise (key_error info_hash), handles, s2)
              end
          end
      end
  end.


End Adapter.

End TransmissionAdapter.

(** A scripted Transmission daemon: it numbers the transfers as they come
    and names each by what it was given. *)
Module Seedbox.

Definition daemon : TransmissionAdapter.Daemon nat :=
  TransmissionAdapter.mkDaemon
    (λ torrent dir s,
       (Return (TransmissionAdapter.mkAdded
                  match torrent with
                  | TransmissionAdapter.Link magnet => "hash:" +:+ magnet
                  | TransmissionAdapter.Data torrent_data =>
                      "hash:" +:+ torrent_data
                  end
                  (Z.of_nat s)),
        S s))
    (λ path s, (Return ("bytes of " +:+ path), s))
    (λ torrent_id s,
       (Return (Transmission.mkTorrent "show.mkv" ["show.mkv"] true), s))
    (λ torrent_id remove_files s, (Return (), S s)).

(** The status dict of a torrent, by its metadata alone. *)
Definition status_dict (info_hash : string) (torrent : Transmission.Torrent)
  : pydict :=
  [("info_hash", PStr info_hash); ("name", PStr (Transmission.name torrent));
   ("is_finished", PBool (Transmission.metadata_complete torrent))].

End Seedbox.

(** ** The tasks file and the scheduler pass *)

(** What a call of [_save_tasks] does to the tasks file. The call opens the
    file for writing, which empties it, and dumps the store into it; an
    exception of either is caught inside [_save_tasks] (lines 76-80), so the
    service goes on whatever has become of the file. *)
Inductive WriteOutcome :=
  | Written        (* the dump ran to its end *)
  | NotOpened      (* [open] raised: the file is as it was *)
  | Cut.           (* [json.dump] raised: the file is empty or holds a part *)

Inductive TasksFile :=
  | NoFile
  | Holds (snap : Snapshot)
  | Damaged.

Definition write (o : WriteOutcome) (snap : Snapshot) (f : TasksFile)
  : TasksFile :=
  match o with
  | Written => Holds snap
  | NotOpened => f
  | Cut => Damaged
  end.

(** The tasks file after the events [tr], which follow [n] earlier events of
    the service; it was [f] before them. [disk i] is the outcome of the
    write, when the event number [i] is a call of [_save_tasks]. *)
Fixpoint tasks_file (disk : nat → WriteOutcome) (n : nat) (tr : list Event)
    (f : TasksFile) : TasksFile :=
  match tr with
  | [] => f
  | Saved snap :: rest => tasks_file disk (S n) rest (write (disk n) snap f)
  | Logged _ _ :: rest => tasks_file disk (S n) rest f
  end.

(** The tasks file, which was [f0] when the service started, holds the store
    as it is in memory. *)
Definition persisted (disk : nat → WriteOutcome) (f0 : TasksFile)
    (sv : Service) : Prop :=
  tasks_file disk 0 (trace sv) f0 = Holds (snapshot (tasks sv)).

(** The store is on file, [n0] events or more into the life of the
    service. *)
Definition on_file (disk : nat → WriteOutcome) (f0 : TasksFile) (n0 : nat)
    (sv : Service) : Prop :=
  n0 ≤ length (trace sv) ∧ persisted disk f0 sv.

Section Scheduler.
Context {W : Type} (E : Collaborators W).

(** One pass of [run_scheduler]: [self.process_pending_tasks()] and then
    [self.check_downloads()]; an exception that leaves the first ends the
    pass. *)
Definition run_pass (sv : Service) (w : W) : Outcome * Service * W :=
  match process_pending_tasks E sv w with
  | (Normal, sv1, w1) =>
      let '(sv2, w2) := check_downloads E sv1 w1 in (Normal, sv2, w2)
  | stopped => stopped
  end.

(** The operations [ops] in a row, on one service object. *)
Fixpoint run_ops (ops : list Op) (sv : Service) (w : W) : Service * W :=
  match ops with
  | [] => (sv, w)
  | op :: rest => let '(sv1, w1) := run_op E op sv w in run_ops rest sv1 w1
  end.

End Scheduler.

(** * Properties *)

(** ** Heap and store lemmas *)

Lemma upd_eq (h : Heap) l t : upd h l t l = t.
Proof. unfold upd. by rewrite Nat.eqb_refl. Qed.

Lemma upd_ne (h : Heap) l l' t : l' ≠ l → upd h l t l' = h l'.
Proof. unfold upd. intros Hne. by apply Nat.eqb_neq in Hne as ->. Qed.

Lemma foldr_max_ge (l : loc) (roots : list loc) :
  l ∈ roots → l ≤ foldr Nat.max 0 roots.
Proof.
  induction roots as [|r roots IH]; [by intros ?%elem_of_nil|].
  intros [->|Hin]%elem_of_cons; simpl; [lia|].
  specialize (IH Hin). lia.
Qed.

Lemma fresh_not_in (roots : list loc) : fresh roots ∉ roots.
Proof. intros Hin%foldr_max_ge. unfold fresh in Hin. lia. Qed.

Lemma sources_app h ls1 ls2 :
  sources h (ls1 ++ ls2) = sources h ls1 ++ sources h ls2.
Proof. apply fmap_app. Qed.

Lemma sources_ext h h' ls :
  (∀ x, x ∈ ls → source (h' x) = source (h x)) → sources h' ls = sources h ls.
Proof.
  intros Hext. apply list_fmap_ext. intros i x Hx. apply Hext.
  by eapply list_elem_of_lookup_2.
Qed.

(** Writing to an object that [ls] does not reference. *)
Lemma sources_upd_fresh h l t ls :
  l ∉ ls → sources (upd h l t) ls = sources h ls.
Proof.
  intros Hni. apply sources_ext. intros x Hx. rewrite upd_ne; [done|].
  by intros ->.
Qed.

(** Writing a key other than ['source'] to an object. *)
Lemma sources_upd_keep h l t ls :
  source t = source (h l) → sources (upd h l t) ls = sources h ls.
Proof.
  intros Hsrc. apply sources_ext. intros x _. unfold upd.
  destruct (Nat.eqb_spec x l) as [->|]; done.
Qed.

Lemma elem_of_sources h ls s :
  s ∈ sources h ls ↔ ∃ l, l ∈ ls ∧ source (h l) = s.
Proof.
  unfold sources. rewrite list_elem_of_fmap. split.
  - intros (l & -> & Hin). by exists l.
  - intros (l & Hin & <-). by exists l.
Qed.

Lemma source_in_list_spec (h : Heap) s (ls : list loc) :
  source_in_list h s ls = true ↔ s ∈ sources h ls.
Proof.
  unfold source_in_list. rewrite existsb_exists, elem_of_sources.
  split.
  - intros (l & Hin & Heq). exists l. apply String.eqb_eq in Heq.
    by rewrite <- list_elem_of_In in Hin.
  - intros (l & Hin & <-). exists l. rewrite String.eqb_refl.
    by rewrite <- list_elem_of_In.
Qed.

Lemma source_in_dict_spec (h : Heap) s (d : list (string * loc)) :
  source_in_dict h s d = true ↔ s ∈ sources h d.*2.
Proof.
  unfold source_in_dict. rewrite existsb_exists, elem_of_sources.
  split.
  - intros ([k l] & Hin & Heq). exists l. apply String.eqb_eq in Heq.
    split; [|done]. rewrite <- list_elem_of_In in Hin.
    apply list_elem_of_fmap. by exists (k, l).
  - intros (l & Hin & <-).
    apply list_elem_of_fmap in Hin as ([k l'] & -> & Hin).
    exists (k, l'). rewrite String.eqb_refl.
    by rewrite <- list_elem_of_In.
Qed.

Lemma all_sources_buckets (t : Tasks) :
  all_sources t =
  bucket_sources Pending t ++ bucket_sources Downloading t
  ++ bucket_sources Completed t ++ bucket_sources Failed t.
Proof.
  unfold all_sources, live, bucket_sources. simpl.
  by rewrite !sources_app.
Qed.

Lemma elem_of_all_sources s (t : Tasks) :
  s ∈ all_sources t ↔ ∃ b, occupies s b t.
Proof.
  rewrite all_sources_buckets, !elem_of_app. unfold occupies. split.
  - intros [H|[H|[H|H]]]; eauto.
  - intros [[] H]; auto.
Qed.

(** The duplicate check of [add_task] finds exactly the sources that occupy
    a bucket. *)
Lemma task_exists_spec s (t : Tasks) :
  task_exists s t = true ↔ ∃ b, occupies s b t.
Proof.
  rewrite <- elem_of_all_sources, all_sources_buckets, !elem_of_app.
  unfold task_exists, bucket_sources. simpl.
  rewrite !orb_true_iff, !source_in_list_spec, source_in_dict_spec.
  tauto.
Qed.

Lemma count_source_absent s (t : Tasks) :
  s ∉ all_sources t → count_source s t = 0.
Proof.
  unfold count_source. induction (all_sources t) as [|x xs IH]; [done|].
  intros [Hne Hni]%not_elem_of_cons.
  rewrite filter_cons. case_decide; [congruence|]. by apply IH.
Qed.

(** With one bucket per task, the bucket of a source is determined. *)
Lemma one_bucket_unique s b1 b2 (t : Tasks) :
  one_bucket_each t → occupies s b1 t → occupies s b2 t → b1 = b2.
Proof.
  unfold one_bucket_each, occupies. rewrite all_sources_buckets.
  intros Hnd H1 H2.
  apply NoDup_app in Hnd as (_ & HP & Hnd).
  apply NoDup_app in Hnd as (_ & HD & Hnd).
  apply NoDup_app in Hnd as (_ & HC & _).
  destruct b1, b2; try done; exfalso;
    first [ eapply HP; [eassumption|]; rewrite !elem_of_app; by auto
          | eapply HD; [eassumption|]; rewrite !elem_of_app; by auto
          | eapply HC; [eassumption|]; by auto ].
Qed.

Lemma one_bucket_no_alias (t : Tasks) : one_bucket_each t → NoDup (live t).
Proof. apply NoDup_fmap_1. Qed.

Lemma forward_refl b : forward b b.
Proof. by left. Qed.

Lemma forward_trans b1 b2 b3 : forward b1 b2 → forward b2 b3 → forward b1 b3.
Proof. unfold forward. intros [->|H1] [->|H2]; auto. right. lia. Qed.

Lemma comes_from_refl t : comes_from t t.
Proof. intros s b Hb. exists b. split; [done|apply forward_refl]. Qed.

Lemma comes_from_trans t1 t2 t3 :
  comes_from t1 t2 → comes_from t2 t3 → comes_from t1 t3.
Proof.
  intros H12 H23 s b3 Hb3. destruct (H23 s b3 Hb3) as (b2 & Hb2 & Hf23).
  destruct (H12 s b2 Hb2) as (b1 & Hb1 & Hf12).
  exists b1. split; [done|]. by eapply forward_trans.
Qed.

(** What [comes_from] says of a task that was in the store. *)
Lemma comes_from_forward t t' s b b' :
  one_bucket_each t → comes_from t t' →
  occupies s b t → occupies s b' t' → forward b b'.
Proof.
  intros Hone Hfrom Hb Hb'. destruct (Hfrom s b' Hb') as (b0 & Hb0 & Hfw).
  by rewrite (one_bucket_unique s b b0 t Hone Hb Hb0).
Qed.

(** ** Dict lemmas *)

Lemma dict_has_keys {A} k (d : list (string * A)) :
  dict_has k d = true ↔ k ∈ d.*1.
Proof.
  unfold dict_has. induction d as [|[k' v] d IH]; simpl.
  - split; [done|]. by intros ?%elem_of_nil.
  - rewrite elem_of_cons. destruct (String.eqb_spec k' k) as [->|Hne].
    + split; auto.
    + rewrite IH. split; [auto|]. by intros [->|].
Qed.

Lemma dict_set_keys {A} k (v : A) d x :
  x ∈ (dict_set k v d).*1 → x = k ∨ x ∈ d.*1.
Proof.
  induction d as [|[k' v'] d IH]; simpl.
  - intros ->%list_elem_of_singleton. by left.
  - destruct (String.eqb_spec k' k) as [->|Hne]; simpl.
    + intros [->|Hin]%elem_of_cons; [by left|]. right. by right.
    + intros [->|Hin]%elem_of_cons; [right; by left|].
      destruct (IH Hin); [by left|right; by right].
Qed.

Lemma dict_set_keys_NoDup {A} k (v : A) d :
  NoDup d.*1 → NoDup (dict_set k v d).*1.
Proof.
  induction d as [|[k' v'] d IH]; simpl; intros Hnd.
  - apply NoDup_singleton.
  - destruct (String.eqb_spec k' k) as [->|Hne]; [done|].
    simpl. apply NoDup_cons in Hnd as [Hni Hnd].
    apply NoDup_cons. split; [|by apply IH].
    intros [->|Hin]%dict_set_keys; done.
Qed.

Lemma dict_set_values {A B} (g : A → B) k (v : A) d :
  g <$> (dict_set k v d).*2 ⊆+ g v :: (g <$> d.*2).
Proof.
  induction d as [|[k' v'] d IH]; simpl; [done|].
  destruct (String.eqb_spec k' k) as [->|Hne]; simpl.
  - apply submseteq_skip, submseteq_cons. done.
  - rewrite (Permutation_swap (g v') (g v)). by apply submseteq_skip.
Qed.

Lemma dict_set_elem {A} k k' (v x : A) d :
  (k', x) ∈ dict_set k v d → (k' = k ∧ x = v) ∨ (k', x) ∈ d.
Proof.
  induction d as [|[k2 v2] d IH]; simpl.
  - intros ?%list_elem_of_singleton. left. by simplify_eq.
  - destruct (String.eqb_spec k2 k) as [->|Hne].
    + intros [?|?]%elem_of_cons; [left; by simplify_eq|].
      right. by right.
    + intros [?|Hin]%elem_of_cons; [right; simplify_eq; by left|].
      destruct (IH Hin); [by left|right; by right].
Qed.

Lemma dict_del_entry {A} k (v : A) kept rest :
  k ∉ kept.*1 →
  dict_del k (kept ++ (k, v) :: rest) = Some (kept ++ rest).
Proof.
  induction kept as [|[k' v'] kept IH]; simpl.
  - intros _. by rewrite String.eqb_refl.
  - intros [Hne Hni]%not_elem_of_cons.
    destruct (String.eqb_spec k' k) as [->|_]; [done|].
    by rewrite IH.
Qed.

(** ** [add_task] *)

Section AddTask.
Context {W : Type} (E : Collaborators W).

Lemma add_task_duplicate s sv w :
  task_exists s (tasks sv) = true →
  add_task E s sv w = (false, log Warning (TaskAlreadyExists s) sv, w).
Proof. unfold add_task. by intros ->. Qed.

Lemma add_task_accepted s sv w :
  task_exists s (tasks sv) = false →
  ∃ sv1 w1,
    add_task E s sv w = (true, sv1, w1)
    ∧ bucket_sources Pending (tasks sv1)
      = bucket_sources Pending (tasks sv) ++ [s]
    ∧ (∀ b, b ≠ Pending →
            bucket_sources b (tasks sv1) = bucket_sources b (tasks sv))
    ∧ downloading (tasks sv1) = downloading (tasks sv).
Proof.
  intros Hex. unfold add_task. rewrite Hex.
  destruct (clock E w) as [now w1]. eexists _, _. split; [done|].
  simpl. set (l := fresh (live (tasks sv))).
  pose proof (fresh_not_in (live (tasks sv))) as Hfresh. fold l in Hfresh.
  unfold live in Hfresh. rewrite !not_elem_of_app in Hfresh.
  destruct Hfresh as (Hp & Hd & Hc & Hf).
  split; [|split; [|done]].
  - unfold bucket_sources. simpl. rewrite sources_app. simpl.
    rewrite upd_eq. simpl. f_equal. by apply sources_upd_fresh.
  - intros b Hb. unfold bucket_sources.
    destruct b; [done| | |]; simpl; by apply sources_upd_fresh.
Qed.

Lemma add_task_accepted_sources s sv sv1 :
  bucket_sources Pending (tasks sv1)
    = bucket_sources Pending (tasks sv) ++ [s] →
  (∀ b, b ≠ Pending →
        bucket_sources b (tasks sv1) = bucket_sources b (tasks sv)) →
  all_sources (tasks sv1) ≡ₚ s :: all_sources (tasks sv).
Proof.
  intros Hpend Hothers.
  rewrite !all_sources_buckets, Hpend, !Hothers by done.
  rewrite <- app_assoc. simpl. symmetry. apply Permutation_middle.
Qed.

End AddTask.

(** C1. A source that already occupies a bucket, whichever it is, is
    rejected by [add_task]; from a store without the source, two submissions
    in a row are accepted and then rejected, and the store ends with exactly
    one task of that source. *)
Theorem add_task_idempotent_by_source {W} (E : Collaborators W) s sv w :
  ((∃ b, occupies s b (tasks sv)) → (add_task E s sv w).1.1 = false)
  ∧ ((∀ b, ¬ occupies s b (tasks sv)) →
      ∃ sv1 w1 sv2 w2,
        add_task E s sv w = (true, sv1, w1)
        ∧ add_task E s sv1 w1 = (false, sv2, w2)
        ∧ count_source s (tasks sv2) = 1).
Proof.
  split.
  - intros Hocc%task_exists_spec. by rewrite add_task_duplicate.
  - intros Hfree.
    assert (Hex : task_exists s (tasks sv) = false).
    { apply not_true_is_false. intros [b Hb]%task_exists_spec.
      by apply (Hfree b). }
    destruct (add_task_accepted E s sv w Hex)
      as (sv1 & w1 & Hadd & Hpend & Hothers & _).
    pose proof (add_task_accepted_sources s sv sv1 Hpend Hothers) as Hperm.
    assert (Hdup : task_exists s (tasks sv1) = true).
    { apply task_exists_spec, elem_of_all_sources. rewrite Hperm.
      apply elem_of_cons. by left. }
    exists sv1, w1, (log Warning (TaskAlreadyExists s) sv1), w1.
    split; [done|]. split; [by apply add_task_duplicate|].
    simpl. unfold count_source. rewrite Hperm, filter_cons.
    case_decide; [|done]. simpl. f_equal.
    apply (count_source_absent s (tasks sv)).
    intros [b Hb]%elem_of_all_sources. by apply (Hfree b).
Qed.

(** C10. On the duplicate branch [add_task] returns [False], leaves every
    bucket and every task object as it was, and does not call
    [_save_tasks]: the only thing it does is log a warning. *)
Theorem add_task_duplicate_leaves_store {W} (E : Collaborators W) s sv w :
  (∃ b, occupies s b (tasks sv)) →
  ∃ sv1,
    add_task E s sv w = (false, sv1, w)
    ∧ tasks sv1 = tasks sv
    ∧ trace sv1 = trace sv ++ [Logged Warning (TaskAlreadyExists s)]
    ∧ (∀ snap, Saved snap ∈ trace sv1 → Saved snap ∈ trace sv).
Proof.
  intros Hocc%task_exists_spec.
  exists (log Warning (TaskAlreadyExists s) sv).
  split; [by apply add_task_duplicate|]. split; [done|]. split; [done|].
  simpl. intros snap [Hin|Hin]%elem_of_app; [done|].
  by apply list_elem_of_singleton in Hin.
Qed.

(** ** One turn of [process_pending_tasks] *)

Section Dispatch.
Context {W : Type} (E : Collaborators W).

(** The task at the head of [pending] is the one [remove] drops. *)
Lemma remove_pending_head l rest t :
  pending t = l :: rest → remove_pending l t = Some (set_pending rest t).
Proof.
  intros Hp. unfold remove_pending. rewrite Hp. simpl.
  by rewrite Nat.eqb_refl.
Qed.

(** A turn for the head of [pending] ends normally, in one of two ways. *)
Lemma dispatch_head l rest sv w :
  pending (tasks sv) = l :: rest →
  ∃ sv' w',
    dispatch E l sv w = (Normal, sv', w')
    ∧ trace sv `prefix_of` trace sv'
    ∧ ((∃ k w1 start now,
          add_torrent E (source (heap (tasks sv) l)) w = (Return k, w1)
          ∧ tasks sv'
            = set_pending rest (enter_downloading l k start now (tasks sv)))
       ∨ (∃ e,
            add_torrent E (source (heap (tasks sv) l)) w = (Raise e, w')
            ∧ tasks sv' = set_pending rest (enter_failed l e (tasks sv))
            ∧ last (trace sv') = Some (Saved (snapshot (tasks sv'))))).
Proof.
  intros Hp. unfold dispatch.
  destruct (add_torrent E (source (heap (tasks sv) l)) w) as [[k|e] w1].
  - destruct (clock E w1) as [start w2], (clock E w2) as [now w3].
    rewrite (remove_pending_head l rest) by done.
    eexists _, _. split; [done|]. split.
    + simpl. rewrite <- app_assoc. by apply prefix_app_r.
    + left. by exists k, w1, start, now.
  - unfold dispatch_failed.
    rewrite (remove_pending_head l rest) by done.
    eexists _, _. split; [done|]. split.
    + simpl. rewrite <- app_assoc. by apply prefix_app_r.
    + right. exists e. split; [done|]. split; [done|].
      simpl. by rewrite last_snoc.
Qed.

(** What a started turn does to the sources of each bucket. *)
Lemma started_sources l rest k start now t :
  pending t = l :: rest →
  let t' := set_pending rest (enter_downloading l k start now t) in
  bucket_sources Pending t' = sources (heap t) rest
  ∧ bucket_sources Downloading t'
    ⊆+ source (heap t l) :: bucket_sources Downloading t
  ∧ bucket_sources Completed t' = bucket_sources Completed t
  ∧ bucket_sources Failed t' = bucket_sources Failed t.
Proof.
  intros Hp t'. unfold bucket_sources. simpl.
  set (l' := fresh (l :: live t)).
  pose proof (fresh_not_in (l :: live t)) as Hfresh. fold l' in Hfresh.
  apply not_elem_of_cons in Hfresh as [Hne Hfresh].
  unfold live in Hfresh. rewrite Hp, !not_elem_of_app in Hfresh.
  destruct Hfresh as (Hnp & Hnd & Hnc & Hnf).
  apply not_elem_of_cons in Hnp as [_ Hnp].
  split; [by apply sources_upd_fresh|].
  split; [|split; by apply sources_upd_fresh].
  unfold sources.
  etrans; [apply dict_set_values|]. cbv beta.
  rewrite upd_eq. simpl. apply submseteq_skip.
  pose proof (sources_upd_fresh (heap t) l'
    (mkTask (source (heap t l)) (Some (default now (added_time (heap t l))))
            (Some start) None None None None)
    (downloading t).*2 Hnd) as Hs.
  unfold sources in Hs. by rewrite Hs.
Qed.

(** What a failed turn does to the sources of each bucket. *)
Lemma failed_sources l rest e t :
  pending t = l :: rest →
  let t' := set_pending rest (enter_failed l e t) in
  bucket_sources Pending t' = sources (heap t) rest
  ∧ bucket_sources Downloading t' = bucket_sources Downloading t
  ∧ bucket_sources Completed t' = bucket_sources Completed t
  ∧ bucket_sources Failed t'
    = bucket_sources Failed t ++ [source (heap t l)].
Proof.
  intros Hp t'. unfold bucket_sources. simpl.
  by rewrite sources_app, !sources_upd_keep.
Qed.

End Dispatch.

(** ** Moves between buckets *)

Lemma NoDup_submseteq {A} (l k : list A) : l ⊆+ k → NoDup k → NoDup l.
Proof.
  induction 1 as [|x l k Hsub IH|x y l|x l k Hsub IH|l k m _ IH1 _ IH2].
  - done.
  - rewrite !NoDup_cons. intros [Hni Hnd]. split; [|by apply IH].
    intros Hin. apply Hni. by eapply elem_of_submseteq.
  - rewrite !NoDup_cons, !not_elem_of_cons. intros ([? ?] & ? & ?). auto.
  - intros [_ Hnd]%NoDup_cons. by apply IH.
  - auto.
Qed.

(** A store whose sources are, bucket by bucket, sources of the store
    before keeps one bucket per task. *)
Lemma one_bucket_submseteq t t' :
  all_sources t' ⊆+ all_sources t → one_bucket_each t → one_bucket_each t'.
Proof. apply NoDup_submseteq. Qed.

(** Sources only stay or move along the path. *)
Lemma comes_from_intro t t' :
  (∀ s, occupies s Pending t' → occupies s Pending t) →
  (∀ s, occupies s Downloading t' →
        occupies s Downloading t ∨ occupies s Pending t) →
  (∀ s, occupies s Completed t' →
        occupies s Completed t ∨ occupies s Downloading t) →
  (∀ s, occupies s Failed t' → occupies s Failed t ∨ occupies s Pending t) →
  comes_from t t'.
Proof.
  intros HP HD HC HF s b' Hb'. unfold forward. destruct b'.
  - exists Pending. split; [by apply HP|by left].
  - destruct (HD s Hb'); [exists Downloading|exists Pending];
      (split; [done|]); [by left|right; simpl; lia].
  - destruct (HC s Hb'); [exists Completed|exists Downloading];
      (split; [done|]); [by left|right; simpl; lia].
  - destruct (HF s Hb'); [exists Failed|exists Pending];
      (split; [done|]); [by left|right; simpl; lia].
Qed.

Section DispatchLoop.
Context {W : Type} (E : Collaborators W).

(** A turn for the head of [pending] keeps one bucket per task and the
    dict well formed, and moves sources forward only. *)
Lemma dispatch_turn_invariants l rest t t' :
  pending t = l :: rest →
  (∃ k start now, t' = set_pending rest (enter_downloading l k start now t))
  ∨ (∃ e, t' = set_pending rest (enter_failed l e t)) →
  all_sources t' ⊆+ all_sources t
  ∧ (dict_ok t → dict_ok t')
  ∧ comes_from t t'.
Proof.
  intros Hp Hturn.
  assert (HP : bucket_sources Pending t
               = source (heap t l) :: sources (heap t) rest).
  { unfold bucket_sources. simpl. by rewrite Hp. }
  destruct Hturn as [(k & start & now & ->)|(e & ->)].
  - destruct (started_sources l rest k start now t Hp)
      as (HP' & HD' & HC' & HF').
    split; [|split].
    + rewrite !all_sources_buckets, HP, HP', HC', HF'. simpl.
      rewrite (Permutation_middle (sources (heap t) rest)).
      apply submseteq_skips_l.
      change (?x :: ?l1 ++ ?l2) with ((x :: l1) ++ l2).
      by apply submseteq_skips_r.
    + unfold dict_ok. simpl. apply dict_set_keys_NoDup.
    + apply comes_from_intro; unfold occupies; intros s.
      * rewrite HP, HP'. by right.
      * intros Hin. eapply elem_of_submseteq in Hin; [|exact HD'].
        rewrite HP. apply elem_of_cons in Hin as [->|Hin];
          [right; by left|by left].
      * rewrite HC'. by left.
      * rewrite HF'. by left.
  - destruct (failed_sources l rest e t Hp) as (HP' & HD' & HC' & HF').
    split; [|split].
    + rewrite !all_sources_buckets, HP, HP', HD', HC', HF'.
      rewrite !app_assoc. rewrite <- Permutation_cons_append.
      simpl. by rewrite Permutation_middle.
    + done.
    + apply comes_from_intro; unfold occupies; intros s.
      * rewrite HP, HP'. by right.
      * rewrite HD'. by left.
      * rewrite HC'. by left.
      * rewrite HF', HP. intros [Hin|Hin]%elem_of_app; [by left|].
        apply list_elem_of_singleton in Hin as ->. right. by left.
Qed.

(** A turn for the head of [pending] leaves the other tasks of [pending],
    [completed] and [failed] as they are. *)
Lemma dispatch_turn_frame l rest t t' x :
  pending t = l :: rest →
  (∃ k start now, t' = set_pending rest (enter_downloading l k start now t))
  ∨ (∃ e, t' = set_pending rest (enter_failed l e t)) →
  x ∈ pending t ++ completed t ++ failed t → x ≠ l →
  heap t' x = heap t x.
Proof.
  intros Hp [(k & start & now & ->)|(e & ->)] Hx Hne; simpl.
  - apply upd_ne. intros ->.
    apply (fresh_not_in (l :: live t)). right.
    unfold live. rewrite !elem_of_app in *. tauto.
  - by apply upd_ne.
Qed.

Lemma dispatch_all_app pre post sv w :
  dispatch_all E (pre ++ post) sv w =
  match dispatch_all E pre sv w with
  | (Normal, sv1, w1) => dispatch_all E post sv1 w1
  | stopped => stopped
  end.
Proof.
  revert sv w. induction pre as [|l pre IH]; intros sv w; simpl; [done|].
  destruct (dispatch E l sv w) as [[[|msg] sv1] w1]; [apply IH|done].
Qed.

(** The loop over a prefix [snap] of [pending]. *)
Lemma dispatch_all_spec snap : ∀ tail sv w,
  pending (tasks sv) = snap ++ tail →
  ∃ sv' w',
    dispatch_all E snap sv w = (Normal, sv', w')
    ∧ pending (tasks sv') = tail
    ∧ completed (tasks sv') = completed (tasks sv)
    ∧ failed (tasks sv) `prefix_of` failed (tasks sv')
    ∧ trace sv `prefix_of` trace sv'
    ∧ (∀ x, x ∈ pending (tasks sv) ++ completed (tasks sv)
                  ++ failed (tasks sv) →
            x ∉ snap → heap (tasks sv') x = heap (tasks sv) x)
    ∧ all_sources (tasks sv') ⊆+ all_sources (tasks sv)
    ∧ (dict_ok (tasks sv) → dict_ok (tasks sv'))
    ∧ comes_from (tasks sv) (tasks sv').
Proof.
  induction snap as [|l rest IH]; intros tail sv w Hp.
  - exists sv, w. simpl. repeat split; try done.
    apply comes_from_refl.
  - simpl in Hp.
    destruct (dispatch_head E l (rest ++ tail) sv w Hp)
      as (sv1 & w1 & Hrun & Htr & Hturn).
    assert (Hturn' :
      (∃ k start now,
          tasks sv1 = set_pending (rest ++ tail)
                        (enter_downloading l k start now (tasks sv)))
      ∨ (∃ e, tasks sv1 = set_pending (rest ++ tail)
                            (enter_failed l e (tasks sv)))).
    { destruct Hturn as [(k & _ & start & now & _ & ->)|(e & _ & -> & _)];
        [left|right]; eauto. }
    destruct (dispatch_turn_invariants l (rest ++ tail) _ _ Hp Hturn')
      as (Hsub1 & Hok1 & Hfrom1).
    assert (Hp1 : pending (tasks sv1) = rest ++ tail).
    { by destruct Hturn' as [(? & ? & ? & ->)|(? & ->)]. }
    assert (Hc1 : completed (tasks sv1) = completed (tasks sv)).
    { by destruct Hturn' as [(? & ? & ? & ->)|(? & ->)]. }
    assert (Hf1 : failed (tasks sv) `prefix_of` failed (tasks sv1)).
    { destruct Hturn' as [(? & ? & ? & ->)|(? & ->)]; simpl;
        [done|by apply prefix_app_r]. }
    destruct (IH tail sv1 w1 Hp1)
      as (sv' & w' & Hrest & Hp' & Hc' & Hf' & Htr' & Hfr' & Hsub' & Hok'
          & Hfrom').
    exists sv', w'. simpl. rewrite Hrun.
    split; [done|]. split; [done|]. split; [congruence|].
    split; [by etrans|]. split; [by etrans|].
    split; [|split; [by etrans|split; [auto|by eapply comes_from_trans]]].
    intros x Hx [Hne Hni]%not_elem_of_cons.
    rewrite Hfr'; [by eapply dispatch_turn_frame| |done].
    rewrite Hp in Hx. simpl in Hx.
    apply elem_of_cons in Hx as [->|Hx]; [done|].
    apply elem_of_app in Hx as [Hx|Hx].
    { apply elem_of_app. left. by rewrite Hp1. }
    apply elem_of_app. right. rewrite Hc1.
    apply elem_of_app in Hx as [Hx|Hx]; apply elem_of_app; [by left|right].
    by eapply elem_of_prefix.
Qed.

End DispatchLoop.

(** ** One turn of [check_downloads] *)

Lemma same_but_refl l h : same_but l h h.
Proof. by split. Qed.

Lemma same_but_trans l h1 h2 h3 :
  same_but l h1 h2 → same_but l h2 h3 → same_but l h1 h3.
Proof.
  intros [H12 Hs12] [H23 Hs23]. split; [|congruence].
  intros x Hx. by rewrite H23, H12.
Qed.

Lemma same_but_upd l h (f : Task → Task) :
  source (f (h l)) = source (h l) → same_but l h (upd h l (f (h l))).
Proof.
  intros Hsrc. split; [intros x Hx; by apply upd_ne|by rewrite upd_eq].
Qed.

Lemma same_but_sources l h h' ls : same_but l h h' → sources h' ls = sources h ls.
Proof.
  intros [Hother Hl]. apply sources_ext. intros x _.
  destruct (decide (x = l)) as [->|Hne]; [done|]. by rewrite Hother.
Qed.

Section CheckTurn.
Context {W : Type} (E : Collaborators W).

(** The entry of the turn is still in the dict, so its deletion succeeds. *)
Lemma complete_entry k l kept rest sv w :
  downloading (tasks sv) = kept ++ (k, l) :: rest → k ∉ kept.*1 →
  complete E k l sv w =
  (save_tasks
     (mkService (set_downloading (kept ++ rest)
                   (enter_completed l (clock E w).1 (tasks sv)))
                (trace sv)),
   (clock E w).2).
Proof.
  intros Hd Hk. unfold complete. destruct (clock E w) as [now w1].
  unfold leave_downloading. simpl. rewrite Hd.
  by rewrite (dict_del_entry k l kept rest Hk).
Qed.

Lemma check_turn_completed k l kept rest t t1 now :
  pending t1 = pending t → failed t1 = failed t →
  completed t1 = completed t → same_but l (heap t) (heap t1) →
  check_turn k l kept rest t
    (set_downloading (kept ++ rest) (enter_completed l now t1)).
Proof.
  intros Hp Hf Hc Hh. repeat split; simpl; try done.
  - intros x Hx. rewrite upd_ne by done. by apply Hh.
  - rewrite upd_eq. simpl. apply Hh.
  - right. by rewrite Hc.
Qed.

Lemma check_one_turn k l kept rest sv w :
  downloading (tasks sv) = kept ++ (k, l) :: rest → k ∉ kept.*1 →
  ∃ sv' w',
    check_one E (k, l) sv w = (sv', w')
    ∧ trace sv `prefix_of` trace sv'
    ∧ check_turn k l kept rest (tasks sv) (tasks sv').
Proof.
  intros Hd Hk. unfold check_one.
  destruct (get_torrent_status E k w) as [[st|e] w1].
  2:{ eexists _, _. split; [done|]. split; [by apply prefix_app_r|].
      repeat split; try done. by left. }
  pose proof (same_but_upd l (heap (tasks sv)) (set_status st) eq_refl)
    as Hst.
  destruct (is_finished st).
  2:{ eexists _, _. split; [done|]. split; [by apply prefix_app_r|].
      repeat split; simpl; try apply Hst; try done. by left. }
  destruct (get_download_path E k w1) as [[[path|]|e] w2].
  - destruct (String.eqb path "").
    + rewrite (complete_entry k l kept rest) by done.
      eexists _, _. split; [done|]. split.
      * simpl. rewrite <- !app_assoc. by apply prefix_app_r.
      * by apply check_turn_completed.
    + unfold upload.
      destruct (if isdir E path w2 then upload_folder E path w2
                else upload_file E path w2) as [[r|e] w3].
      * rewrite (complete_entry k l kept rest)
          by (by destruct (upload_reported_ok r)).
        eexists _, _. split; [done|]. split.
        -- destruct (upload_reported_ok r); simpl;
             rewrite <- !app_assoc; by apply prefix_app_r.
        -- assert (Hh : same_but l (heap (tasks sv))
               (upd (upd (heap (tasks sv)) l (set_status st (heap (tasks sv) l)))
                    l (set_upload_result r
                         (upd (heap (tasks sv)) l
                              (set_status st (heap (tasks sv) l)) l)))).
           { eapply same_but_trans; [exact Hst|]. by apply same_but_upd. }
           destruct (upload_reported_ok r); by apply check_turn_completed.
      * eexists _, _. split; [done|]. split.
        -- simpl. rewrite <- !app_assoc. by apply prefix_app_r.
        -- repeat split; simpl; try apply Hst; try done. by left.
  - rewrite (complete_entry k l kept rest) by done.
    eexists _, _. split; [done|]. split.
    + simpl. rewrite <- !app_assoc. by apply prefix_app_r.
    + by apply check_turn_completed.
  - eexists _, _. split; [done|]. split.
    + simpl. rewrite <- !app_assoc. by apply prefix_app_r.
    + repeat split; simpl; try apply Hst; try done. by left.
Qed.

End CheckTurn.

Section CheckLoop.
Context {W : Type} (E : Collaborators W).

(** A turn keeps one bucket per task and moves sources forward only. *)
Lemma check_turn_invariants k l kept rest t t' :
  downloading t = kept ++ (k, l) :: rest →
  check_turn k l kept rest t t' →
  all_sources t' ⊆+ all_sources t ∧ comes_from t t'.
Proof.
  intros Hd (Hp & Hf & Hh & Hmove).
  assert (Hsrc : ∀ ls, sources (heap t') ls = sources (heap t) ls).
  { intros ls. by eapply same_but_sources. }
  assert (HP : bucket_sources Pending t' = bucket_sources Pending t).
  { unfold bucket_sources. simpl. by rewrite Hp, Hsrc. }
  assert (HF : bucket_sources Failed t' = bucket_sources Failed t).
  { unfold bucket_sources. simpl. by rewrite Hf, Hsrc. }
  destruct Hmove as [[Hd' Hc']|[Hd' Hc']].
  - assert (HD : bucket_sources Downloading t'
                 = bucket_sources Downloading t).
    { unfold bucket_sources. simpl. by rewrite Hd', Hsrc. }
    assert (HC : bucket_sources Completed t' = bucket_sources Completed t).
    { unfold bucket_sources. simpl. by rewrite Hc', Hsrc. }
    split.
    + by rewrite !all_sources_buckets, HP, HD, HC, HF.
    + apply comes_from_intro; unfold occupies; intros s;
        rewrite ?HP, ?HD, ?HC, ?HF; auto.
  - assert (HD : bucket_sources Downloading t
                 = sources (heap t) kept.*2 ++ source (heap t l)
                   :: sources (heap t) rest.*2).
    { unfold bucket_sources. simpl.
      by rewrite Hd, fmap_app, sources_app. }
    assert (HD' : bucket_sources Downloading t'
                  = sources (heap t) kept.*2 ++ sources (heap t) rest.*2).
    { unfold bucket_sources. simpl.
      by rewrite Hd', Hsrc, fmap_app, sources_app. }
    assert (HC : bucket_sources Completed t'
                 = bucket_sources Completed t ++ [source (heap t l)]).
    { unfold bucket_sources. simpl. by rewrite Hc', Hsrc, sources_app. }
    split.
    + rewrite !all_sources_buckets, HP, HD, HD', HC, HF.
      apply submseteq_skips_l. rewrite <- !app_assoc.
      apply submseteq_skips_l. apply Permutation_submseteq.
      simpl. rewrite !app_assoc.
      by rewrite <- (Permutation_middle _ (bucket_sources Failed t)).
    + apply comes_from_intro; unfold occupies; intros s;
        rewrite ?HP, ?HD, ?HD', ?HC, ?HF; auto.
      * intros [?|?]%elem_of_app; left; apply elem_of_app;
          [by left|right; by right].
      * intros [?|Hs]%elem_of_app; [by left|right].
        apply list_elem_of_singleton in Hs as ->.
        apply elem_of_app. right. by left.
Qed.

Lemma check_all_app pre post sv w :
  check_all E (pre ++ post) sv w =
  check_all E post (check_all E pre sv w).1 (check_all E pre sv w).2.
Proof.
  revert sv w. induction pre as [|item pre IH]; intros sv w; simpl; [done|].
  destruct (check_one E item sv w) as [sv1 w1]. apply IH.
Qed.

(** The loop over the entries [items] found between [kept] and [tail] in
    the dict: some stay (in their order), the others move to
    [completed]. *)
Lemma check_all_spec items : ∀ kept tail sv w,
  downloading (tasks sv) = kept ++ items ++ tail →
  NoDup (kept ++ items ++ tail).*1 →
  ∃ sv' w' stay moved,
    check_all E items sv w = (sv', w')
    ∧ downloading (tasks sv') = kept ++ stay ++ tail
    ∧ stay `sublist_of` items
    ∧ completed (tasks sv') = completed (tasks sv) ++ moved
    ∧ (∀ x, x ∈ moved → x ∈ items.*2)
    ∧ pending (tasks sv') = pending (tasks sv)
    ∧ failed (tasks sv') = failed (tasks sv)
    ∧ trace sv `prefix_of` trace sv'
    ∧ (∀ x, x ∉ items.*2 → heap (tasks sv') x = heap (tasks sv) x)
    ∧ all_sources (tasks sv') ⊆+ all_sources (tasks sv)
    ∧ comes_from (tasks sv) (tasks sv').
Proof.
  induction items as [|[k l] rest IH]; intros kept tail sv w Hd Hnd.
  - exists sv, w, [], []. simpl. rewrite !app_nil_r.
    repeat split; try done. apply comes_from_refl.
  - assert (Hk : k ∉ kept.*1).
    { rewrite fmap_app in Hnd. apply NoDup_app in Hnd as (_ & Hdisj & _).
      intros Hin. apply (Hdisj k Hin). by left. }
    simpl in Hd.
    destruct (check_one_turn E k l kept (rest ++ tail) sv w Hd Hk)
      as (sv1 & w1 & Hrun & Htr & Hturn).
    destruct (check_turn_invariants k l kept (rest ++ tail) _ _ Hd Hturn)
      as (Hsub1 & Hfrom1).
    destruct Hturn as (Hp1 & Hf1 & Hh1 & Hmove).
    cbn [check_all]. rewrite Hrun.
    destruct Hmove as [[Hd1 Hc1]|[Hd1 Hc1]].
    + (* the entry stays *)
      destruct (IH (kept ++ [(k, l)]) tail sv1 w1)
        as (sv' & w' & stay & moved & Hrest & Hd' & Hst' & Hc' & Hmv'
            & Hp' & Hf' & Htr' & Hfr' & Hsub' & Hfrom').
      { by rewrite Hd1, Hd, <- app_assoc. }
      { by rewrite <- app_assoc. }
      exists sv', w', ((k, l) :: stay), moved.
      split; [done|]. split; [by rewrite Hd', <- app_assoc|].
      split; [by apply sublist_skip|]. split; [by rewrite Hc', Hc1|].
      split; [intros x Hx; right; by apply Hmv'|].
      split; [congruence|]. split; [congruence|]. split; [by etrans|].
      split; [|split; [by etrans|by eapply comes_from_trans]].
      intros x [Hne Hni]%not_elem_of_cons. rewrite Hfr' by done.
      by apply Hh1.
    + (* the entry moves to [completed] *)
      destruct (IH kept tail sv1 w1)
        as (sv' & w' & stay & moved & Hrest & Hd' & Hst' & Hc' & Hmv'
            & Hp' & Hf' & Htr' & Hfr' & Hsub' & Hfrom').
      { done. }
      { rewrite !fmap_app in *. simpl in Hnd.
        apply NoDup_app in Hnd as (Hn1 & Hdisj & Hn2).
        apply NoDup_cons in Hn2 as [_ Hn2].
        apply NoDup_app. split; [done|]. split; [|done].
        intros x Hx Hx'. apply (Hdisj x Hx). by right. }
      exists sv', w', stay, (l :: moved).
      split; [done|]. split; [done|].
      split; [by apply sublist_cons|].
      split; [by rewrite Hc', Hc1, <- app_assoc|].
      split.
      { intros x [->|Hx]%elem_of_cons; [by left|right; by apply Hmv']. }
      split; [congruence|]. split; [congruence|]. split; [by etrans|].
      split; [|split; [by etrans|by eapply comes_from_trans]].
      intros x [Hne Hni]%not_elem_of_cons. rewrite Hfr' by done.
      by apply Hh1.
Qed.

End CheckLoop.

(** ** The lifecycle operations *)

Section Lifecycle.
Context {W : Type} (E : Collaborators W).

(** [process_pending_tasks] always runs to its end: no exception leaves
    it, and [pending] is empty afterwards. *)
Lemma process_pending_tasks_spec sv w :
  ∃ sv' w',
    process_pending_tasks E sv w = (Normal, sv', w')
    ∧ pending (tasks sv') = []
    ∧ completed (tasks sv') = completed (tasks sv)
    ∧ failed (tasks sv) `prefix_of` failed (tasks sv')
    ∧ trace sv `prefix_of` trace sv'
    ∧ all_sources (tasks sv') ⊆+ all_sources (tasks sv)
    ∧ (dict_ok (tasks sv) → dict_ok (tasks sv'))
    ∧ comes_from (tasks sv) (tasks sv').
Proof.
  unfold process_pending_tasks.
  destruct (pending (tasks sv)) as [|l rest] eqn:Hp.
  - exists sv, w. repeat split; try done. apply comes_from_refl.
  - destruct (dispatch_all_spec E (l :: rest) [] sv w)
      as (sv' & w' & Hrun & Hp' & Hc' & Hf' & Htr' & _ & Hsub' & Hok'
          & Hfrom').
    { by rewrite app_nil_r. }
    exists sv', w'. by rewrite Hrun.
Qed.

Lemma dict_ok_sublist (d d' : list (string * loc)) :
  d' `sublist_of` d → NoDup d.*1 → NoDup d'.*1.
Proof.
  intros Hsub Hnd. eapply sublist_NoDup; [exact Hnd|].
  by apply fmap_sublist.
Qed.

Lemma check_downloads_spec sv w :
  dict_ok (tasks sv) →
  ∃ sv' w',
    check_downloads E sv w = (sv', w')
    ∧ pending (tasks sv') = pending (tasks sv)
    ∧ failed (tasks sv') = failed (tasks sv)
    ∧ completed (tasks sv) `prefix_of` completed (tasks sv')
    ∧ downloading (tasks sv') `sublist_of` downloading (tasks sv)
    ∧ trace sv `prefix_of` trace sv'
    ∧ all_sources (tasks sv') ⊆+ all_sources (tasks sv)
    ∧ dict_ok (tasks sv')
    ∧ comes_from (tasks sv) (tasks sv').
Proof.
  intros Hok. unfold check_downloads.
  destruct (downloading (tasks sv)) as [|item rest] eqn:Hd.
  - exists sv, w. rewrite Hd. repeat split; try done.
    apply comes_from_refl.
  - destruct (check_all_spec E (item :: rest) [] [] sv w)
      as (sv' & w' & stay & moved & Hrun & Hd' & Hst' & Hc' & _ & Hp'
          & Hf' & Htr' & _ & Hsub' & Hfrom');
      [by rewrite app_nil_r|by rewrite app_nil_r, <- Hd|].
    exists sv', w'. rewrite Hrun. simpl in Hd'. rewrite app_nil_r in Hd'.
    rewrite Hd'.
    repeat split; try done.
    + rewrite Hc'. by apply prefix_app_r.
    + unfold dict_ok. rewrite Hd'. eapply dict_ok_sublist; [exact Hst'|].
      by rewrite <- Hd.
Qed.

End Lifecycle.

(** C2. Each operation of the lifecycle keeps every task in exactly one
    bucket, and a task that is in the store before and after the operation
    has stayed in its bucket or moved forward on the path Pending,
    Downloading, then Completed or Failed. *)
Theorem lifecycle_one_bucket_forward_only {W} (E : Collaborators W)
    (op : Op) sv w :
  dict_ok (tasks sv) →
  one_bucket_each (tasks sv) →
  one_bucket_each (tasks (run_op E op sv w).1)
  ∧ dict_ok (tasks (run_op E op sv w).1)
  ∧ ∀ s b b',
      occupies s b (tasks sv) →
      occupies s b' (tasks (run_op E op sv w).1) →
      forward b b'.
Proof.
  intros Hok Hone. destruct op as [s| |]; simpl.
  - destruct (task_exists s (tasks sv)) eqn:Hex.
    + rewrite add_task_duplicate by done. simpl.
      split; [done|]. split; [done|].
      intros s0 b b' Hb Hb'.
      rewrite (one_bucket_unique s0 b b' _ Hone Hb Hb'). apply forward_refl.
    + destruct (add_task_accepted E s sv w Hex)
        as (sv1 & w1 & Hadd & Hpend & Hothers & Hd).
      pose proof (add_task_accepted_sources s sv sv1 Hpend Hothers) as Hperm.
      assert (Hnew : s ∉ all_sources (tasks sv)).
      { intros Hin%elem_of_all_sources%task_exists_spec. congruence. }
      rewrite Hadd. simpl. split; [|split].
      * unfold one_bucket_each. rewrite Hperm. by apply NoDup_cons.
      * unfold dict_ok. by rewrite Hd.
      * intros s0 b b' Hb Hb'.
        assert (Hb0 : occupies s0 b' (tasks sv)).
        { unfold occupies in *. destruct (decide (b' = Pending)) as [->|Hne].
          - rewrite Hpend in Hb'. apply elem_of_app in Hb' as [?|Hs]; [done|].
            apply list_elem_of_singleton in Hs as ->. exfalso.
            apply Hnew, elem_of_all_sources. by exists b.
          - by rewrite <- Hothers. }
        rewrite (one_bucket_unique s0 b b' _ Hone Hb Hb0). apply forward_refl.
  - destruct (process_pending_tasks_spec E sv w)
      as (sv' & w' & Hrun & _ & _ & _ & _ & Hsub & Hok' & Hfrom).
    rewrite Hrun. simpl. split; [by eapply one_bucket_submseteq|].
    split; [auto|]. intros s b b'. by apply comes_from_forward.
  - destruct (check_downloads_spec E sv w Hok)
      as (sv' & w' & Hrun & _ & _ & _ & _ & _ & Hsub & Hok' & Hfrom).
    rewrite Hrun. simpl. split; [by eapply one_bucket_submseteq|].
    split; [done|]. intros s b b'. by apply comes_from_forward.
Qed.

(** The dict assignment of a started turn replaces the entry of an info
    hash that is already a key: when the download client gives two sources
    the same info hash, the task dispatched first is no longer in the store
    after the second turn. *)
Example same_info_hash_replaces_entry :
  all_sources
    (tasks (run_op Demo.same_torrent ProcessPendingTasks Demo.two_pending 0).1)
  = ["magnet:?xt=urn:btih:show"].
Proof. reflexivity. Qed.


(** ** A single entry in the loop of [check_downloads] *)

Section CheckEntry.
Context {W : Type} (E : Collaborators W).

Lemma check_downloads_split pre item post sv w :
  downloading (tasks sv) = pre ++ item :: post →
  check_downloads E sv w =
  check_all E post
    (check_one E item (check_all E pre sv w).1 (check_all E pre sv w).2).1
    (check_one E item (check_all E pre sv w).1 (check_all E pre sv w).2).2.
Proof.
  intros Hd. unfold check_downloads. rewrite Hd.
  assert (Hall : check_all E (pre ++ item :: post) sv w =
    check_all E post
      (check_one E item (check_all E pre sv w).1 (check_all E pre sv w).2).1
      (check_one E item (check_all E pre sv w).1
         (check_all E pre sv w).2).2).
  { rewrite check_all_app. cbn [check_all].
    by destruct (check_one E item _ _). }
  by destruct pre.
Qed.

(** The object of an entry of [downloading] is referenced nowhere else. *)
Lemma entry_not_aliased pre k l post t :
  no_alias t → downloading t = pre ++ (k, l) :: post →
  (l ∉ pre.*2) ∧ (l ∉ post.*2) ∧ (l ∉ completed t) ∧ (l ∉ failed t).
Proof.
  unfold no_alias, live. intros Hnd Hd. rewrite Hd in Hnd.
  apply NoDup_app in Hnd as (_ & _ & Hnd).
  apply NoDup_app in Hnd as (Hnd & Hdisj & _).
  rewrite fmap_app in Hnd, Hdisj. simpl in Hnd, Hdisj.
  apply NoDup_app in Hnd as (_ & Hpre & Hnd).
  apply NoDup_cons in Hnd as [Hpost _].
  assert (Hl : l ∈ pre.*2 ++ l :: post.*2).
  { apply elem_of_app. right. by left. }
  specialize (Hdisj l Hl). apply not_elem_of_app in Hdisj as [? ?].
  repeat split; try done.
  intros Hin. apply (Hpre l Hin). by left.
Qed.

(** The loop around one entry: what the turns before and after it leave
    of the entry and of what its own turn did. *)
Lemma check_all_around pre k l post sv w :
  dict_ok (tasks sv) → no_alias (tasks sv) →
  downloading (tasks sv) = pre ++ (k, l) :: post →
  ∃ sv1 w1 kept,
    check_all E pre sv w = (sv1, w1)
    ∧ downloading (tasks sv1) = kept ++ (k, l) :: post
    ∧ (k ∉ kept.*1)
    ∧ (l ∉ kept.*2)
    ∧ heap (tasks sv1) l = heap (tasks sv) l
    ∧ (l ∉ completed (tasks sv1))
    ∧ failed (tasks sv1) = failed (tasks sv)
    ∧ ∀ sv2 w2 kept2,
        downloading (tasks sv2) = kept ++ kept2 ++ post →
        kept2 `sublist_of` [(k, l)] →
        ∃ sv' w' stay,
          check_all E post sv2 w2 = (sv', w')
          ∧ downloading (tasks sv') = kept ++ kept2 ++ stay
          ∧ (∀ k', (k', l) ∉ stay)
          ∧ (k ∉ stay.*1)
          ∧ heap (tasks sv') l = heap (tasks sv2) l
          ∧ completed (tasks sv2) `prefix_of` completed (tasks sv')
          ∧ (l ∈ completed (tasks sv') → l ∈ completed (tasks sv2))
          ∧ failed (tasks sv') = failed (tasks sv2)
          ∧ trace sv2 `prefix_of` trace sv'.
Proof.
  intros Hok Hna Hd.
  destruct (entry_not_aliased pre k l post _ Hna Hd)
    as (Hlpre & Hlpost & Hlc & Hlf).
  unfold dict_ok in Hok. rewrite Hd in Hok.
  destruct (check_all_spec E pre [] ((k, l) :: post) sv w)
    as (sv1 & w1 & kept & moved1 & Hrun1 & Hd1 & Hst1 & Hc1 & Hmv1 & _
        & Hf1 & _ & Hfr1 & _ & _); [done|done|].
  simpl in Hd1.
  assert (Hok1 : NoDup (kept ++ (k, l) :: post).*1).
  { eapply dict_ok_sublist; [|exact Hok].
    by apply sublist_app. }
  assert (Hk : k ∉ kept.*1).
  { rewrite fmap_app in Hok1. apply NoDup_app in Hok1 as (_ & Hdisj & _).
    intros Hin. apply (Hdisj k Hin). by left. }
  assert (Hkpost : k ∉ post.*1).
  { rewrite fmap_app in Hok1. apply NoDup_app in Hok1 as (_ & _ & Hn).
    simpl in Hn. by apply NoDup_cons in Hn as [? _]. }
  exists sv1, w1, kept. split; [done|]. split; [done|]. split; [done|].
  split.
  { intros Hin. apply Hlpre. eapply elem_of_sublist; [exact Hin|].
    by apply fmap_sublist. }
  split; [by apply Hfr1|]. split.
  { rewrite Hc1. apply not_elem_of_app. split; [done|].
    intros Hin. by apply Hlpre, Hmv1. }
  split; [done|].
  intros sv2 w2 kept2 Hd2 Hsub2.
  destruct (check_all_spec E post (kept ++ kept2) [] sv2 w2)
    as (sv' & w' & stay & moved & Hrun & Hd' & Hst' & Hc' & Hmv' & _
        & Hf' & Htr' & Hfr' & _ & _).
  { by rewrite app_nil_r, <- app_assoc. }
  { rewrite app_nil_r, <- app_assoc.
    eapply dict_ok_sublist; [|exact Hok1].
    apply sublist_app; [done|].
    change ((k, l) :: post) with ([(k, l)] ++ post).
    by apply sublist_app. }
  exists sv', w', stay. split; [done|].
  split; [by rewrite Hd', app_nil_r, <- app_assoc|].
  split.
  { intros k' Hin. apply Hlpost. apply list_elem_of_fmap.
    exists (k', l). split; [done|]. by eapply elem_of_sublist. }
  split.
  { intros Hin. apply Hkpost.
    eapply elem_of_sublist; [exact Hin|]. by apply fmap_sublist. }
  split; [by apply Hfr'|].
  split; [rewrite Hc'; by apply prefix_app_r|].
  split; [|done].
  rewrite Hc'. intros [Hin|Hin]%elem_of_app; [done|].
  exfalso. by apply Hlpost, Hmv'.
Qed.

End CheckEntry.

(** C7. When the poll of a downloading task raises, at its turn of
    [check_downloads], the task stays in [downloading] under its info hash,
    untouched; it is in neither [completed] nor [failed], so the next tick
    polls it again. *)
Theorem poll_error_keeps_task_downloading {W} (E : Collaborators W)
    sv w pre k l post sv1 w1 e w2 :
  dict_ok (tasks sv) →
  no_alias (tasks sv) →
  downloading (tasks sv) = pre ++ (k, l) :: post →
  check_all E pre sv w = (sv1, w1) →
  get_torrent_status E k w1 = (Raise e, w2) →
  ∃ sv' w',
    check_downloads E sv w = (sv', w')
    ∧ (k, l) ∈ downloading (tasks sv')
    ∧ (l ∉ completed (tasks sv'))
    ∧ (l ∉ failed (tasks sv'))
    ∧ heap (tasks sv') l = heap (tasks sv) l
    ∧ Logged Error (ErrorCheckingDownload k e) ∈ trace sv'.
Proof.
  intros Hok Hna Hd Hpre Hraise.
  destruct (entry_not_aliased pre k l post _ Hna Hd) as (_ & _ & _ & Hlf).
  destruct (check_all_around E pre k l post sv w Hok Hna Hd)
    as (sv1' & w1' & kept & Hrun1 & Hd1 & Hk & _ & Hh1 & Hc1 & Hf1 & Hafter).
  rewrite Hrun1 in Hpre. injection Hpre as <- <-.
  assert (Hturn : check_one E (k, l) sv1' w1'
                  = (log Error (ErrorCheckingDownload k e) sv1', w2)).
  { unfold check_one. by rewrite Hraise. }
  destruct (Hafter (log Error (ErrorCheckingDownload k e) sv1') w2 [(k, l)])
    as (sv' & w' & stay & Hrun3 & Hd3 & _ & _ & Hh3 & _ & Hc3 & Hf3 & Htr3);
    [done|done|].
  exists sv', w'. split.
  { rewrite (check_downloads_split E pre (k, l) post) by done.
    rewrite Hrun1. cbn [fst snd]. by rewrite Hturn. }
  split; [|split; [|split; [|split]]].
  - rewrite Hd3, !elem_of_app. right. left. by left.
  - intros Hin. by apply Hc1, Hc3.
  - rewrite Hf3. simpl. by rewrite Hf1.
  - by rewrite Hh3.
  - eapply elem_of_prefix; [|exact Htr3]. simpl.
    apply elem_of_app. right. by left.
Qed.

(** X23. When the poll of a downloading task reports it finished, its
    artifact path resolves and the upload call returns a result [r], the
    task ends in [completed], stamped with a completion time and carrying
    [r] as its ['upload_result'], whether or not [r] has the key ['error']:
    the task is in neither [downloading] nor [failed]. In the service as
    [main.py] builds it the upload call of a file can return; that of a
    directory raises. *)
Theorem finished_download_is_completed {W} (E : Collaborators W)
    sv w pre k l post sv1 w1 st w2 path w3 r w4 :
  dict_ok (tasks sv) →
  no_alias (tasks sv) →
  downloading (tasks sv) = pre ++ (k, l) :: post →
  check_all E pre sv w = (sv1, w1) →
  get_torrent_status E k w1 = (Return st, w2) →
  is_finished st = true →
  get_download_path E k w2 = (Return (Some path), w3) →
  path ≠ "" →
  (if isdir E path w3 then upload_folder E path w3
   else upload_file E path w3) = (Return r, w4) →
  ∃ sv' w',
    check_downloads E sv w = (sv', w')
    ∧ l ∈ completed (tasks sv')
    ∧ (l ∉ failed (tasks sv'))
    ∧ (l ∉ (downloading (tasks sv')).*2)
    ∧ (k ∉ (downloading (tasks sv')).*1)
    ∧ heap (tasks sv') l
      = set_complete_time (clock E w4).1
          (set_upload_result r (set_status st (heap (tasks sv) l)))
    ∧ complete_time (heap (tasks sv') l) = Some (clock E w4).1
    ∧ upload_result (heap (tasks sv') l) = Some r.
Proof.
  intros Hok Hna Hd Hpre Hpoll Hfin Hpath Hne Hup.
  destruct (entry_not_aliased pre k l post _ Hna Hd)
    as (Hlpre & _ & _ & Hlf).
  destruct (check_all_around E pre k l post sv w Hok Hna Hd)
    as (sv1' & w1' & kept & Hrun1 & Hd1 & Hk & Hlkept & Hh1 & Hc1 & Hf1
        & Hafter).
  rewrite Hrun1 in Hpre. injection Hpre as <- <-.
  set (now := (clock E w4).1).
  (* the turn of the entry *)
  assert (Hturn : ∃ sv2,
    check_one E (k, l) sv1' w1' = (sv2, (clock E w4).2)
    ∧ downloading (tasks sv2) = kept ++ [] ++ post
    ∧ completed (tasks sv2) = completed (tasks sv1') ++ [l]
    ∧ failed (tasks sv2) = failed (tasks sv1')
    ∧ heap (tasks sv2) l
      = set_complete_time now
          (set_upload_result r (set_status st (heap (tasks sv1') l)))).
  { unfold check_one. rewrite Hpoll, Hfin, Hpath.
    apply String.eqb_neq in Hne as ->. unfold upload. rewrite Hup.
    rewrite (complete_entry E k l kept post)
      by (by destruct (upload_reported_ok r)).
    eexists. split; [done|].
    destruct (upload_reported_ok r); simpl; by rewrite !upd_eq. }
  destruct Hturn as (sv2 & Hturn & Hd2 & Hc2 & Hf2 & Hh2).
  destruct (Hafter sv2 (clock E w4).2 [])
    as (sv' & w' & stay & Hrun3 & Hd3 & Hstay & Hkstay & Hh3 & Hc3 & _ & Hf3
        & _); [done|apply sublist_nil_l|].
  exists sv', w'. split.
  { rewrite (check_downloads_split E pre (k, l) post) by done.
    rewrite Hrun1. cbn [fst snd]. by rewrite Hturn. }
  assert (Hfinal : heap (tasks sv') l
    = set_complete_time now
        (set_upload_result r (set_status st (heap (tasks sv) l)))).
  { by rewrite Hh3, Hh2, Hh1. }
  split; [|split; [|split; [|split; [|split; [done|]]]]].
  - eapply elem_of_prefix; [|exact Hc3]. rewrite Hc2.
    apply elem_of_app. right. by left.
  - by rewrite Hf3, Hf2, Hf1.
  - rewrite Hd3. simpl. rewrite fmap_app.
    apply not_elem_of_app. split; [done|].
    intros Hin. apply list_elem_of_fmap in Hin as ([k' l'] & -> & Hin).
    by apply (Hstay k').
  - rewrite Hd3. simpl. rewrite fmap_app.
    by apply not_elem_of_app.
  - by rewrite Hfinal.
Qed.

(** ** The chunked upload *)

Section ChunkedUpload.
Import OneDriveUploader.
Local Open Scope Z_scope.

Variables (file_name : string) (file_size : Z) (upload_url : pyval).
Variable reply : nat → Result Response.

Lemma status_202 r :
  status_code r = 202 →
  status_in [200; 201; 202] r = true ∧ status_in [200; 201] r = false.
Proof. unfold status_in. intros ->. done. Qed.

(** While every chunk but the last of [seq a n] is answered 202, the loop
    issues the PUT of every chunk of [seq a n], in order. *)
Lemma put_chunks_issued n : ∀ a,
  (∀ i, (a ≤ i)%nat → (S i < a + n)%nat →
        ∃ r, reply i = Return r ∧ status_code r = 202) →
  (put_chunks file_name file_size upload_url reply (seq a n)).1
  = chunk_put file_size upload_url <$> seq a n.
Proof.
  induction n as [|n IH]; intros a H202; [done|].
  cbn [seq put_chunks fmap list_fmap].
  destruct n as [|n].
  - (* the last chunk: whatever the answer, its PUT is the last one *)
    cbn [seq put_chunks fmap list_fmap].
    destruct (reply a) as [r|e]; [|done].
    destruct (status_in [200; 201; 202] r); [|done].
    by destruct (status_in [200; 201] r).
  - destruct (H202 a) as (r & -> & Hr); [lia|lia|].
    destruct (status_202 r Hr) as [-> ->].
    specialize (IH (S a)).
    destruct (put_chunks file_name file_size upload_url reply (seq (S a) (S n)))
      as [puts out].
    simpl in IH. cbn [fst]. f_equal. apply IH.
    intros i Hi1 Hi2. apply H202; lia.
Qed.

(** While every chunk of the list is answered 202, the loop runs to its
    end. *)
Lemma put_chunks_exhausted chunks :
  (∀ i, i ∈ chunks → ∃ r, reply i = Return r ∧ status_code r = 202) →
  (put_chunks file_name file_size upload_url reply chunks).2 = None.
Proof.
  induction chunks as [|c chunks IH]; intros H202; [done|].
  cbn [put_chunks].
  destruct (H202 c) as (r & -> & Hr); [by left|].
  destruct (status_202 r Hr) as [-> ->].
  destruct (put_chunks file_name file_size upload_url reply chunks)
    as [puts out].
  simpl in *. apply IH. intros i Hi. apply H202. by right.
Qed.

(** The ranges of consecutive chunks tile the file. *)
Lemma chunk_puts_tile n : ∀ a,
  (0 < n)%nat →
  (Z.of_nat a + Z.of_nat n - 1) * chunk_size < file_size →
  file_size ≤ (Z.of_nat a + Z.of_nat n) * chunk_size →
  tiles (Z.of_nat a * chunk_size)
        (chunk_put file_size upload_url <$> seq a n) file_size.
Proof.
  assert (HC : chunk_size = 10485760) by reflexivity.
  induction n as [|n IH]; intros a Hn Hlo Hhi; [lia|].
  cbn [seq fmap list_fmap tiles chunk_put range_start range_end].
  split; [done|]. split; [lia|].
  destruct n as [|n].
  - simpl. lia.
  - replace (Z.min file_size (Z.of_nat a * chunk_size + chunk_size) - 1 + 1)
      with (Z.of_nat (S a) * chunk_size) by lia.
    apply IH; lia.
Qed.

End ChunkedUpload.

Lemma total_chunks_ceil (file_size : Z) :
  (0 < file_size)%Z →
  let n := Z.to_nat ((file_size + OneDriveUploader.chunk_size - 1)
                     / OneDriveUploader.chunk_size) in
  (0 < n)%nat
  ∧ ((Z.of_nat n - 1) * OneDriveUploader.chunk_size < file_size)%Z
  ∧ (file_size ≤ Z.of_nat n * OneDriveUploader.chunk_size)%Z.
Proof.
  intros Hpos n.
  assert (HC : OneDriveUploader.chunk_size = 10485760%Z) by reflexivity.
  pose proof (Z.div_mod (file_size + OneDriveUploader.chunk_size - 1)
                OneDriveUploader.chunk_size) as Hdm.
  pose proof (Z.mod_pos_bound (file_size + OneDriveUploader.chunk_size - 1)
                OneDriveUploader.chunk_size) as Hmod.
  subst n. rewrite HC in *.
  set (q := ((file_size + 10485760 - 1) / 10485760)%Z) in *.
  assert (0 < q)%Z by lia.
  rewrite Z2Nat.id by lia. lia.
Qed.

(** C3. For a file of size [F > 0], with every chunk that is not the last
    answered 202, the chunked upload issues [N] PUTs, where [N] is the
    ceiling of [F / chunk_size]; their byte ranges tile the bytes [0] to
    [F - 1] in increasing order, without gap or overlap, and the last one
    has length [F - (N - 1) * chunk_size]. *)
Theorem chunked_upload_ranges_tile_file
    (file_name : string) (F : Z) (session : OneDriveUploader.Response)
    (upload_url : pyval) (reply : nat → Result OneDriveUploader.Response) :
  (0 < F)%Z →
  OneDriveUploader.status_code session = 200%Z →
  dict_get "uploadUrl" (OneDriveUploader.json session) = Some upload_url →
  (∀ n, ((Z.of_nat n + 1) * OneDriveUploader.chunk_size < F)%Z →
        ∃ r, reply n = Return r
             ∧ OneDriveUploader.status_code r = 202%Z) →
  ∃ N : nat,
    ((Z.of_nat N - 1) * OneDriveUploader.chunk_size < F)%Z
    ∧ (F ≤ Z.of_nat N * OneDriveUploader.chunk_size)%Z
    ∧ length (OneDriveUploader._chunked_upload
                file_name F (Return session) reply).1 = N
    ∧ OneDriveUploader.tiles 0
        (OneDriveUploader._chunked_upload file_name F (Return session) reply).1
        F
    ∧ (∃ p, last (OneDriveUploader._chunked_upload
                    file_name F (Return session) reply).1 = Some p
            ∧ OneDriveUploader.content_length p
              = (F - (Z.of_nat N - 1) * OneDriveUploader.chunk_size)%Z)
    ∧ (∀ p, p ∈ (OneDriveUploader._chunked_upload
                   file_name F (Return session) reply).1 →
            OneDriveUploader.range_total p = F
            ∧ OneDriveUploader.content_length p
              = (OneDriveUploader.range_end p
                 - OneDriveUploader.range_start p + 1)%Z).
Proof.
  intros Hpos Hsession Hurl H202.
  destruct (total_chunks_ceil F Hpos) as (Hn & Hlo & Hhi).
  set (N := Z.to_nat ((F + OneDriveUploader.chunk_size - 1)
                      / OneDriveUploader.chunk_size)) in *.
  assert (HC : OneDriveUploader.chunk_size = 10485760%Z) by reflexivity.
  assert (Hputs :
    (OneDriveUploader._chunked_upload file_name F (Return session) reply).1
    = OneDriveUploader.chunk_put F upload_url <$> seq 0 N).
  { unfold OneDriveUploader._chunked_upload. rewrite Hsession, Hurl. simpl.
    fold N.
    pose proof (put_chunks_issued file_name F upload_url reply N 0) as Hiss.
    destruct (OneDriveUploader.put_chunks file_name F upload_url reply
                (seq 0 N)) as [puts out].
    simpl in *. apply Hiss. intros i _ Hi. apply H202. lia. }
  exists N. rewrite Hputs.
  split; [done|]. split; [done|].
  split; [by rewrite length_fmap, length_seq|].
  split; [|split].
  - apply (chunk_puts_tile F upload_url N 0); [done|lia|lia].
  - destruct N as [|N']; [lia|].
    exists (OneDriveUploader.chunk_put F upload_url N'). split.
    + rewrite seq_S, fmap_app. simpl. by rewrite last_snoc.
    + simpl. lia.
  - intros p (i & -> & _)%list_elem_of_fmap. by simpl.
Qed.

(** C8. When the upload session is created and every chunk PUT of the loop
    is answered 202, the loop runs out of chunks and [_chunked_upload] returns the
    error dict of the missing confirmation, which the caller's test reads
    as a failed upload. *)
Theorem chunked_upload_without_confirmation
    (file_name : string) (F : Z) (session : OneDriveUploader.Response)
    (upload_url : pyval) (reply : nat → Result OneDriveUploader.Response) :
  OneDriveUploader.status_code session = 200%Z →
  dict_get "uploadUrl" (OneDriveUploader.json session) = Some upload_url →
  (∀ n, (Z.of_nat n * OneDriveUploader.chunk_size < F)%Z →
        ∃ r, reply n = Return r
             ∧ OneDriveUploader.status_code r = 202%Z) →
  (OneDriveUploader._chunked_upload file_name F (Return session) reply).2
  = Return [("error", PStr "Upload completed but no confirmation received")]
  ∧ upload_reported_ok OneDriveUploader.no_confirmation = false.
Proof.
  intros Hsession Hurl H202. split; [|done].
  unfold OneDriveUploader._chunked_upload. rewrite Hsession, Hurl. simpl.
  pose proof (put_chunks_exhausted file_name F upload_url reply
                (seq 0 (Z.to_nat ((F + OneDriveUploader.chunk_size - 1)
                                  / OneDriveUploader.chunk_size)))) as Hex.
  destruct (OneDriveUploader.put_chunks _ _ _ _ _) as [puts out].
  simpl in *. rewrite Hex; [done|].
  intros i Hi%elem_of_seq. apply H202.
  assert (HC : OneDriveUploader.chunk_size = 10485760%Z) by reflexivity.
  pose proof (Z.div_mod (F + OneDriveUploader.chunk_size - 1)
                OneDriveUploader.chunk_size) as Hdm.
  pose proof (Z.mod_pos_bound (F + OneDriveUploader.chunk_size - 1)
                OneDriveUploader.chunk_size) as Hmod.
  rewrite HC in *. lia.
Qed.

(** ** The download adapters *)

(** The libtorrent adapter answers [None] while the metadata is missing. *)
Lemma libtorrent_path_needs_metadata self info_hash handle :
  dict_get info_hash (Libtorrent.handles self) = Some handle →
  Libtorrent.get_download_path self info_hash
  = if Libtorrent.has_metadata handle
    then Some (path_join (Libtorrent.download_dir self)
                         (Libtorrent.name handle))
    else None.
Proof.
  intros Hh. unfold Libtorrent.get_download_path. rewrite Hh.
  destruct (Libtorrent.has_metadata handle); simpl; [|done].
  by destruct (Nat.eqb _ _).
Qed.

(** C5. [get_download_path] is to answer [None] while the metadata of a
    known transfer is not available. The Transmission adapter never looks at
    the metadata: for a known transfer it answers the path made of the
    download directory and the torrent name also then, where the libtorrent
    adapter has [None]. *)
Theorem transmission_path_ignores_metadata self info_hash torrent_id torrent :
  dict_get info_hash (Transmission.handles self) = Some torrent_id →
  Transmission.get_torrent self torrent_id = Return torrent →
  Transmission.metadata_complete torrent = false →
  Transmission.get_download_path self info_hash
  = Return (Some (path_join (Transmission.download_dir self)
                            (Transmission.name torrent))).
Proof.
  intros Hh Ht _. unfold Transmission.get_download_path. rewrite Hh, Ht.
  by destruct (Nat.eqb _ _).
Qed.

(** ** The service on the scripted world *)

(** Settles a decidable closed proposition by evaluation. *)
Ltac decide_now :=
  match goal with
  | |- ?P => apply (@bool_decide_unpack P _); vm_compute; exact I
  end.

Lemma add_task_idempotent_by_source_witness :
  (add_task Demo.world "m1" (Demo.one_pending "m1") 0).1.1 = false
  ∧ ∃ sv1 w1 sv2 w2,
      add_task Demo.world "m1" Demo.no_tasks 0 = (true, sv1, w1)
      ∧ add_task Demo.world "m1" sv1 w1 = (false, sv2, w2)
      ∧ count_source "m1" (tasks sv2) = 1.
Proof.
  split.
  - apply (proj1 (add_task_idempotent_by_source Demo.world "m1"
                    (Demo.one_pending "m1") 0)).
    exists Pending. unfold occupies. decide_now.
  - apply (proj2 (add_task_idempotent_by_source Demo.world "m1"
                    Demo.no_tasks 0)).
    intros b. unfold occupies. destruct b; decide_now.
Defined.

Lemma add_task_duplicate_leaves_store_witness :
  (∃ b, occupies "m1" b (tasks (Demo.one_pending "m1")))
  ∧ ∃ sv1,
      add_task Demo.world "m1" (Demo.one_pending "m1") 0 = (false, sv1, 0)
      ∧ tasks sv1 = tasks (Demo.one_pending "m1")
      ∧ trace sv1 = trace (Demo.one_pending "m1")
                    ++ [Logged Warning (TaskAlreadyExists "m1")]
      ∧ (∀ snap, Saved snap ∈ trace sv1 →
                 Saved snap ∈ trace (Demo.one_pending "m1")).
Proof.
  assert (H : ∃ b, occupies "m1" b (tasks (Demo.one_pending "m1"))).
  { exists Pending. unfold occupies. decide_now. }
  split; [exact H|].
  exact (add_task_duplicate_leaves_store Demo.world "m1"
           (Demo.one_pending "m1") 0 H).
Defined.

Lemma lifecycle_one_bucket_forward_only_witness :
  dict_ok (tasks Demo.three_pending)
  ∧ one_bucket_each (tasks Demo.three_pending)
  ∧ one_bucket_each
      (tasks (run_op Demo.world ProcessPendingTasks Demo.three_pending 0).1)
  ∧ dict_ok
      (tasks (run_op Demo.world ProcessPendingTasks Demo.three_pending 0).1)
  ∧ ∀ s b b',
      occupies s b (tasks Demo.three_pending) →
      occupies s b'
        (tasks (run_op Demo.world ProcessPendingTasks Demo.three_pending 0).1) →
      forward b b'.
Proof.
  assert (H1 : dict_ok (tasks Demo.three_pending)).
  { unfold dict_ok. decide_now. }
  assert (H2 : one_bucket_each (tasks Demo.three_pending)).
  { unfold one_bucket_each. decide_now. }
  split; [exact H1|]. split; [exact H2|].
  exact (lifecycle_one_bucket_forward_only Demo.world ProcessPendingTasks
           Demo.three_pending 0 H1 H2).
Defined.


Lemma poll_error_keeps_task_downloading_witness :
  ∃ sv' w',
    check_downloads Demo.world Demo.three_downloading 0 = (sv', w')
    ∧ ("hash:stalled", 1) ∈ downloading (tasks sv')
    ∧ (1 ∉ completed (tasks sv'))
    ∧ (1 ∉ failed (tasks sv'))
    ∧ heap (tasks sv') 1 = Demo.blank "magnet:?xt=urn:btih:stalled"
    ∧ Logged Error (ErrorCheckingDownload "hash:stalled" "timed out")
      ∈ trace sv'.
Proof.
  apply (poll_error_keeps_task_downloading Demo.world Demo.three_downloading 0
           [("hash:first", 0)] "hash:stalled" 1 [("hash:last", 2)]
           (check_all Demo.world [("hash:first", 0)] Demo.three_downloading 0).1
           (check_all Demo.world [("hash:first", 0)] Demo.three_downloading 0).2
           "timed out"
           (S (check_all Demo.world [("hash:first", 0)]
                 Demo.three_downloading 0).2)).
  - unfold dict_ok. decide_now.
  - unfold no_alias. decide_now.
  - reflexivity.
  - reflexivity.
  - reflexivity.
Defined.

Lemma finished_download_is_completed_witness :
  upload_reported_ok Demo.chunk_error = false
  ∧ ∃ sv' w',
      check_downloads Demo.world Demo.three_downloading 0 = (sv', w')
      ∧ 0 ∈ completed (tasks sv')
      ∧ (0 ∉ failed (tasks sv'))
      ∧ (0 ∉ (downloading (tasks sv')).*2)
      ∧ ("hash:first" ∉ (downloading (tasks sv')).*1)
      ∧ heap (tasks sv') 0
        = set_complete_time 2%Z
            (set_upload_result Demo.chunk_error
               (set_status Demo.finished (Demo.blank "first.torrent")))
      ∧ complete_time (heap (tasks sv') 0) = Some 2%Z
      ∧ upload_result (heap (tasks sv') 0) = Some Demo.chunk_error.
Proof.
  split; [reflexivity|].
  apply (finished_download_is_completed Demo.world Demo.three_downloading 0
           [] "hash:first" 0 [("hash:stalled", 1); ("hash:last", 2)]
           Demo.three_downloading 0 Demo.finished 1
           "/downloads/show.mkv" 1 Demo.chunk_error 2).
  - unfold dict_ok. decide_now.
  - unfold no_alias. decide_now.
  - reflexivity.
  - reflexivity.
  - reflexivity.
  - reflexivity.
  - reflexivity.
  - discriminate.
  - reflexivity.
Defined.

Lemma chunked_upload_ranges_tile_file_witness :
  ∃ N : nat,
    ((Z.of_nat N - 1) * OneDriveUploader.chunk_size < 26214400)%Z
    ∧ (26214400 ≤ Z.of_nat N * OneDriveUploader.chunk_size)%Z
    ∧ length (OneDriveUploader._chunked_upload "show.mkv" 26214400
                (Return Demo.session) Demo.accepted).1 = N
    ∧ OneDriveUploader.tiles 0
        (OneDriveUploader._chunked_upload "show.mkv" 26214400
           (Return Demo.session) Demo.accepted).1 26214400
    ∧ (∃ p, last (OneDriveUploader._chunked_upload "show.mkv" 26214400
                    (Return Demo.session) Demo.accepted).1 = Some p
            ∧ OneDriveUploader.content_length p
              = (26214400 - (Z.of_nat N - 1) * OneDriveUploader.chunk_size)%Z)
    ∧ (∀ p, p ∈ (OneDriveUploader._chunked_upload "show.mkv" 26214400
                   (Return Demo.session) Demo.accepted).1 →
            OneDriveUploader.range_total p = 26214400%Z
            ∧ OneDriveUploader.content_length p
              = (OneDriveUploader.range_end p
                 - OneDriveUploader.range_start p + 1)%Z).
Proof.
  apply (chunked_upload_ranges_tile_file "show.mkv" 26214400 Demo.session
           (PStr "https://upload") Demo.accepted).
  - lia.
  - reflexivity.
  - reflexivity.
  - intros n _. eexists. split; reflexivity.
Defined.

Lemma chunked_upload_without_confirmation_witness :
  (OneDriveUploader._chunked_upload "show.mkv" 26214400
     (Return Demo.session) Demo.accepted).2
  = Return [("error", PStr "Upload completed but no confirmation received")]
  ∧ upload_reported_ok OneDriveUploader.no_confirmation = false.
Proof.
  apply (chunked_upload_without_confirmation "show.mkv" 26214400 Demo.session
           (PStr "https://upload") Demo.accepted).
  - reflexivity.
  - reflexivity.
  - intros n _. eexists. split; reflexivity.
Defined.

Lemma transmission_path_ignores_metadata_witness :
  Transmission.get_download_path Demo.transmission "abc123"
  = Return (Some "/downloads/abc123")
  ∧ Libtorrent.get_download_path Demo.libtorrent "abc123" = None.
Proof.
  split; [|reflexivity].
  apply (transmission_path_ignores_metadata Demo.transmission "abc123" 7
           (Transmission.mkTorrent "abc123" [] false)); reflexivity.
Defined.

(** * Further properties of the service *)

(** ** Loop rules *)

Section LoopRules.
Context {W : Type} (E : Collaborators W).

(** A property that every turn for the head of [pending] keeps is kept by
    the loop of [process_pending_tasks]. *)
Lemma dispatch_all_invariant (P : Service → Prop) :
  (∀ l rest sv w,
     pending (tasks sv) = l :: rest → P sv → P (dispatch E l sv w).1.2) →
  ∀ snap tail sv w,
    pending (tasks sv) = snap ++ tail → P sv →
    P (dispatch_all E snap sv w).1.2.
Proof.
  intros Hturn snap.
  induction snap as [|l rest IH]; intros tail sv w Hp HP; [done|].
  simpl in Hp.
  destruct (dispatch_head E l (rest ++ tail) sv w Hp)
    as (sv1 & w1 & Hrun & _ & Hshape).
  pose proof (Hturn l (rest ++ tail) sv w Hp HP) as HP1.
  simpl. rewrite Hrun in *. simpl in HP1.
  apply (IH tail); [|done].
  by destruct Hshape as [(? & ? & ? & ? & _ & ->)|(? & _ & -> & _)].
Qed.

(** A property that every turn for an entry still in the dict keeps is kept
    by the loop of [check_downloads]. *)
Lemma check_all_invariant (P : Service → Prop) :
  (∀ k l kept rest sv w,
     downloading (tasks sv) = kept ++ (k, l) :: rest → k ∉ kept.*1 →
     P sv → P (check_one E (k, l) sv w).1) →
  ∀ items kept tail sv w,
    downloading (tasks sv) = kept ++ items ++ tail →
    NoDup (kept ++ items ++ tail).*1 →
    P sv → P (check_all E items sv w).1.
Proof.
  intros Hturn items.
  induction items as [|[k l] rest IH]; intros kept tail sv w Hd Hnd HP; [done|].
  assert (Hk : k ∉ kept.*1).
  { rewrite fmap_app in Hnd. apply NoDup_app in Hnd as (_ & Hdisj & _).
    intros Hin. apply (Hdisj k Hin). by left. }
  simpl in Hd.
  destruct (check_one_turn E k l kept (rest ++ tail) sv w Hd Hk)
    as (sv1 & w1 & Hrun & _ & (_ & _ & _ & Hmove)).
  pose proof (Hturn k l kept (rest ++ tail) sv w Hd Hk HP) as HP1.
  cbn [check_all]. rewrite Hrun in *. simpl in HP1.
  destruct Hmove as [[Hd1 _]|[Hd1 _]].
  - apply (IH (kept ++ [(k, l)]) tail); [| |done].
    + by rewrite Hd1, Hd, <- app_assoc.
    + by rewrite <- app_assoc.
  - apply (IH kept tail); [done| |done].
    rewrite !fmap_app in *. simpl in Hnd.
    apply NoDup_app in Hnd as (Hn1 & Hdisj & Hn2).
    apply NoDup_cons in Hn2 as [_ Hn2].
    apply NoDup_app. split; [done|]. split; [|done].
    intros x Hx Hx'. apply (Hdisj x Hx). by right.
Qed.

End LoopRules.

(** ** What the tasks file holds *)

Lemma tasks_file_app disk tr1 : ∀ n tr2 f,
  tasks_file disk n (tr1 ++ tr2) f
  = tasks_file disk (n + length tr1) tr2 (tasks_file disk n tr1 f).
Proof.
  induction tr1 as [|[snap|lvl msg] tr1 IH]; intros n tr2 f; simpl.
  - by rewrite Nat.add_0_r.
  - rewrite IH. f_equal. lia.
  - rewrite IH. f_equal. lia.
Qed.

(** A log line leaves the file alone. *)
Lemma on_file_log disk f0 n0 lvl msg sv :
  on_file disk f0 n0 sv → on_file disk f0 n0 (log lvl msg sv).
Proof.
  unfold on_file, persisted, log. simpl. intros [Hn Hp].
  rewrite length_app, tasks_file_app. simpl. split; [lia|done].
Qed.

Section Persisted.
Context {W : Type} (E : Collaborators W).
Variables (disk : nat → WriteOutcome) (f0 : TasksFile) (n0 : nat).
(** From the event number [n0] on, every write goes through. *)
Hypothesis Hdisk : ∀ n, n0 ≤ n → disk n = Written.

Lemma on_file_save sv :
  n0 ≤ length (trace sv) → on_file disk f0 n0 (save_tasks sv).
Proof.
  unfold on_file, persisted, save_tasks. simpl. intros Hn.
  rewrite length_app, tasks_file_app. simpl.
  rewrite Hdisk by lia. split; [lia|done].
Qed.

Lemma add_task_persists s sv w :
  on_file disk f0 n0 sv → on_file disk f0 n0 (add_task E s sv w).1.2.
Proof.
  intros Hp. unfold add_task. destruct (task_exists s (tasks sv)).
  - by apply on_file_log.
  - destruct (clock E w) as [now w1]. simpl.
    apply on_file_log, on_file_save. apply Hp.
Qed.

(** A turn of [process_pending_tasks] ends with the store on file. *)
Lemma dispatch_persists l rest sv w :
  pending (tasks sv) = l :: rest →
  on_file disk f0 n0 sv → on_file disk f0 n0 (dispatch E l sv w).1.2.
Proof.
  intros Hp [Hn _]. unfold dispatch.
  destruct (add_torrent E (source (heap (tasks sv) l)) w) as [[k|e] w1].
  - destruct (clock E w1) as [start w2], (clock E w2) as [now w3].
    rewrite (remove_pending_head l rest) by done. simpl.
    by apply on_file_log, on_file_save.
  - unfold dispatch_failed.
    rewrite (remove_pending_head l rest) by done. simpl.
    apply on_file_save. simpl. rewrite length_app. lia.
Qed.

(** A turn of [check_downloads] for an entry that is still in the dict
    leaves the store on file if it was. *)
Lemma check_one_persists k l kept rest sv w :
  downloading (tasks sv) = kept ++ (k, l) :: rest → k ∉ kept.*1 →
  on_file disk f0 n0 sv → on_file disk f0 n0 (check_one E (k, l) sv w).1.
Proof.
  intros Hd Hk Hp. pose proof (proj1 Hp) as Hn. unfold check_one.
  destruct (get_torrent_status E k w) as [[st|e] w1];
    [|by apply on_file_log].
  assert (Hsaved : on_file disk f0 n0
                     (save_tasks (mkService (mutate l (set_status st) (tasks sv))
                                            (trace sv))))
    by (by apply on_file_save).
  destruct (is_finished st); [|done].
  assert (Hlong : n0 ≤ S (length (trace sv) + 1)) by lia.
  destruct (get_download_path E k w1) as [[[path|]|e] w2].
  - destruct (String.eqb path "").
    + rewrite (complete_entry E k l kept rest) by done.
      apply on_file_save. simpl. rewrite !length_app. simpl. lia.
    + unfold upload.
      destruct (if isdir E path w2 then upload_folder E path w2
                else upload_file E path w2) as [[r|e] w3].
      * rewrite (complete_entry E k l kept rest)
          by (by destruct (upload_reported_ok r)).
        apply on_file_save.
        destruct (upload_reported_ok r); simpl; rewrite !length_app; simpl;
          lia.
      * simpl. by repeat apply on_file_log.
  - rewrite (complete_entry E k l kept rest) by done.
    apply on_file_save. simpl. rewrite !length_app. simpl. lia.
  - simpl. by repeat apply on_file_log.
Qed.

(** An operation of the lifecycle leaves the store on file if it was. *)
Lemma run_op_persists op sv w :
  dict_ok (tasks sv) →
  on_file disk f0 n0 sv → on_file disk f0 n0 (run_op E op sv w).1.
Proof.
  intros Hok Hp. destruct op as [s| |]; simpl.
  - pose proof (add_task_persists s sv w Hp) as H.
    by destruct (add_task E s sv w) as [[r sv1] w1].
  - unfold process_pending_tasks.
    destruct (pending (tasks sv)) as [|l rest] eqn:Hpend; [done|].
    pose proof (dispatch_all_invariant E (on_file disk f0 n0)
                  dispatch_persists (l :: rest) [] sv w) as H.
    rewrite app_nil_r in H. specialize (H Hpend Hp).
    by destruct (dispatch_all E (l :: rest) sv w) as [[o sv1] w1].
  - unfold check_downloads.
    destruct (downloading (tasks sv)) as [|item rest] eqn:Hd; [done|].
    pose proof (check_all_invariant E (on_file disk f0 n0) check_one_persists
                  (item :: rest) [] [] sv w) as H.
    rewrite !app_nil_r in H. unfold dict_ok in Hok. rewrite Hd in Hok.
    by apply H.
Qed.

End Persisted.

(** X1. When every write that an operation of the lifecycle makes goes
    through, the operation ends with the tasks file holding the store as it
    is in memory, if it started so. A write that fails is not seen by the
    caller: [add_task] of a new source whose dump is cut returns [True], and
    the file no longer holds a store. *)
Theorem lifecycle_keeps_store_on_file {W} (E : Collaborators W)
    (disk : nat → WriteOutcome) (f0 : TasksFile) (op : Op) sv w :
  dict_ok (tasks sv) →
  persisted disk f0 sv →
  ((∀ n, length (trace sv) ≤ n → disk n = Written) →
   persisted disk f0 (run_op E op sv w).1)
  ∧ (∀ s, op = AddTask s →
          task_exists s (tasks sv) = false →
          disk (length (trace sv)) = Cut →
          (add_task E s sv w).1.1 = true
          ∧ tasks_file disk 0 (trace (run_op E op sv w).1) f0 = Damaged).
Proof.
  intros Hok Hp. split.
  - intros Hdisk.
    apply (run_op_persists E disk f0 (length (trace sv)) Hdisk op sv w Hok).
    by split.
  - intros s -> Hnew Hcut. simpl. unfold add_task. rewrite Hnew.
    destruct (clock E w) as [now w1]. simpl. split; [done|].
    rewrite <- app_assoc, tasks_file_app. simpl. by rewrite Hcut.
Qed.

(** ** More on [process_pending_tasks] *)

(** X2. For every store and every behaviour of the download client,
    [process_pending_tasks] ends normally (the [ValueError] of
    [pending.remove] is never raised), leaves [pending] empty and
    [completed] as it was, only appends to [failed]; calling it again right
    away changes nothing. *)
Theorem process_pending_tasks_drains_pending {W} (E : Collaborators W) sv w :
  ∃ sv' w',
    process_pending_tasks E sv w = (Normal, sv', w')
    ∧ pending (tasks sv') = []
    ∧ completed (tasks sv') = completed (tasks sv)
    ∧ failed (tasks sv) `prefix_of` failed (tasks sv')
    ∧ process_pending_tasks E sv' w' = (Normal, sv', w').
Proof.
  destruct (process_pending_tasks_spec E sv w)
    as (sv' & w' & Hrun & Hp & Hc & Hf & _).
  exists sv', w'. repeat split; try done.
  unfold process_pending_tasks. by rewrite Hp.
Qed.

Lemma dict_get_set_eq {A} k (v : A) d : dict_get k (dict_set k v d) = Some v.
Proof.
  induction d as [|[k' v'] d IH]; simpl.
  - by rewrite String.eqb_refl.
  - destruct (String.eqb_spec k' k) as [->|Hne]; simpl.
    + by rewrite String.eqb_refl.
    + by apply String.eqb_neq in Hne as ->.
Qed.

Lemma dict_get_set_ne {A} k k' (v : A) d :
  k' ≠ k → dict_get k' (dict_set k v d) = dict_get k' d.
Proof.
  intros Hne.
  assert (Hf : String.eqb k k' = false) by (apply String.eqb_neq; congruence).
  induction d as [|[k2 v2] d IH]; simpl.
  - by rewrite Hf.
  - destruct (String.eqb_spec k2 k) as [->|Hne2]; simpl.
    + by rewrite Hf.
    + by rewrite IH.
Qed.

Lemma dict_get_fmap {A B} (f : A → B) k (d : list (string * A)) :
  dict_get k (prod_map id f <$> d) = f <$> dict_get k d.
Proof.
  induction d as [|[k' v] d IH]; simpl; [done|].
  by destruct (String.eqb k' k).
Qed.

Lemma dict_get_None {A} k (d : list (string * A)) :
  dict_get k d = None ↔ k ∉ d.*1.
Proof.
  rewrite <- dict_has_keys. unfold dict_has.
  destruct (dict_get k d); split; congruence.
Qed.

Lemma dict_get_split {A} k (v : A) d :
  dict_get k d = Some v →
  ∃ pre post, d = pre ++ (k, v) :: post ∧ k ∉ pre.*1.
Proof.
  induction d as [|[k' v'] d IH]; simpl; [done|].
  destruct (String.eqb_spec k' k) as [->|Hne].
  - intros [= ->]. exists [], d. split; [done|]. apply not_elem_of_nil.
  - intros Hget. destruct (IH Hget) as (pre & post & -> & Hni).
    exists ((k', v') :: pre), post. split; [done|].
    simpl. by apply not_elem_of_cons.
Qed.

Lemma dict_set_replace {A} k (v v0 : A) pre post :
  k ∉ pre.*1 →
  dict_set k v (pre ++ (k, v0) :: post) = pre ++ (k, v) :: post.
Proof.
  induction pre as [|[k' v'] pre IH]; simpl.
  - intros _. by rewrite String.eqb_refl.
  - intros [Hne Hni]%not_elem_of_cons.
    apply not_eq_sym, String.eqb_neq in Hne as ->. by rewrite IH.
Qed.

Lemma dict_set_new {A} k (v : A) d :
  k ∉ d.*1 → dict_set k v d = d ++ [(k, v)].
Proof.
  induction d as [|[k' v'] d IH]; simpl; [done|].
  intros [Hne Hni]%not_elem_of_cons.
  apply not_eq_sym, String.eqb_neq in Hne as ->. by rewrite IH.
Qed.

Section DispatchEntry.
Context {W : Type} (E : Collaborators W).

(** The turn of a task that the download client accepts. *)
Lemma dispatch_started l rest sv w k w1 :
  pending (tasks sv) = l :: rest →
  add_torrent E (source (heap (tasks sv) l)) w = (Return k, w1) →
  dispatch E l sv w
  = (Normal,
     log Info (StartedDownloading (source (heap (tasks sv) l)))
       (save_tasks
          (mkService
             (set_pending rest
                (enter_downloading l k (clock E w1).1
                   (clock E (clock E w1).2).1 (tasks sv)))
             (trace sv))),
     (clock E (clock E w1).2).2).
Proof.
  intros Hp Hadd. unfold dispatch. rewrite Hadd.
  destruct (clock E w1) as [start w2]. simpl.
  destruct (clock E w2) as [now w3]. simpl.
  rewrite (remove_pending_head l rest) by done. simpl.
  do 3 f_equal. rewrite upd_ne; [done|].
  intros Heq. apply (fresh_not_in (l :: live (tasks sv))).
  rewrite <- Heq. by left.
Qed.

(** The loop around one pending task: what the turns before it leave of it,
    and what the turns after it keep of the store its own turn made. *)
Lemma dispatch_all_around pre l post sv w :
  one_bucket_each (tasks sv) →
  pending (tasks sv) = pre ++ l :: post →
  ∃ sv1 w1,
    dispatch_all E pre sv w = (Normal, sv1, w1)
    ∧ pending (tasks sv1) = l :: post
    ∧ heap (tasks sv1) l = heap (tasks sv) l
    ∧ one_bucket_each (tasks sv1)
    ∧ ∀ sv2 w2,
        dispatch E l sv1 w1 = (Normal, sv2, w2) →
        pending (tasks sv2) = post →
        ∃ sv' w',
          process_pending_tasks E sv w = (Normal, sv', w')
          ∧ pending (tasks sv') = []
          ∧ trace sv2 `prefix_of` trace sv'
          ∧ comes_from (tasks sv2) (tasks sv').
Proof.
  intros Hone Hp.
  pose proof (one_bucket_no_alias _ Hone) as Hnd.
  unfold live in Hnd. rewrite Hp in Hnd.
  apply NoDup_app in Hnd as (Hndp & _ & _).
  apply NoDup_app in Hndp as (_ & Hpre_l & _).
  destruct (dispatch_all_spec E pre (l :: post) sv w Hp)
    as (sv1 & w1 & Hrun1 & Hp1 & _ & _ & _ & Hfr1 & Hsub1 & _ & _).
  exists sv1, w1. split; [done|]. split; [done|]. split.
  { apply Hfr1.
    - rewrite Hp, !elem_of_app. left. right. by left.
    - intros Hin. apply (Hpre_l l Hin). by left. }
  split; [by eapply one_bucket_submseteq|].
  intros sv2 w2 Hrun2 Hp2.
  destruct (dispatch_all_spec E post [] sv2 w2)
    as (sv' & w' & Hrun3 & Hp3 & _ & _ & Htr3 & _ & _ & _ & Hfrom3);
    [by rewrite app_nil_r|].
  exists sv', w'. split; [|by repeat split].
  unfold process_pending_tasks. rewrite Hp.
  assert (Hall : dispatch_all E (pre ++ l :: post) sv w = (Normal, sv', w')).
  { rewrite dispatch_all_app, Hrun1. simpl. by rewrite Hrun2. }
  by destruct pre.
Qed.

End DispatchEntry.

(** The dict assignment on a key that is there takes the task of the old
    entry out of the store. *)
Lemma replaced_entry_sources l rest k start now (t : Tasks) dpre l0 dpost :
  pending t = l :: rest →
  downloading t = dpre ++ (k, l0) :: dpost →
  k ∉ dpre.*1 →
  all_sources t
  ≡ₚ source (heap t l0)
     :: all_sources (set_pending rest (enter_downloading l k start now t)).
Proof.
  intros Hp Hd Hk.
  pose proof (fresh_not_in (l :: live t)) as Hfresh.
  set (l' := fresh (l :: live t)) in *.
  apply not_elem_of_cons in Hfresh as [_ Hfresh].
  unfold live in Hfresh. rewrite Hp, Hd, !not_elem_of_app in Hfresh.
  destruct Hfresh as (Hnp & Hnd & Hnc & Hnf).
  apply not_elem_of_cons in Hnp as [_ Hnp].
  rewrite fmap_app in Hnd. simpl in Hnd.
  apply not_elem_of_app in Hnd as [Hn1 Hn2].
  apply not_elem_of_cons in Hn2 as [_ Hn2].
  unfold all_sources, live, enter_downloading. simpl. fold l'.
  rewrite Hp, Hd, (dict_set_replace k l' l0 dpre dpost Hk).
  rewrite !fmap_app, !sources_app. simpl.
  rewrite upd_eq. simpl.
  rewrite !sources_upd_fresh by done.
  rewrite !app_assoc.
  rewrite <- !(Permutation_middle _ _ (source (heap t l0))).
  rewrite <- !(Permutation_middle _ _ (source (heap t l))).
  simpl. by rewrite Permutation_swap, <- !app_assoc.
Qed.

(** X3. When the download client accepts a pending task and answers the
    info hash [k], [process_pending_tasks] saves the store with a new task
    under [k] in [downloading], made of the source and the ['added_time'] of
    the pending task and the time of the turn as ['start_time'], and
    without the task in [pending]. *)
Theorem accepted_task_is_saved_as_downloading {W} (E : Collaborators W)
    sv w pre l post o sv1 w1 k w2 :
  one_bucket_each (tasks sv) →
  pending (tasks sv) = pre ++ l :: post →
  dispatch_all E pre sv w = (o, sv1, w1) →
  add_torrent E (source (heap (tasks sv) l)) w1 = (Return k, w2) →
  ∃ sv' w' snap,
    process_pending_tasks E sv w = (Normal, sv', w')
    ∧ Saved snap ∈ trace sv'
    ∧ dict_get k (s_downloading snap)
      = Some (mkTask (source (heap (tasks sv) l))
                (Some (default (clock E (clock E w2).2).1
                         (added_time (heap (tasks sv) l))))
                (Some (clock E w2).1) None None None None)
    ∧ (source (heap (tasks sv) l) ∉ source <$> s_pending snap)
    ∧ pending (tasks sv') = [].
Proof.
  intros Hone Hp Hpre Hadd.
  destruct (dispatch_all_around E pre l post sv w Hone Hp)
    as (sv1' & w1' & Hrun1 & Hp1 & Hl1 & Hone1 & Hafter).
  rewrite Hrun1 in Hpre. injection Hpre as <- <- <-.
  rewrite <- Hl1 in Hadd.
  pose proof (dispatch_started E l post sv1' w1' k w2 Hp1 Hadd) as Hturn.
  destruct (Hafter _ _ Hturn eq_refl) as (sv' & w' & Hrun & Hp' & Htr & _).
  exists sv', w'. eexists. split; [done|]. split; [|split; [|split; [|done]]].
  - eapply elem_of_prefix; [|exact Htr]. simpl.
    rewrite <- app_assoc. apply elem_of_app. right. by left.
  - simpl. rewrite dict_get_fmap, dict_get_set_eq. simpl.
    by rewrite upd_eq, Hl1.
  - destruct (started_sources l post k (clock E w2).1
                (clock E (clock E w2).2).1 (tasks sv1') Hp1) as (HP' & _).
    unfold bucket_sources, sources in HP'. simpl in HP'.
    simpl. rewrite <- list_fmap_compose.
    change (source ∘ _) with
      (λ x, source (upd (heap (tasks sv1'))
                      (fresh (l :: live (tasks sv1')))
                      (mkTask (source (heap (tasks sv1') l))
                         (Some (default (clock E (clock E w2).2).1
                                  (added_time (heap (tasks sv1') l))))
                         (Some (clock E w2).1) None None None None) x)).
    rewrite HP'. rewrite <- Hl1.
    unfold one_bucket_each, all_sources, live in Hone1.
    rewrite Hp1 in Hone1. simpl in Hone1.
    apply NoDup_cons in Hone1 as [Hni _].
    intros Hin. apply Hni. unfold sources. rewrite fmap_app.
    apply elem_of_app. by left.
Qed.

(** X4. When the download client answers, for a pending task, an info hash
    that is already a key of [downloading], the task that was under that key
    is in no bucket once [process_pending_tasks] has run: the dict
    assignment replaced it. *)
Theorem reused_info_hash_drops_earlier_task {W} (E : Collaborators W)
    sv w pre l post o sv1 w1 k w2 l0 :
  one_bucket_each (tasks sv) →
  pending (tasks sv) = pre ++ l :: post →
  dispatch_all E pre sv w = (o, sv1, w1) →
  add_torrent E (source (heap (tasks sv) l)) w1 = (Return k, w2) →
  dict_get k (downloading (tasks sv1)) = Some l0 →
  ∃ sv' w',
    process_pending_tasks E sv w = (Normal, sv', w')
    ∧ occupies (source (heap (tasks sv1) l0)) Downloading (tasks sv1)
    ∧ ∀ b, ¬ occupies (source (heap (tasks sv1) l0)) b (tasks sv').
Proof.
  intros Hone Hp Hpre Hadd Hget.
  destruct (dispatch_all_around E pre l post sv w Hone Hp)
    as (sv1' & w1' & Hrun1 & Hp1 & Hl1 & Hone1 & Hafter).
  rewrite Hrun1 in Hpre. injection Hpre as <- <- <-.
  rewrite <- Hl1 in Hadd.
  pose proof (dispatch_started E l post sv1' w1' k w2 Hp1 Hadd) as Hturn.
  destruct (Hafter _ _ Hturn eq_refl) as (sv' & w' & Hrun & _ & _ & Hfrom).
  destruct (dict_get_split k l0 _ Hget) as (dpre & dpost & Hd & Hk).
  exists sv', w'. split; [done|]. split.
  { apply elem_of_sources. exists l0. split; [|done]. simpl.
    rewrite Hd, fmap_app. apply elem_of_app. right. by left. }
  intros b Hocc. destruct (Hfrom _ _ Hocc) as (b0 & Hocc0 & _).
  pose proof (replaced_entry_sources l post k (clock E w2).1
                (clock E (clock E w2).2).1 (tasks sv1') dpre l0 dpost Hp1 Hd Hk)
    as Hperm.
  unfold one_bucket_each in Hone1. rewrite Hperm in Hone1.
  apply NoDup_cons in Hone1 as [Hni _]. apply Hni.
  apply elem_of_all_sources. by exists b0.
Qed.

(** ** More on [check_downloads] *)

(** A turn of [check_downloads] neither drops nor adds a task. *)
Lemma check_turn_conserves k l kept rest t t' :
  downloading t = kept ++ (k, l) :: rest →
  check_turn k l kept rest t t' →
  all_sources t' ≡ₚ all_sources t.
Proof.
  intros Hd (Hp & Hf & Hh & Hmove).
  assert (Hsrc : ∀ ls, sources (heap t') ls = sources (heap t) ls).
  { intros ls. by eapply same_but_sources. }
  unfold all_sources, live. rewrite Hp, Hf, Hsrc.
  destruct Hmove as [[-> ->]|[-> ->]]; [done|].
  rewrite Hd, !fmap_app, !sources_app. simpl.
  rewrite <- !app_assoc. simpl.
  apply Permutation_app_head, Permutation_app_head.
  rewrite <- Permutation_middle. symmetry.
  rewrite (app_assoc _ (sources (heap t) (completed t))).
  by rewrite <- Permutation_middle, <- app_assoc.
Qed.

(** X5. [check_downloads] neither drops nor duplicates a task, and it never
    fails one: the sources of the store are the same before and after, and
    [pending] and [failed] are untouched; the only move is from
    [downloading] to the end of [completed]. *)
Theorem check_downloads_conserves_tasks {W} (E : Collaborators W) sv w :
  dict_ok (tasks sv) →
  all_sources (tasks (check_downloads E sv w).1) ≡ₚ all_sources (tasks sv)
  ∧ pending (tasks (check_downloads E sv w).1) = pending (tasks sv)
  ∧ failed (tasks (check_downloads E sv w).1) = failed (tasks sv)
  ∧ completed (tasks sv) `prefix_of` completed (tasks (check_downloads E sv w).1)
  ∧ downloading (tasks (check_downloads E sv w).1)
    `sublist_of` downloading (tasks sv).
Proof.
  intros Hok.
  destruct (check_downloads_spec E sv w Hok)
    as (sv' & w' & Hrun & Hp & Hf & Hc & Hd & _).
  split; [|by rewrite Hrun].
  clear sv' w' Hrun Hp Hf Hc Hd.
  unfold check_downloads.
  destruct (downloading (tasks sv)) as [|item rest] eqn:Hd; [done|].
  apply (check_all_invariant E
           (λ sv0, all_sources (tasks sv0) ≡ₚ all_sources (tasks sv)))
    with (kept := []) (tail := []).
  - intros k l kept rest0 sv0 w0 Hd0 Hk0 HP.
    destruct (check_one_turn E k l kept rest0 sv0 w0 Hd0 Hk0)
      as (sv1 & w1 & Hrun & _ & Hturn).
    rewrite Hrun. simpl. etrans; [|exact HP].
    by eapply check_turn_conserves.
  - by rewrite !app_nil_r.
  - rewrite !app_nil_r. unfold dict_ok in Hok. by rewrite Hd in Hok.
  - done.
Qed.





(** ** The further properties on the scripted worlds *)

Lemma lifecycle_keeps_store_on_file_witness :
  persisted (λ _, Written) NoFile (save_tasks Demo.three_downloading)
  ∧ ((∀ n, length (trace (save_tasks Demo.three_downloading)) ≤ n →
           (λ _ : nat, Written) n = Written) →
     persisted (λ _, Written) NoFile
       (run_op Demo.world CheckDownloads
          (save_tasks Demo.three_downloading) 0).1)
  ∧ (∀ s, CheckDownloads = AddTask s →
          task_exists s (tasks (save_tasks Demo.three_downloading)) = false →
          (λ _ : nat, Written)
            (length (trace (save_tasks Demo.three_downloading))) = Cut →
          (add_task Demo.world s (save_tasks Demo.three_downloading) 0).1.1
          = true
          ∧ tasks_file (λ _, Written) 0
              (trace (run_op Demo.world CheckDownloads
                        (save_tasks Demo.three_downloading) 0).1) NoFile
            = Damaged).
Proof.
  assert (H : persisted (λ _, Written) NoFile
                (save_tasks Demo.three_downloading)) by reflexivity.
  split; [exact H|].
  apply (lifecycle_keeps_store_on_file Demo.world (λ _, Written) NoFile
           CheckDownloads (save_tasks Demo.three_downloading) 0); [|exact H].
  unfold dict_ok. decide_now.
Defined.

Lemma accepted_task_is_saved_as_downloading_witness :
  ∃ sv' w' snap,
    process_pending_tasks Demo.world Demo.three_pending 0 = (Normal, sv', w')
    ∧ Saved snap ∈ trace sv'
    ∧ dict_get "hash:magnet:?xt=urn:btih:last" (s_downloading snap)
      = Some (mkTask "magnet:?xt=urn:btih:last" (Some 0%Z) (Some 5%Z)
                None None None None)
    ∧ ("magnet:?xt=urn:btih:last" ∉ source <$> s_pending snap)
    ∧ pending (tasks sv') = [].
Proof.
  apply (accepted_task_is_saved_as_downloading Demo.world Demo.three_pending 0
           [0; 1] 2 []
           (dispatch_all Demo.world [0; 1] Demo.three_pending 0).1.1
           (dispatch_all Demo.world [0; 1] Demo.three_pending 0).1.2
           (dispatch_all Demo.world [0; 1] Demo.three_pending 0).2
           "hash:magnet:?xt=urn:btih:last" 5).
  - unfold one_bucket_each. decide_now.
  - reflexivity.
  - reflexivity.
  - reflexivity.
Defined.

Lemma reused_info_hash_drops_earlier_task_witness :
  ∃ sv' w',
    process_pending_tasks Demo.same_torrent Demo.two_pending 0
    = (Normal, sv', w')
    ∧ occupies "show.torrent" Downloading
        (tasks (dispatch_all Demo.same_torrent [0] Demo.two_pending 0).1.2)
    ∧ ∀ b, ¬ occupies "show.torrent" b (tasks sv').
Proof.
  apply (reused_info_hash_drops_earlier_task Demo.same_torrent
           Demo.two_pending 0 [0] 1 []
           (dispatch_all Demo.same_torrent [0] Demo.two_pending 0).1.1
           (dispatch_all Demo.same_torrent [0] Demo.two_pending 0).1.2
           (dispatch_all Demo.same_torrent [0] Demo.two_pending 0).2
           "hash:show" 4 2).
  - unfold one_bucket_each. decide_now.
  - reflexivity.
  - reflexivity.
  - reflexivity.
  - reflexivity.
Defined.

Lemma check_downloads_conserves_tasks_witness :
  all_sources (tasks (check_downloads Demo.world Demo.three_downloading 0).1)
  ≡ₚ all_sources (tasks Demo.three_downloading)
  ∧ pending (tasks (check_downloads Demo.world Demo.three_downloading 0).1)
    = pending (tasks Demo.three_downloading)
  ∧ failed (tasks (check_downloads Demo.world Demo.three_downloading 0).1)
    = failed (tasks Demo.three_downloading)
  ∧ completed (tasks Demo.three_downloading)
    `prefix_of`
    completed (tasks (check_downloads Demo.world Demo.three_downloading 0).1)
  ∧ downloading (tasks (check_downloads Demo.world Demo.three_downloading 0).1)
    `sublist_of` downloading (tasks Demo.three_downloading).
Proof.
  apply (check_downloads_conserves_tasks Demo.world Demo.three_downloading 0).
  unfold dict_ok. decide_now.
Defined.




(** ** More on the chunked upload *)

Section ChunkedUploadLoop.
Import OneDriveUploader.
Local Open Scope Z_scope.

Variables (file_name : string) (file_size : Z) (upload_url : pyval).
Variable reply : nat → Result Response.

Lemma status_only_202 r :
  status_in [200; 201; 202] r = true → status_in [200; 201] r = false →
  status_code r = 202.
Proof.
  unfold status_in. simpl.
  destruct (Z.eqb_spec (status_code r) 200); [done|].
  destruct (Z.eqb_spec (status_code r) 201); [done|].
  destruct (Z.eqb_spec (status_code r) 202); done.
Qed.

(** The loop is left at the first chunk whose turn, run alone, leaves it;
    the chunks after it are not sent. *)
Lemma put_chunks_stops n : ∀ (a j : nat) out,
  (a ≤ j)%nat → (j < a + n)%nat →
  (∀ i, (a ≤ i)%nat → (i < j)%nat →
        ∃ r, reply i = Return r ∧ status_code r = 202) →
  put_chunks file_name file_size upload_url reply [j]
  = ([chunk_put file_size upload_url j], Some out) →
  put_chunks file_name file_size upload_url reply (seq a n)
  = (chunk_put file_size upload_url <$> seq a (S j - a), Some out).
Proof.
  induction n as [|n IH]; intros a j out Ha Hj H202 Hturn; [lia|].
  cbn [seq put_chunks].
  destruct (decide (a = j)) as [->|Hne].
  - replace (S j - j)%nat with 1%nat by lia.
    cbn [put_chunks] in Hturn. cbn [seq fmap list_fmap].
    destruct (reply j) as [r|e]; [|done].
    destruct (status_in [200; 201; 202] r); [|done].
    by destruct (status_in [200; 201] r).
  - destruct (H202 a) as (r & -> & Hr); [lia|lia|].
    destruct (status_202 r Hr) as [-> ->].
    rewrite (IH (S a) j out); [|lia|lia| |done].
    + replace (S j - a)%nat with (S (S j - S a)) by lia. done.
    + intros i Hi1 Hi2. apply H202; lia.
Qed.

(** Every run of the loop is of one of two kinds: all chunks were sent and
    answered 202, or the loop was left at a first chunk that was not. *)
Lemma put_chunks_cases n : ∀ (a : nat) puts out,
  put_chunks file_name file_size upload_url reply (seq a n) = (puts, out) →
  (out = None
   ∧ puts = chunk_put file_size upload_url <$> seq a n
   ∧ ∀ i, (a ≤ i)%nat → (i < a + n)%nat →
          ∃ r, reply i = Return r ∧ status_code r = 202)
  ∨ (∃ (j : nat) verdict,
       (a ≤ j)%nat ∧ (j < a + n)%nat
       ∧ out = Some verdict
       ∧ puts = chunk_put file_size upload_url <$> seq a (S j - a)
       ∧ (∀ i, (a ≤ i)%nat → (i < j)%nat →
               ∃ r, reply i = Return r ∧ status_code r = 202)
       ∧ put_chunks file_name file_size upload_url reply [j]
         = ([chunk_put file_size upload_url j], Some verdict)).
Proof.
  induction n as [|n IH]; intros a puts out Hrun.
  - injection Hrun as <- <-. left. split; [done|]. split; [done|]. lia.
  - cbn [seq put_chunks] in Hrun.
    assert (Hhere : ∀ verdict,
      puts = [chunk_put file_size upload_url a] → out = Some verdict →
      put_chunks file_name file_size upload_url reply [a]
      = ([chunk_put file_size upload_url a], Some verdict) →
      ∃ (j : nat) verdict,
        (a ≤ j)%nat ∧ (j < a + S n)%nat ∧ out = Some verdict
        ∧ puts = chunk_put file_size upload_url <$> seq a (S j - a)
        ∧ (∀ i, (a ≤ i)%nat → (i < j)%nat →
                ∃ r, reply i = Return r ∧ status_code r = 202)
        ∧ put_chunks file_name file_size upload_url reply [j]
          = ([chunk_put file_size upload_url j], Some verdict)).
    { intros verdict -> -> Hone. exists a, verdict.
      replace (S a - a)%nat with 1%nat by lia.
      split; [lia|]. split; [lia|]. split; [done|]. split; [done|].
      split; [intros; lia|done]. }
    destruct (reply a) as [r|e] eqn:Hreply.
    + destruct (status_in [200; 201; 202] r) eqn:H1.
      * destruct (status_in [200; 201] r) eqn:H2.
        -- injection Hrun as <- <-. right.
           eapply Hhere; [done|done|].
           cbn [put_chunks]. by rewrite Hreply, H1, H2.
        -- destruct (put_chunks file_name file_size upload_url reply
                       (seq (S a) n)) as [puts' out'] eqn:Hrest.
           injection Hrun as <- <-.
           pose proof (status_only_202 r H1 H2) as Hr.
           destruct (IH (S a) puts' out' Hrest)
             as [(-> & -> & Hall)|(j & verdict & Hj1 & Hj2 & -> & -> & Hall
                                   & Hone)].
           ++ left. split; [done|]. split; [done|].
              intros i Hi1 Hi2. destruct (decide (i = a)) as [->|Hne].
              ** by exists r.
              ** apply Hall; lia.
           ++ right. exists j, verdict.
              split; [lia|]. split; [lia|]. split; [done|]. split.
              { replace (S j - a)%nat with (S (S j - S a)) by lia. done. }
              split; [|done].
              intros i Hi1 Hi2. destruct (decide (i = a)) as [->|Hne].
              ** by exists r.
              ** apply Hall; lia.
      * injection Hrun as <- <-. right.
        eapply Hhere; [done|done|].
        cbn [put_chunks]. by rewrite Hreply, H1.
    + injection Hrun as <- <-. right.
      eapply Hhere; [done|done|].
      cbn [put_chunks]. by rewrite Hreply.
Qed.

(** The PUT of a chunk that starts inside the file stays inside it and is
    at most one chunk long. *)
Lemma chunk_put_bounds (i : nat) :
  Z.of_nat i * chunk_size < file_size →
  let p := chunk_put file_size upload_url i in
  0 ≤ range_start p ∧ range_start p ≤ range_end p ∧ range_end p < file_size
  ∧ 1 ≤ content_length p ∧ content_length p ≤ chunk_size
  ∧ range_total p = file_size.
Proof.
  assert (HC : chunk_size = 10485760) by reflexivity.
  intros Hi. simpl. lia.
Qed.

(** The ranges of [n] chunks in a row tile the bytes up to the end of the
    last of them. *)
Lemma chunk_puts_tile_prefix n : ∀ a : nat,
  (Z.of_nat a + Z.of_nat n - 1) * chunk_size < file_size ∨ n = 0%nat →
  tiles (Z.min file_size (Z.of_nat a * chunk_size))
        (chunk_put file_size upload_url <$> seq a n)
        (Z.min file_size ((Z.of_nat a + Z.of_nat n) * chunk_size)).
Proof.
  assert (HC : chunk_size = 10485760) by reflexivity.
  induction n as [|n IH]; intros a Hlo.
  - simpl. f_equal. lia.
  - destruct Hlo as [Hlo|Hlo]; [|done].
    cbn [seq fmap list_fmap tiles chunk_put range_start range_end].
    split; [lia|]. split; [lia|].
    replace (Z.min file_size (Z.of_nat a * chunk_size + chunk_size) - 1 + 1)
      with (Z.min file_size (Z.of_nat (S a) * chunk_size)) by lia.
    replace ((Z.of_nat a + Z.of_nat (S n)) * chunk_size)
      with ((Z.of_nat (S a) + Z.of_nat n) * chunk_size) by lia.
    apply IH. destruct n; [by right|left; lia].
Qed.

End ChunkedUploadLoop.

Lemma total_chunks_bound (file_size : Z) (j : nat) :
  (j < Z.to_nat ((file_size + OneDriveUploader.chunk_size - 1)
                 / OneDriveUploader.chunk_size))%nat
  ↔ (Z.of_nat j * OneDriveUploader.chunk_size < file_size)%Z.
Proof.
  assert (HC : OneDriveUploader.chunk_size = 10485760%Z) by reflexivity.
  pose proof (Z.div_mod (file_size + OneDriveUploader.chunk_size - 1)
                OneDriveUploader.chunk_size) as Hdm.
  pose proof (Z.mod_pos_bound (file_size + OneDriveUploader.chunk_size - 1)
                OneDriveUploader.chunk_size) as Hmod.
  rewrite HC in *.
  set (q := ((file_size + 10485760 - 1) / 10485760)%Z) in *.
  split; intros H.
  - assert (Z.of_nat j < q)%Z by lia. lia.
  - assert (Z.of_nat j < q)%Z by nia. lia.
Qed.

(** X9. In the chunked upload, the first PUT whose answer is not a 202
    decides the result: an exception of the PUT propagates, a 200 or 201
    returns the JSON body, any other status returns the error dict of the
    rejected chunk; the chunks before it have been sent, the chunks after
    it are not. *)
Theorem chunked_upload_first_other_answer_decides
    (file_name : string) (F : Z) (session : OneDriveUploader.Response)
    (upload_url : pyval) (reply : nat → Result OneDriveUploader.Response)
    (j : nat) :
  OneDriveUploader.status_code session = 200%Z →
  dict_get "uploadUrl" (OneDriveUploader.json session) = Some upload_url →
  (Z.of_nat j * OneDriveUploader.chunk_size < F)%Z →
  (∀ i, (i < j)%nat →
        ∃ r, reply i = Return r ∧ OneDriveUploader.status_code r = 202%Z) →
  (∀ r, reply j = Return r → OneDriveUploader.status_code r ≠ 202%Z) →
  OneDriveUploader._chunked_upload file_name F (Return session) reply
  = (OneDriveUploader.chunk_put F upload_url <$> seq 0 (S j),
     match reply j with
     | Raise e => Raise e
     | Return r =>
         if OneDriveUploader.status_in [200; 201]%Z r
         then Return (OneDriveUploader.json r)
         else Return [("error",
                       PStr ("Failed chunk upload for file " +:+ file_name
                             +:+ ": "
                             +:+ OneDriveUploader.str_Z
                                   (OneDriveUploader.status_code r)
                             +:+ " - " +:+ OneDriveUploader.text r))]
     end).
Proof.
  intros Hsession Hurl Hj H202 Hother.
  set (verdict := match reply j with
                  | Raise e => Raise e
                  | Return r => _
                  end).
  unfold OneDriveUploader._chunked_upload. rewrite Hsession, Hurl. simpl.
  apply total_chunks_bound in Hj.
  rewrite (put_chunks_stops file_name F upload_url reply _ 0 j verdict);
    [by rewrite Nat.sub_0_r|lia|lia|intros i _ Hi; by apply H202|].
  subst verdict. cbn [OneDriveUploader.put_chunks].
  destruct (reply j) as [r|e]; [|done].
  destruct (OneDriveUploader.status_in [200; 201; 202]%Z r) eqn:H1.
  - destruct (OneDriveUploader.status_in [200; 201]%Z r) eqn:H2; [done|].
    by destruct (Hother r eq_refl), (status_only_202 r H1 H2).
  - destruct (OneDriveUploader.status_in [200; 201]%Z r) eqn:H2; [|done].
    exfalso. revert H1 H2. unfold OneDriveUploader.status_in. simpl.
    destruct (Z.eqb (OneDriveUploader.status_code r) 200); [done|].
    by destruct (Z.eqb (OneDriveUploader.status_code r) 201).
Qed.

(** X10. The chunked upload never reports a success of its own: a result
    without an ['error'] key is the JSON body of a PUT that the server
    answered with 200 or 201, after the upload session was created and
    every chunk before that PUT was answered 202. *)
Theorem chunked_upload_success_is_confirmed
    (file_name : string) (F : Z)
    (session : Result OneDriveUploader.Response)
    (reply : nat → Result OneDriveUploader.Response) (d : pydict) :
  (OneDriveUploader._chunked_upload file_name F session reply).2 = Return d →
  upload_reported_ok d = true →
  ∃ s (j : nat) r,
    session = Return s
    ∧ OneDriveUploader.status_code s = 200%Z
    ∧ (Z.of_nat j * OneDriveUploader.chunk_size < F)%Z
    ∧ reply j = Return r
    ∧ OneDriveUploader.status_in [200; 201]%Z r = true
    ∧ d = OneDriveUploader.json r
    ∧ length (OneDriveUploader._chunked_upload file_name F session reply).1
      = S j
    ∧ ∀ i, (i < j)%nat →
           ∃ r', reply i = Return r'
                 ∧ OneDriveUploader.status_code r' = 202%Z.
Proof.
  unfold OneDriveUploader._chunked_upload.
  destruct session as [s|e]; [|done].
  destruct (Z.eqb_spec (OneDriveUploader.status_code s) 200) as [Hs|Hs];
    simpl; [|by intros [= <-]].
  destruct (dict_get "uploadUrl" (OneDriveUploader.json s)) as [url|]; [|done].
  destruct (OneDriveUploader.put_chunks file_name F url reply _)
    as [puts out] eqn:Hrun.
  simpl. intros Hout Hok.
  apply put_chunks_cases in Hrun
    as [(-> & _ & _)|(j & verdict & _ & Hj & -> & -> & H202 & Hone)].
  { simpl in Hout. by injection Hout as <-. }
  simpl in Hout. subst verdict.
  cbn [OneDriveUploader.put_chunks] in Hone.
  destruct (reply j) as [r|e] eqn:Hreply; [|done].
  exists s, j, r.
  destruct (OneDriveUploader.status_in [200; 201; 202]%Z r).
  - destruct (OneDriveUploader.status_in [200; 201]%Z r) eqn:H2; [|done].
    injection Hone as <-.
    split; [done|]. split; [done|].
    split; [apply total_chunks_bound; lia|].
    split; [done|]. split; [done|]. split; [done|].
    split; [by rewrite length_fmap, length_seq, Nat.sub_0_r|].
    intros i Hi. apply H202; lia.
  - by injection Hone as <-.
Qed.

(** X11. Whatever the server answers, the PUTs of the chunked upload stay
    inside the file: each range is not empty, at most one chunk long and
    ends before byte [F]; the ranges follow each other from byte [0]
    without gap or overlap, and there are at most as many as the file has
    chunks. *)
Theorem chunked_upload_puts_stay_in_file
    (file_name : string) (F : Z)
    (session : Result OneDriveUploader.Response)
    (reply : nat → Result OneDriveUploader.Response) :
  (0 ≤ F)%Z →
  let puts := (OneDriveUploader._chunked_upload file_name F session reply).1 in
  (∀ p, p ∈ puts →
        (0 ≤ OneDriveUploader.range_start p)%Z
        ∧ (OneDriveUploader.range_start p ≤ OneDriveUploader.range_end p)%Z
        ∧ (OneDriveUploader.range_end p < F)%Z
        ∧ (1 ≤ OneDriveUploader.content_length p)%Z
        ∧ (OneDriveUploader.content_length p ≤ OneDriveUploader.chunk_size)%Z
        ∧ OneDriveUploader.range_total p = F)
  ∧ OneDriveUploader.tiles 0 puts
      (Z.min F (Z.of_nat (length puts) * OneDriveUploader.chunk_size))
  ∧ ((Z.of_nat (length puts) - 1) * OneDriveUploader.chunk_size < F ∨ puts = [])%Z.
Proof.
  intros HF puts.
  assert (Hshape : ∃ (url : pyval) (n : nat),
    puts = OneDriveUploader.chunk_put F url <$> seq 0 n
    ∧ ((Z.of_nat n - 1) * OneDriveUploader.chunk_size < F ∨ n = 0%nat)%Z).
  { subst puts. unfold OneDriveUploader._chunked_upload.
    destruct session as [s|e]; [|exists PNone, 0%nat; split; [done|by right]].
    destruct (negb _); [exists PNone, 0%nat; split; [done|by right]|].
    destruct (dict_get "uploadUrl" (OneDriveUploader.json s)) as [url|];
      [|exists PNone, 0%nat; split; [done|by right]].
    destruct (OneDriveUploader.put_chunks file_name F url reply _)
      as [puts out] eqn:Hrun.
    exists url. simpl.
    apply put_chunks_cases in Hrun
      as [(_ & -> & _)|(j & verdict & _ & Hj & _ & -> & _ & _)].
    - eexists. split; [done|].
      set (N := Z.to_nat _).
      destruct N as [|N'] eqn:HN; [by right|left].
      assert (Hlt : (N' < N)%nat) by lia.
      subst N. apply total_chunks_bound in Hlt. lia.
    - exists (S j). rewrite Nat.sub_0_r. split; [done|left].
      simpl in Hj. apply total_chunks_bound in Hj. lia. }
  destruct Hshape as (url & n & Hputs & Hn).
  clearbody puts. subst puts. rewrite length_fmap, length_seq.
  split; [|split].
  - intros p (i & -> & Hi%elem_of_seq)%list_elem_of_fmap.
    apply chunk_put_bounds.
    assert (HC : OneDriveUploader.chunk_size = 10485760%Z) by reflexivity.
    destruct Hn as [Hn|Hn]; [nia|lia].
  - pose proof (chunk_puts_tile_prefix F url n 0) as Ht.
    replace (Z.min F (Z.of_nat 0 * OneDriveUploader.chunk_size))
      with 0%Z in Ht by lia.
    replace (Z.of_nat 0 + Z.of_nat n)%Z with (Z.of_nat n) in Ht by lia.
    apply Ht. destruct Hn as [Hn|Hn]; [left; lia|by right].
  - destruct Hn as [Hn|Hn]; [by left|right; by rewrite Hn].
Qed.

(** ** The scheduler pass *)

(** X12. A pass of the scheduler ([process_pending_tasks], then
    [check_downloads]) on a store with every task in one bucket always runs
    to its end; afterwards [pending] is empty, every task is still in
    exactly one bucket, no task has been added, the tasks that remain have
    stayed or moved forward, and a store that was on file is on file as
    long as every write of the pass goes through. *)
Theorem scheduler_pass_drains_and_keeps_buckets {W} (E : Collaborators W)
    sv w :
  dict_ok (tasks sv) →
  one_bucket_each (tasks sv) →
  ∃ sv' w',
    run_pass E sv w = (Normal, sv', w')
    ∧ pending (tasks sv') = []
    ∧ one_bucket_each (tasks sv')
    ∧ dict_ok (tasks sv')
    ∧ all_sources (tasks sv') ⊆+ all_sources (tasks sv)
    ∧ failed (tasks sv) `prefix_of` failed (tasks sv')
    ∧ completed (tasks sv) `prefix_of` completed (tasks sv')
    ∧ trace sv `prefix_of` trace sv'
    ∧ (∀ s b b', occupies s b (tasks sv) → occupies s b' (tasks sv') →
                 forward b b')
    ∧ (∀ disk f0,
         (∀ n, length (trace sv) ≤ n → disk n = Written) →
         persisted disk f0 sv → persisted disk f0 sv').
Proof.
  intros Hok Hone. unfold run_pass.
  destruct (process_pending_tasks_spec E sv w)
    as (sv1 & w1 & Hrun1 & Hp1 & Hc1 & Hf1 & Htr1 & Hsub1 & Hok1 & Hfrom1).
  specialize (Hok1 Hok).
  destruct (check_downloads_spec E sv1 w1 Hok1)
    as (sv2 & w2 & Hrun2 & Hp2 & Hf2 & Hc2 & _ & Htr2 & Hsub2 & Hok2 & Hfrom2).
  rewrite Hrun1, Hrun2. exists sv2, w2.
  split; [done|]. split; [by rewrite Hp2|].
  assert (Hsub : all_sources (tasks sv2) ⊆+ all_sources (tasks sv))
    by (by etrans).
  split; [by eapply one_bucket_submseteq|]. split; [done|]. split; [done|].
  split; [by rewrite Hf2|]. split; [by rewrite <- Hc1|].
  split; [by etrans|]. split.
  - intros s b b'. apply comes_from_forward; [done|].
    by eapply comes_from_trans.
  - intros disk f0 Hdisk Hper.
    assert (Hper0 : on_file disk f0 (length (trace sv)) sv) by (by split).
    pose proof (run_op_persists E disk f0 (length (trace sv)) Hdisk
                  ProcessPendingTasks sv w Hok Hper0) as Hper1.
    simpl in Hper1. rewrite Hrun1 in Hper1. simpl in Hper1.
    pose proof (run_op_persists E disk f0 (length (trace sv)) Hdisk
                  CheckDownloads sv1 w1 Hok1 Hper1) as Hper2.
    simpl in Hper2. rewrite Hrun2 in Hper2. apply Hper2.
Qed.

(** ** The upload client *)

Section MonadSteps.
Import OneDriveClient.
Context {W : Type}.

Lemma bind_Return {A B} (m : M W A) (f : A → M W B) c w a c1 w1 :
  m c w = (Return a, c1, w1) → (m ≫= f) c w = f a c1 w1.
Proof. unfold mbind, M_bind. by intros ->. Qed.

Lemma bind_Raise {A B} (m : M W A) (f : A → M W B) c w e c1 w1 :
  m c w = (Raise e, c1, w1) → (m ≫= f) c w = (Raise e, c1, w1).
Proof. unfold mbind, M_bind. by intros ->. Qed.

Lemma get_token_eq c (w : W) tok :
  token c = tok → get_token c w = (Return tok, c, w).
Proof. unfold get_token. by intros ->. Qed.

End MonadSteps.

(** *** A client with a token that has not expired *)

Section ValidToken.
Import OneDriveClient.
Context {W : Type} (C : Cloud W).
Variables (t : pydict) (bearer : pyval) (expires_at : Z).
Hypothesis Haccess : dict_get "access_token" t = Some bearer.
Hypothesis Hexpires : dict_get "expires_at" t = Some (PNum expires_at).
Hypothesis Hclock : ∀ w, ((time_time C w).1 ≤ expires_at)%Z.

Lemma call_time_time c w :
  call (λ w0, let '(t0, w1) := time_time C w0 in (Return t0, w1)) c w
  = (Return (time_time C w).1, c, (time_time C w).2).
Proof. unfold call. by destruct (time_time C w). Qed.

Lemma token_truthy : truthy (PDict t) = true.
Proof. by destruct t. Qed.

(** The guard passes without a call to MSAL and leaves the client as it
    is. *)
Lemma is_authenticated_valid c w :
  token c = Some t →
  is_authenticated C c w = (Return true, c, (time_time C w).2).
Proof.
  intros Htok. unfold is_authenticated.
  rewrite (bind_Return _ _ _ _ _ _ _ (get_token_eq c w _ Htok)).
  rewrite token_truthy. unfold dict_has. rewrite Haccess, Hexpires. simpl.
  rewrite (bind_Return _ _ _ _ _ _ _ (call_time_time c w)).
  pose proof (Hclock w) as Hle.
  by replace (expires_at <? (time_time C w).1)%Z with false by lia.
Qed.

Lemma ensure_authenticated_valid c w :
  token c = Some t →
  ensure_authenticated C c w = (Return None, c, (time_time C w).2).
Proof.
  intros Htok. unfold ensure_authenticated.
  by rewrite (bind_Return _ _ _ _ _ _ _ (is_authenticated_valid c w Htok)).
Qed.

Lemma access_token_valid c (w : W) :
  token c = Some t → access_token c w = (Return bearer, c, w).
Proof.
  intros Htok. unfold access_token.
  rewrite (bind_Return _ _ _ _ _ _ _ (get_token_eq c w _ Htok)).
  unfold item. by rewrite Haccess.
Qed.

(** [get_item_by_path] is one GET. *)
Lemma get_item_by_path_valid path c w :
  token c = Some t →
  let path' := strip_slash path in
  let url := if String.eqb path' "" then DriveRoot else DriveItem path' in
  let c1 := mkClient (token c) (history c ++ [Sent (GET url bearer)]) in
  get_item_by_path C path c w
  = match request C (GET url bearer) (time_time C w).2 with
    | (Return response, w1) =>
        (Return
           (if Z.eqb (OneDriveUploader.status_code response) 200
            then OneDriveUploader.json response
            else [("error",
                   PStr ("Failed to get item at path " +:+ path' +:+ ": "
                         +:+ OneDriveUploader.str_Z
                               (OneDriveUploader.status_code response)
                         +:+ " - " +:+ OneDriveUploader.text response))]),
         c1, w1)
    | (Raise e, w1) => (Raise e, c1, w1)
    end.
Proof.
  intros Htok path' url c1. unfold get_item_by_path.
  rewrite (bind_Return _ _ _ _ _ _ _ (ensure_authenticated_valid c w Htok)).
  fold path' url.
  rewrite (bind_Return _ _ _ _ _ _ _ (access_token_valid c _ Htok)).
  unfold send, mbind, M_bind, emit, call. simpl. fold c1.
  destruct (request C (GET url bearer) (time_time C w).2) as [[response|e] w1];
    [|done].
  by destruct (Z.eqb (OneDriveUploader.status_code response) 200).
Qed.

(** [_simple_upload] is one PUT, once the file is open. *)
Lemma simple_upload_valid file_path destination_folder c w w1 :
  token c = Some t →
  open_rb C file_path w = (Return (), w1) →
  let put := PUT (ItemContent (strip_slash destination_folder)
                              (basename file_path)) bearer file_path in
  let c1 := mkClient (token c) (history c ++ [Sent put]) in
  _simple_upload C file_path destination_folder c w
  = match request C put w1 with
    | (Return response, w2) =>
        (Return
           (if OneDriveUploader.status_in [200; 201]%Z response
            then OneDriveUploader.json response
            else [("error",
                   PStr ("Failed to upload file " +:+ basename file_path
                         +:+ ": "
                         +:+ OneDriveUploader.str_Z
                               (OneDriveUploader.status_code response)
                         +:+ " - " +:+ OneDriveUploader.text response))]),
         c1, w2)
    | (Raise e, w2) => (Raise e, c1, w2)
    end.
Proof.
  intros Htok Hopen put c1. unfold _simple_upload.
  rewrite (bind_Return _ _ _ _ _ _ _ (access_token_valid c _ Htok)).
  fold put.
  unfold send, mbind, M_bind, mret, M_ret, emit, call. rewrite Hopen. simpl.
  fold c1.
  destruct (request C put w1) as [[response|e] w2]; [|done].
  by destruct (_ || _).
Qed.

(** *** The drive has every folder *)

Section Found.
Hypothesis Hfound : ∀ url w, ∃ response w',
  request C (GET url bearer) w = (Return response, w')
  ∧ OneDriveUploader.status_code response = 200%Z
  ∧ dict_has "error" (OneDriveUploader.json response) = false
  ∧ dict_has "id" (OneDriveUploader.json response) = true.

Lemma get_item_by_path_found path c w :
  token c = Some t →
  let url := if String.eqb (strip_slash path) "" then DriveRoot
             else DriveItem (strip_slash path) in
  ∃ response w',
    get_item_by_path C path c w
    = (Return (OneDriveUploader.json response),
       mkClient (token c) (history c ++ [Sent (GET url bearer)]), w')
    ∧ request C (GET url bearer) (time_time C w).2 = (Return response, w')
    ∧ OneDriveUploader.status_code response = 200%Z
    ∧ dict_has "error" (OneDriveUploader.json response) = false
    ∧ dict_has "id" (OneDriveUploader.json response) = true.
Proof.
  intros Htok url. rewrite get_item_by_path_valid by done. fold url.
  destruct (Hfound url (time_time C w).2) as (response & w' & Hreq & Hs & He & Hi).
  exists response, w'. split; [by rewrite Hreq, Hs|]. by repeat split.
Qed.

Lemma create_parts_found parts : ∀ current_path parent_id c w,
  token c = Some t →
  ∃ c' w' gets,
    create_parts C parts current_path parent_id c w = (Return None, c', w')
    ∧ token c' = Some t
    ∧ history c' = history c ++ gets
    ∧ only_gets bearer gets
    ∧ length gets = length (filter (λ p, p ≠ "") parts).
Proof.
  induction parts as [|part rest IH]; intros cur pid c w Htok.
  - exists c, w, []. rewrite app_nil_r.
    split; [done|]. split; [done|]. split; [done|]. split; [|done].
    intros ev Hin. by apply elem_of_nil in Hin.
  - cbn [create_parts]. destruct (String.eqb_spec part "") as [->|Hne].
    + destruct (IH cur pid c w Htok)
        as (c' & w' & gets & Hrun & Htok' & Hhist & Hgets & Hlen).
      exists c', w', gets. rewrite filter_cons_False by naive_solver.
      by rewrite Hrun.
    + destruct (get_item_by_path_found (cur +:+ "/" +:+ part) c w Htok)
        as (response & w1 & Hget & _ & _ & He & Hi).
      set (url := if String.eqb (strip_slash (cur +:+ "/" +:+ part)) ""
                  then DriveRoot
                  else DriveItem (strip_slash (cur +:+ "/" +:+ part))) in *.
      rewrite (bind_Return _ _ _ _ _ _ _ Hget), He.
      assert (Htruthy : truthy (PDict (OneDriveUploader.json response)) = true).
      { unfold dict_has in Hi. by destruct (OneDriveUploader.json response). }
      rewrite Htruthy. cbn [negb andb].
      unfold dict_has in Hi.
      destruct (dict_get "id" (OneDriveUploader.json response)) as [v|] eqn:Hid;
        [|done].
      unfold item at 1. rewrite Hid.
      erewrite bind_Return; [|reflexivity].
      set (c1 := mkClient (token c) (history c ++ [Sent (GET url bearer)])).
      destruct (IH (cur +:+ "/" +:+ part) v c1 w1 Htok)
        as (c' & w' & gets & Hrun & Htok' & Hhist & Hgets & Hlen).
      exists c', w', (Sent (GET url bearer) :: gets). rewrite Hrun.
      split; [done|]. split; [done|]. split.
      { rewrite Hhist. simpl. by rewrite <- app_assoc. }
      split.
      { intros ev [->|Hin]%elem_of_cons; [by exists url|by apply Hgets]. }
      rewrite filter_cons_True by done. simpl. by rewrite Hlen.
Qed.

Lemma create_folder_found folder_path c w :
  token c = Some t →
  let url := if String.eqb (strip_slash (strip_slash folder_path)) ""
             then DriveRoot
             else DriveItem (strip_slash (strip_slash folder_path)) in
  ∃ response c' w0 w' gets,
    create_folder C folder_path c w
    = (Return (OneDriveUploader.json response), c', w')
    ∧ request C (GET url bearer) w0 = (Return response, w')
    ∧ OneDriveUploader.status_code response = 200%Z
    ∧ dict_has "error" (OneDriveUploader.json response) = false
    ∧ token c' = Some t
    ∧ history c' = history c ++ gets ++ [Sent (GET url bearer)]
    ∧ only_gets bearer gets
    ∧ length gets
      = length (filter (λ p, p ≠ "")
                  (split_slash (strip_slash folder_path))).
Proof.
  intros Htok url. unfold create_folder.
  rewrite (bind_Return _ _ _ _ _ _ _ (ensure_authenticated_valid c w Htok)).
  destruct (create_parts_found (split_slash (strip_slash folder_path))
              "" PNone c (time_time C w).2 Htok)
    as (c1 & w1 & gets & Hrun & Htok1 & Hhist1 & Hgets & Hlen).
  rewrite (bind_Return _ _ _ _ _ _ _ Hrun).
  destruct (get_item_by_path_found (strip_slash folder_path) c1 w1 Htok1)
    as (response & w2 & Hget & Hreq & Hs & He & Hi).
  fold url in Hget, Hreq. rewrite Hget.
  exists response,
    (mkClient (token c1) (history c1 ++ [Sent (GET url bearer)])),
    (time_time C w1).2, w2, gets.
  split; [done|]. split; [done|]. split; [done|]. split; [done|].
  split; [done|]. split; [|done].
  simpl. by rewrite Hhist1, <- app_assoc.
Qed.

(** [upload_file] passes the guard, finds the destination folder, and hands
    the file to one of the two uploads, by its size. *)
Lemma upload_file_found default_folder file_path dest c w n :
  token c = Some t →
  (∀ w, ∃ w', getsize C file_path w = (Return n, w')) →
  ∃ c1 w1 gets,
    token c1 = Some t
    ∧ history c1 = history c ++ gets
    ∧ only_gets bearer gets
    ∧ ∀ chunked,
        upload_file C default_folder chunked file_path dest c w
        = if (n <=? 4 * 1024 * 1024)%Z
          then _simple_upload C file_path (or_default default_folder dest)
                 c1 w1
          else chunked file_path (or_default default_folder dest) c1 w1.
Proof.
  intros Htok Hsize.
  destruct (create_folder_found (or_default default_folder dest) c
              (time_time C w).2 Htok)
    as (response & c1 & w0 & w1 & gets & Hrun & _ & _ & He & Htok1 & Hhist
        & Hgets & _).
  destruct (Hsize w1) as (w2 & Hn).
  eexists c1, w2, (gets ++ [_]). split; [done|].
  split; [exact Hhist|]. split.
  { intros ev [Hin|Hin%list_elem_of_singleton]%elem_of_app;
      [by apply Hgets|by eexists]. }
  intros chunked. unfold upload_file.
  rewrite (bind_Return _ _ _ _ _ _ _ (ensure_authenticated_valid c w Htok)).
  cbv zeta.
  rewrite (bind_Return _ _ _ _ _ _ _ Hrun), He.
  unfold mbind at 1, M_bind, call. rewrite Hn.
  by destruct (n <=? 4 * 1024 * 1024)%Z.
Qed.

End Found.

(** *** The drive has no folder and lets none be created *)

Section Locked.
Hypothesis Hmissing : ∀ url w, ∃ response w',
  request C (GET url bearer) w = (Return response, w')
  ∧ OneDriveUploader.status_code response ≠ 200%Z.
Hypothesis Hdenied : ∀ url data w, ∃ response w',
  request C (POST url bearer data) w = (Return response, w')
  ∧ OneDriveUploader.status_code response ≠ 201%Z.

Lemma create_folder_locked folder_path part rest c w :
  token c = Some t →
  split_slash (strip_slash folder_path) = part :: rest →
  part ≠ "" →
  ∃ response c' w',
    create_folder C folder_path c w
    = (Return [("error",
                PStr ("Failed to create folder /" +:+ part +:+ ": "
                      +:+ OneDriveUploader.str_Z
                            (OneDriveUploader.status_code response)
                      +:+ " - " +:+ OneDriveUploader.text response))],
       c', w')
    ∧ OneDriveUploader.status_code response ≠ 201%Z
    ∧ token c' = Some t
    ∧ history c'
      = history c ++ [Sent (GET (DriveItem part) bearer);
                      Sent (POST DriveItems bearer (folder_data part))].
Proof.
  intros Htok Hsplit Hpart. unfold create_folder.
  rewrite (bind_Return _ _ _ _ _ _ _ (ensure_authenticated_valid c w Htok)).
  rewrite Hsplit. cbn [create_parts].
  apply String.eqb_neq in Hpart as Hpart'. rewrite Hpart'.
  change ("" +:+ "/" +:+ part) with (String "/"%char part).
  set (w0 := (time_time C w).2).
  pose proof (get_item_by_path_valid (String "/"%char part) c w0 Htok) as Hget.
  cbn [strip_slash] in Hget. rewrite Hpart' in Hget. cbv zeta in Hget.
  destruct (Hmissing (DriveItem part) (time_time C w0).2)
    as (missing & w1 & Hreq & Hs).
  rewrite Hreq in Hget. apply Z.eqb_neq in Hs. rewrite Hs in Hget.
  set (c1 := mkClient (token c)
               (history c ++ [Sent (GET (DriveItem part) bearer)])) in *.
  assert (Htok1 : token c1 = Some t) by done.
  destruct (Hdenied DriveItems (folder_data part) w1)
    as (response & w2 & Hpost & Hs2).
  exists response,
    (mkClient (token c1)
       (history c1 ++ [Sent (POST DriveItems bearer (folder_data part))])), w2.
  split.
  - erewrite bind_Return; last first.
    { erewrite bind_Return; [|exact Hget].
      cbn [truthy dict_has dict_get String.eqb andb negb].
      cbn -[access_token send mbind].
      rewrite (bind_Return _ _ _ _ _ _ _ (access_token_valid c1 w1 Htok1)).
      unfold send, mbind, M_bind, emit, call. simpl.
      rewrite Hpost. apply Z.eqb_neq in Hs2. rewrite Hs2. reflexivity. }
    done.
  - split; [done|]. split; [done|]. simpl. by rewrite <- app_assoc.
Qed.

End Locked.

End ValidToken.

(** X13. With a token that has not expired, [create_folder] for a path of
    which the drive has every folder creates nothing: it sends one GET for
    each segment of the path that is not empty and then one for the whole
    path, no POST, and returns the JSON body of the answer to that last
    GET. *)
Theorem create_folder_existing_path_creates_nothing {W}
    (C : OneDriveClient.Cloud W) t bearer expires_at folder_path c w :
  dict_get "access_token" t = Some bearer →
  dict_get "expires_at" t = Some (PNum expires_at) →
  (∀ w, ((OneDriveClient.time_time C w).1 ≤ expires_at)%Z) →
  (∀ url w, ∃ response w',
     OneDriveClient.request C (OneDriveClient.GET url bearer) w
     = (Return response, w')
     ∧ OneDriveUploader.status_code response = 200%Z
     ∧ dict_has "error" (OneDriveUploader.json response) = false
     ∧ dict_has "id" (OneDriveUploader.json response) = true) →
  OneDriveClient.token c = Some t →
  ∃ response c' w0 w' gets,
    OneDriveClient.create_folder C folder_path c w
    = (Return (OneDriveUploader.json response), c', w')
    ∧ OneDriveClient.request C
        (OneDriveClient.GET
           (if String.eqb
                 (OneDriveClient.strip_slash
                    (OneDriveClient.strip_slash folder_path)) ""
            then OneDriveClient.DriveRoot
            else OneDriveClient.DriveItem
                   (OneDriveClient.strip_slash
                      (OneDriveClient.strip_slash folder_path)))
           bearer) w0
      = (Return response, w')
    ∧ OneDriveClient.token c' = Some t
    ∧ OneDriveClient.history c'
      = OneDriveClient.history c ++ gets
        ++ [OneDriveClient.Sent
              (OneDriveClient.GET
                 (if String.eqb
                       (OneDriveClient.strip_slash
                          (OneDriveClient.strip_slash folder_path)) ""
                  then OneDriveClient.DriveRoot
                  else OneDriveClient.DriveItem
                         (OneDriveClient.strip_slash
                            (OneDriveClient.strip_slash folder_path)))
                 bearer)]
    ∧ OneDriveClient.only_gets bearer gets
    ∧ length gets
      = length (filter (λ p, p ≠ "")
                  (OneDriveClient.split_slash
                     (OneDriveClient.strip_slash folder_path))).
Proof.
  intros Haccess Hexpires Hclock Hfound Htok.
  destruct (create_folder_found C t bearer expires_at Haccess Hexpires Hclock
              Hfound folder_path c w Htok)
    as (response & c' & w0 & w' & gets & Hrun & Hreq & _ & _ & Htok' & Hhist
        & Hgets & Hlen).
  by exists response, c', w0, w', gets.
Qed.

(** X14. With a token that has not expired, on a drive where the first
    folder of the destination path is not found and may not be created,
    [upload_file] returns the error dict of the failed creation; it has
    sent the GET and the POST for that folder and nothing else: the later
    folders are not tried and no file content is sent. *)
Theorem upload_file_stops_when_folder_is_refused {W}
    (C : OneDriveClient.Cloud W) t bearer expires_at
    default_folder chunked file_path dest part rest c w :
  dict_get "access_token" t = Some bearer →
  dict_get "expires_at" t = Some (PNum expires_at) →
  (∀ w, ((OneDriveClient.time_time C w).1 ≤ expires_at)%Z) →
  (∀ url w, ∃ response w',
     OneDriveClient.request C (OneDriveClient.GET url bearer) w
     = (Return response, w')
     ∧ OneDriveUploader.status_code response ≠ 200%Z) →
  (∀ url data w, ∃ response w',
     OneDriveClient.request C (OneDriveClient.POST url bearer data) w
     = (Return response, w')
     ∧ OneDriveUploader.status_code response ≠ 201%Z) →
  OneDriveClient.token c = Some t →
  OneDriveClient.split_slash
    (OneDriveClient.strip_slash
       (OneDriveClient.or_default default_folder dest)) = part :: rest →
  part ≠ "" →
  ∃ response c' w',
    OneDriveClient.upload_file C default_folder chunked file_path dest c w
    = (Return [("error",
                PStr ("Failed to create folder /" +:+ part +:+ ": "
                      +:+ OneDriveUploader.str_Z
                            (OneDriveUploader.status_code response)
                      +:+ " - " +:+ OneDriveUploader.text response))],
       c', w')
    ∧ OneDriveUploader.status_code response ≠ 201%Z
    ∧ OneDriveClient.history c'
      = OneDriveClient.history c
        ++ [OneDriveClient.Sent
              (OneDriveClient.GET (OneDriveClient.DriveItem part) bearer);
            OneDriveClient.Sent
              (OneDriveClient.POST OneDriveClient.DriveItems bearer
                 (OneDriveClient.folder_data part))].
Proof.
  intros Haccess Hexpires Hclock Hmissing Hdenied Htok Hsplit Hpart.
  unfold OneDriveClient.upload_file.
  rewrite (bind_Return _ _ _ _ _ _ _
             (ensure_authenticated_valid C t bearer expires_at
                Haccess Hexpires Hclock c w Htok)).
  cbv zeta.
  destruct (create_folder_locked C t bearer expires_at Haccess Hexpires Hclock
              Hmissing Hdenied
              (OneDriveClient.or_default default_folder dest) part rest c
              (OneDriveClient.time_time C w).2 Htok Hsplit Hpart)
    as (response & c' & w' & Hrun & Hs & _ & Hhist).
  rewrite (bind_Return _ _ _ _ _ _ _ Hrun).
  exists response, c', w'. done.
Qed.

(** X15. With a token that has not expired and the destination folder on
    the drive, [upload_file] uploads a file of at most 4 MiB with a single
    PUT of its content, after the GETs that look the folder up; the result
    is made of the answer to that PUT: its JSON body for a 200 or 201, and
    the error dict of the failed upload, with its status and its text, for
    any other status. *)
Theorem upload_file_small_file_is_one_put {W}
    (C : OneDriveClient.Cloud W) t bearer expires_at
    default_folder chunked file_path dest n c w :
  dict_get "access_token" t = Some bearer →
  dict_get "expires_at" t = Some (PNum expires_at) →
  (∀ w, ((OneDriveClient.time_time C w).1 ≤ expires_at)%Z) →
  (∀ url w, ∃ response w',
     OneDriveClient.request C (OneDriveClient.GET url bearer) w
     = (Return response, w')
     ∧ OneDriveUploader.status_code response = 200%Z
     ∧ dict_has "error" (OneDriveUploader.json response) = false
     ∧ dict_has "id" (OneDriveUploader.json response) = true) →
  (∀ w, ∃ w', OneDriveClient.getsize C file_path w = (Return n, w')) →
  (∀ w, ∃ w', OneDriveClient.open_rb C file_path w = (Return (), w')) →
  (∀ r w, ∃ response w',
     OneDriveClient.request C r w = (Return response, w')) →
  (n ≤ 4 * 1024 * 1024)%Z →
  OneDriveClient.token c = Some t →
  ∃ response c' w0 w' gets,
    OneDriveClient.upload_file C default_folder chunked file_path dest c w
    = (Return
         (if OneDriveUploader.status_in [200; 201]%Z response
          then OneDriveUploader.json response
          else [("error",
                 PStr ("Failed to upload file " +:+ basename file_path
                       +:+ ": "
                       +:+ OneDriveUploader.str_Z
                             (OneDriveUploader.status_code response)
                       +:+ " - " +:+ OneDriveUploader.text response))]),
       c', w')
    ∧ OneDriveClient.request C
        (OneDriveClient.PUT
           (OneDriveClient.ItemContent
              (OneDriveClient.strip_slash
                 (OneDriveClient.or_default default_folder dest))
              (basename file_path))
           bearer file_path) w0
      = (Return response, w')
    ∧ OneDriveClient.only_gets bearer gets
    ∧ OneDriveClient.history c'
      = OneDriveClient.history c ++ gets
        ++ [OneDriveClient.Sent
              (OneDriveClient.PUT
                 (OneDriveClient.ItemContent
                    (OneDriveClient.strip_slash
                       (OneDriveClient.or_default default_folder dest))
                    (basename file_path))
                 bearer file_path)].
Proof.
  intros Haccess Hexpires Hclock Hfound Hsize Hopen Hput Hsmall Htok.
  destruct (upload_file_found C t bearer expires_at Haccess Hexpires Hclock
              Hfound default_folder file_path dest c w n Htok Hsize)
    as (c1 & w1 & gets & Htok1 & Hhist & Hgets & Hrun).
  rewrite (Hrun chunked).
  replace (n <=? 4 * 1024 * 1024)%Z with true by lia.
  destruct (Hopen w1) as (w2 & Hw2).
  rewrite (simple_upload_valid C t bearer Haccess file_path _ c1 w1 w2 Htok1 Hw2).
  set (put := OneDriveClient.PUT _ _ _).
  destruct (Hput put w2) as (response & w3 & Hreq). rewrite Hreq.
  eexists response, _, w2, w3, gets. split; [done|]. split; [done|].
  split; [done|]. simpl. by rewrite Hhist, <- app_assoc.
Qed.

(** X16. With a token that has not expired and the destination folder on
    the drive, [upload_file] chooses the upload by the size of the file
    alone: after GETs only and with the token it started with, a file of
    more than 4 MiB is handed to [_chunked_upload] and a file of 4 MiB or
    less to [_simple_upload], whatever [_chunked_upload] is; so the chunked
    upload is entered with no file of 4 MiB or less. *)
Theorem upload_file_large_file_is_chunked {W}
    (C : OneDriveClient.Cloud W) t bearer expires_at
    default_folder file_path dest n c w :
  dict_get "access_token" t = Some bearer →
  dict_get "expires_at" t = Some (PNum expires_at) →
  (∀ w, ((OneDriveClient.time_time C w).1 ≤ expires_at)%Z) →
  (∀ url w, ∃ response w',
     OneDriveClient.request C (OneDriveClient.GET url bearer) w
     = (Return response, w')
     ∧ OneDriveUploader.status_code response = 200%Z
     ∧ dict_has "error" (OneDriveUploader.json response) = false
     ∧ dict_has "id" (OneDriveUploader.json response) = true) →
  (∀ w, ∃ w', OneDriveClient.getsize C file_path w = (Return n, w')) →
  OneDriveClient.token c = Some t →
  ∃ c1 w1 gets,
    OneDriveClient.token c1 = Some t
    ∧ OneDriveClient.history c1 = OneDriveClient.history c ++ gets
    ∧ OneDriveClient.only_gets bearer gets
    ∧ ∀ chunked,
        ((4 * 1024 * 1024 < n)%Z →
         OneDriveClient.upload_file C default_folder chunked file_path dest
           c w
         = chunked file_path (OneDriveClient.or_default default_folder dest)
             c1 w1)
        ∧ ((n ≤ 4 * 1024 * 1024)%Z →
           OneDriveClient.upload_file C default_folder chunked file_path dest
             c w
           = OneDriveClient._simple_upload C file_path
               (OneDriveClient.or_default default_folder dest) c1 w1).
Proof.
  intros Haccess Hexpires Hclock Hfound Hsize Htok.
  destruct (upload_file_found C t bearer expires_at Haccess Hexpires Hclock
              Hfound default_folder file_path dest c w n Htok Hsize)
    as (c1 & w1 & gets & Htok1 & Hhist & Hgets & Hrun).
  exists c1, w1, gets. split; [done|]. split; [done|]. split; [done|].
  intros chunked. rewrite (Hrun chunked). split; intros Hn.
  - by replace (n <=? 4 * 1024 * 1024)%Z with false by lia.
  - by replace (n <=? 4 * 1024 * 1024)%Z with true by lia.
Qed.

(** X17. A token without ['expires_at'] counts as expired at any time
    after the epoch. With such a token and no account in the MSAL cache,
    [is_authenticated] answers [False] although the token holds an access
    token, and the guard of [create_folder], [get_item_by_path] and
    [upload_file] runs the device flow: its outcome is the outcome of
    [authenticate_device_flow]. *)
Theorem token_without_expiry_runs_device_flow {W}
    (C : OneDriveClient.Cloud W) t c w :
  dict_has "access_token" t = true →
  dict_get "expires_at" t = None →
  (∀ w, (0 < (OneDriveClient.time_time C w).1)%Z) →
  (∀ w, ∃ w', OneDriveClient.get_accounts C w = (Return [], w')) →
  OneDriveClient.token c = Some t →
  (∃ w1, OneDriveClient.is_authenticated C c w = (Return false, c, w1))
  ∧ ∃ w2,
      OneDriveClient.ensure_authenticated C c w
      = match OneDriveClient.authenticate_device_flow C c w2 with
        | (Return ok, c', w') =>
            (Return (if ok then None
                     else Some OneDriveClient.authentication_failed), c', w')
        | (Raise e, c', w') => (Raise e, c', w')
        end.
Proof.
  intros Haccess Hexpires Hclock Hnone Htok.
  assert (Htruthy : truthy (PDict t) = true).
  { unfold dict_has in Haccess. by destruct t. }
  assert (Hsilent : ∀ w0, ∃ w1,
    OneDriveClient._acquire_token_silently C c w0 = (Return None, c, w1)).
  { intros w0. unfold OneDriveClient._acquire_token_silently.
    rewrite (bind_Return _ _ _ _ _ _ _ (get_token_eq c w0 _ Htok)).
    change (default PNone (PDict <$> Some t)) with (PDict t).
    rewrite Htruthy. cbn [negb].
    destruct (Hnone w0) as (w1 & Hacc). exists w1.
    unfold mbind, OneDriveClient.M_bind, OneDriveClient.call.
    by rewrite Hacc. }
  assert (Hauth : ∃ w1,
    OneDriveClient.is_authenticated C c w = (Return false, c, w1)).
  { unfold OneDriveClient.is_authenticated.
    rewrite (bind_Return _ _ _ _ _ _ _ (get_token_eq c w _ Htok)).
    rewrite Htruthy, Haccess, Hexpires. simpl.
    rewrite (bind_Return _ _ _ _ _ _ _ (call_time_time C c w)).
    pose proof (Hclock w) as Hpos.
    replace (0 <? (OneDriveClient.time_time C w).1)%Z with true by lia.
    destruct (Hsilent (OneDriveClient.time_time C w).2) as (w1 & Hs).
    exists w1. by rewrite (bind_Return _ _ _ _ _ _ _ Hs). }
  split; [done|].
  destruct Hauth as (w1 & Hauth).
  destruct (Hsilent w1) as (w2 & Hs). exists w2.
  unfold OneDriveClient.ensure_authenticated.
  rewrite (bind_Return _ _ _ _ _ _ _ Hauth).
  unfold OneDriveClient.authenticate.
  unfold mbind at 1, OneDriveClient.M_bind at 1.
  rewrite (bind_Return _ _ _ _ _ _ _ Hs).
  destruct (OneDriveClient.authenticate_device_flow C c w2)
    as [[[ok|e] c'] w']; [|done].
  by destruct ok.
Qed.

(** ** The Transmission adapter *)

Lemma dict_get_app_ne {A} k k' (v : A) pre post :
  k' ≠ k →
  dict_get k' (pre ++ (k, v) :: post) = dict_get k' (pre ++ post).
Proof.
  intros Hne. induction pre as [|[k2 v2] pre IH]; simpl.
  - by apply not_eq_sym, String.eqb_neq in Hne as ->.
  - by rewrite IH.
Qed.

(** Deleting a key of a dict with distinct keys. *)
Lemma dict_del_get {A} k (v : A) d :
  NoDup d.*1 → dict_get k d = Some v →
  ∃ d', dict_del k d = Some d'
        ∧ dict_get k d' = None
        ∧ (∀ k', k' ≠ k → dict_get k' d' = dict_get k' d)
        ∧ NoDup d'.*1
        ∧ (∀ d0, d = d0 ++ [(k, v)] → d' = d0).
Proof.
  intros Hnd Hget.
  destruct (dict_get_split k v d Hget) as (pre & post & Hd & Hpre).
  exists (pre ++ post).
  assert (Hdel : dict_del k d = Some (pre ++ post))
    by (by rewrite Hd, dict_del_entry).
  split; [done|].
  assert (Hlast : ∀ d0, d = d0 ++ [(k, v)] → pre ++ post = d0).
  { intros d0 Heq. rewrite Heq in Hdel, Hnd.
    rewrite fmap_app in Hnd. apply NoDup_app in Hnd as (_ & Hdisj & _).
    rewrite dict_del_entry in Hdel.
    - rewrite app_nil_r in Hdel. by injection Hdel.
    - intros Hin. apply (Hdisj k Hin). simpl. by left. }
  rewrite Hd, fmap_app in Hnd. simpl in Hnd.
  apply NoDup_app in Hnd as (Hnd1 & Hdisj & Hnd2).
  apply NoDup_cons in Hnd2 as [Hpost Hnd2].
  split; [|split; [|split]].
  - apply dict_get_None. rewrite fmap_app. by apply not_elem_of_app.
  - intros k' Hne. by rewrite Hd, dict_get_app_ne.
  - rewrite fmap_app. apply NoDup_app. split; [done|]. split; [|done].
    intros x Hx Hx'. apply (Hdisj x Hx). by right.
  - done.
Qed.


(** X19. When [add_torrent] returns an info hash, it is the [hashString]
    that the daemon answered, and it is registered in [self.handles] with
    the [id] of that answer, the other handles staying as they were. A
    following [remove_torrent] of the hash, when the daemon knows the
    transfer and removes it, forgets it again: the hash is unknown
    afterwards, the other handles are as before the transfer was added, a
    second [remove_torrent] answers [False] without calling the daemon, and
    for a hash that was new the dict is back to what it was. *)
Theorem add_then_remove_torrent_forgets {S}
    (D : TransmissionAdapter.Daemon S) download_dir src remove_files
    handles s k handles1 s1 :
  NoDup handles.*1 →
  TransmissionAdapter.add_torrent D download_dir src handles s
  = (Return k, handles1, s1) →
  ∃ torrent s0 added,
    TransmissionAdapter.session_add_torrent D torrent download_dir s0
    = (Return added, s1)
    ∧ k = TransmissionAdapter.hashString added
    ∧ dict_get k handles1 = Some (TransmissionAdapter.id added)
    ∧ (∀ k', k' ≠ k → dict_get k' handles1 = dict_get k' handles)
    ∧ NoDup handles1.*1
    ∧ ∀ found s2 s3,
        TransmissionAdapter.session_get_torrent D
          (TransmissionAdapter.id added) s1 = (Return found, s2) →
        TransmissionAdapter.session_remove_torrent D
          (TransmissionAdapter.id added) remove_files s2 = (Return (), s3) →
        ∃ handles2,
          TransmissionAdapter.remove_torrent D k remove_files handles1 s1
          = (Return true, handles2, s3)
          ∧ dict_get k handles2 = None
          ∧ (∀ k', k' ≠ k → dict_get k' handles2 = dict_get k' handles)
          ∧ NoDup handles2.*1
          ∧ (k ∉ handles.*1 → handles2 = handles)
          ∧ TransmissionAdapter.remove_torrent D k remove_files handles2 s3
            = (Return false, handles2, s3).
Proof.
  intros Hnd Hadd.
  assert (Hset : ∃ torrent s0 added,
    TransmissionAdapter.session_add_torrent D torrent download_dir s0
    = (Return added, s1)
    ∧ k = TransmissionAdapter.hashString added
    ∧ handles1 = dict_set k (TransmissionAdapter.id added) handles).
  { unfold TransmissionAdapter.add_torrent in Hadd.
    destruct (String.prefix "magnet:" src).
    - destruct (TransmissionAdapter.session_add_torrent D
                  (TransmissionAdapter.Link src) download_dir s)
        as [[added|e] s0'] eqn:Hsession; [|done].
      injection Hadd as <- <- <-. by eexists _, _, _.
    - destruct (TransmissionAdapter.read_file D src s)
        as [[torrent_data|e] s0]; [|done].
      destruct (TransmissionAdapter.session_add_torrent D
                  (TransmissionAdapter.Data torrent_data) download_dir s0)
        as [[added|e] s0'] eqn:Hsession; [|done].
      injection Hadd as <- <- <-. by eexists _, _, _. }
  destruct Hset as (torrent & s0 & added & Hsession & -> & ->).
  exists torrent, s0, added. split; [done|]. split; [done|].
  split; [apply dict_get_set_eq|].
  split; [intros k' Hne; by apply dict_get_set_ne|].
  split; [by apply dict_set_keys_NoDup|].
  intros found s2 s3 Hknown Hremoved.
  destruct (dict_del_get (TransmissionAdapter.hashString added)
              (TransmissionAdapter.id added)
              (dict_set (TransmissionAdapter.hashString added)
                 (TransmissionAdapter.id added) handles))
    as (handles2 & Hdel & Hnone & Hothers & Hnd2 & Hnew);
    [by apply dict_set_keys_NoDup|apply dict_get_set_eq|].
  exists handles2. split; [|split; [done|split; [|split; [done|split]]]].
  - unfold TransmissionAdapter.remove_torrent.
    by rewrite dict_get_set_eq, Hknown, Hremoved, Hdel.
  - intros k' Hne. by rewrite Hothers, dict_get_set_ne.
  - intros Hni. apply Hnew. by apply dict_set_new.
  - unfold TransmissionAdapter.remove_torrent. by rewrite Hnone.
Qed.

Lemma chunked_upload_first_other_answer_decides_witness :
  OneDriveUploader._chunked_upload "show.mkv" 26214400 (Return Demo.session)
    Drive.rejecting
  = (OneDriveUploader.chunk_put 26214400 (PStr "https://upload") <$> seq 0 2,
     Return [("error",
              PStr "Failed chunk upload for file show.mkv: 507 - full")]).
Proof.
  apply (chunked_upload_first_other_answer_decides "show.mkv" 26214400
           Demo.session (PStr "https://upload") Drive.rejecting 1).
  - reflexivity.
  - reflexivity.
  - reflexivity.
  - intros i Hi. assert (i = 0) as -> by lia. eexists. split; reflexivity.
  - intros r [= <-]. discriminate.
Defined.

Lemma chunked_upload_success_is_confirmed_witness :
  ∃ s (j : nat) r,
    Return Demo.session = Return s
    ∧ OneDriveUploader.status_code s = 200%Z
    ∧ (Z.of_nat j * OneDriveUploader.chunk_size < 26214400)%Z
    ∧ Drive.confirming j = Return r
    ∧ OneDriveUploader.status_in [200; 201]%Z r = true
    ∧ [("id", PStr "file-1")] = OneDriveUploader.json r
    ∧ length (OneDriveUploader._chunked_upload "show.mkv" 26214400
                (Return Demo.session) Drive.confirming).1 = S j
    ∧ ∀ i, i < j →
           ∃ r', Drive.confirming i = Return r'
                 ∧ OneDriveUploader.status_code r' = 202%Z.
Proof.
  apply (chunked_upload_success_is_confirmed "show.mkv" 26214400
           (Return Demo.session) Drive.confirming [("id", PStr "file-1")]).
  - reflexivity.
  - reflexivity.
Defined.

Lemma chunked_upload_puts_stay_in_file_witness :
  let puts := (OneDriveUploader._chunked_upload "show.mkv" 26214400
                 (Return Demo.session) Drive.rejecting).1 in
  (∀ p, p ∈ puts →
        (0 ≤ OneDriveUploader.range_start p)%Z
        ∧ (OneDriveUploader.range_start p ≤ OneDriveUploader.range_end p)%Z
        ∧ (OneDriveUploader.range_end p < 26214400)%Z
        ∧ (1 ≤ OneDriveUploader.content_length p)%Z
        ∧ (OneDriveUploader.content_length p ≤ OneDriveUploader.chunk_size)%Z
        ∧ OneDriveUploader.range_total p = 26214400%Z)
  ∧ OneDriveUploader.tiles 0 puts
      (Z.min 26214400
         (Z.of_nat (length puts) * OneDriveUploader.chunk_size))
  ∧ ((Z.of_nat (length puts) - 1) * OneDriveUploader.chunk_size < 26214400
     ∨ puts = [])%Z.
Proof.
  apply (chunked_upload_puts_stay_in_file "show.mkv" 26214400
           (Return Demo.session) Drive.rejecting).
  lia.
Defined.

Lemma scheduler_pass_drains_and_keeps_buckets_witness :
  ∃ sv' w',
    run_pass Demo.world Demo.three_pending 0 = (Normal, sv', w')
    ∧ pending (tasks sv') = []
    ∧ one_bucket_each (tasks sv')
    ∧ dict_ok (tasks sv')
    ∧ all_sources (tasks sv') ⊆+ all_sources (tasks Demo.three_pending)
    ∧ failed (tasks Demo.three_pending) `prefix_of` failed (tasks sv')
    ∧ completed (tasks Demo.three_pending) `prefix_of` completed (tasks sv')
    ∧ trace Demo.three_pending `prefix_of` trace sv'
    ∧ (∀ s b b', occupies s b (tasks Demo.three_pending) →
                 occupies s b' (tasks sv') → forward b b')
    ∧ (∀ disk f0,
         (∀ n, length (trace Demo.three_pending) ≤ n → disk n = Written) →
         persisted disk f0 Demo.three_pending → persisted disk f0 sv').
Proof.
  apply (scheduler_pass_drains_and_keeps_buckets Demo.world
           Demo.three_pending 0).
  - unfold dict_ok. decide_now.
  - unfold one_bucket_each. decide_now.
Defined.

Lemma create_folder_existing_path_creates_nothing_witness :
  ∃ response c' w0 w' gets,
    OneDriveClient.create_folder Drive.full "/BTDownloads/show"
      Drive.signed_in 0
    = (Return (OneDriveUploader.json response), c', w')
    ∧ OneDriveClient.request Drive.full
        (OneDriveClient.GET (OneDriveClient.DriveItem "BTDownloads/show")
           (PStr "secret")) w0
      = (Return response, w')
    ∧ OneDriveClient.token c' = Some Drive.good_token
    ∧ OneDriveClient.history c'
      = OneDriveClient.history Drive.signed_in ++ gets
        ++ [OneDriveClient.Sent
              (OneDriveClient.GET
                 (OneDriveClient.DriveItem "BTDownloads/show")
                 (PStr "secret"))]
    ∧ OneDriveClient.only_gets (PStr "secret") gets
    ∧ length gets = 2.
Proof.
  apply (create_folder_existing_path_creates_nothing Drive.full
           Drive.good_token (PStr "secret") 1000 "/BTDownloads/show"
           Drive.signed_in 0).
  - reflexivity.
  - reflexivity.
  - intros w. simpl. lia.
  - intros url w. eexists _, _. split; [reflexivity|]. by repeat split.
  - reflexivity.
Defined.

Lemma upload_file_stops_when_folder_is_refused_witness :
  ∃ response c' w',
    OneDriveClient.upload_file Drive.locked "/BTDownloads" Drive.chunked
      "/downloads/a.srt" None Drive.signed_in 0
    = (Return [("error",
                PStr ("Failed to create folder /" +:+ "BTDownloads" +:+ ": "
                      +:+ OneDriveUploader.str_Z
                            (OneDriveUploader.status_code response)
                      +:+ " - " +:+ OneDriveUploader.text response))],
       c', w')
    ∧ OneDriveUploader.status_code response ≠ 201%Z
    ∧ OneDriveClient.history c'
      = OneDriveClient.history Drive.signed_in
        ++ [OneDriveClient.Sent
              (OneDriveClient.GET (OneDriveClient.DriveItem "BTDownloads")
                 (PStr "secret"));
            OneDriveClient.Sent
              (OneDriveClient.POST OneDriveClient.DriveItems (PStr "secret")
                 (OneDriveClient.folder_data "BTDownloads"))].
Proof.
  apply (upload_file_stops_when_folder_is_refused Drive.locked
           Drive.good_token (PStr "secret") 1000 "/BTDownloads" Drive.chunked
           "/downloads/a.srt" None "BTDownloads" [] Drive.signed_in 0).
  - reflexivity.
  - reflexivity.
  - intros w. simpl. lia.
  - intros url w. eexists _, _. split; [reflexivity|]. discriminate.
  - intros url data w. eexists _, _. split; [reflexivity|]. discriminate.
  - reflexivity.
  - reflexivity.
  - discriminate.
Defined.

Lemma upload_file_small_file_is_one_put_witness :
  ∃ response c' w0 w' gets,
    OneDriveClient.upload_file Drive.full "/BTDownloads" Drive.chunked
      "/downloads/a.srt" None Drive.signed_in 0
    = (Return
         (if OneDriveUploader.status_in [200; 201]%Z response
          then OneDriveUploader.json response
          else [("error",
                 PStr ("Failed to upload file " +:+ "a.srt" +:+ ": "
                       +:+ OneDriveUploader.str_Z
                             (OneDriveUploader.status_code response)
                       +:+ " - " +:+ OneDriveUploader.text response))]),
       c', w')
    ∧ OneDriveClient.request Drive.full
        (OneDriveClient.PUT
           (OneDriveClient.ItemContent "BTDownloads" "a.srt")
           (PStr "secret") "/downloads/a.srt") w0
      = (Return response, w')
    ∧ OneDriveClient.only_gets (PStr "secret") gets
    ∧ OneDriveClient.history c'
      = OneDriveClient.history Drive.signed_in ++ gets
        ++ [OneDriveClient.Sent
              (OneDriveClient.PUT
                 (OneDriveClient.ItemContent "BTDownloads" "a.srt")
                 (PStr "secret") "/downloads/a.srt")].
Proof.
  apply (upload_file_small_file_is_one_put Drive.full Drive.good_token
           (PStr "secret") 1000 "/BTDownloads" Drive.chunked
           "/downloads/a.srt" None 1024 Drive.signed_in 0).
  - reflexivity.
  - reflexivity.
  - intros w. simpl. lia.
  - intros url w. eexists _, _. split; [reflexivity|]. by repeat split.
  - intros w. eexists. reflexivity.
  - intros w. eexists. reflexivity.
  - intros r w. eexists _, _. reflexivity.
  - lia.
  - reflexivity.
Defined.

Lemma upload_file_large_file_is_chunked_witness :
  ∃ c1 w1 gets,
    OneDriveClient.token c1 = Some Drive.good_token
    ∧ OneDriveClient.history c1
      = OneDriveClient.history Drive.signed_in ++ gets
    ∧ OneDriveClient.only_gets (PStr "secret") gets
    ∧ ∀ chunked,
        ((4 * 1024 * 1024 < 26214400)%Z →
         OneDriveClient.upload_file Drive.full "/BTDownloads" chunked
           "/downloads/show.mkv" None Drive.signed_in 0
         = chunked "/downloads/show.mkv"
             (OneDriveClient.or_default "/BTDownloads" None) c1 w1)
        ∧ ((26214400 ≤ 4 * 1024 * 1024)%Z →
           OneDriveClient.upload_file Drive.full "/BTDownloads" chunked
             "/downloads/show.mkv" None Drive.signed_in 0
           = OneDriveClient._simple_upload Drive.full "/downloads/show.mkv"
               (OneDriveClient.or_default "/BTDownloads" None) c1 w1).
Proof.
  apply (upload_file_large_file_is_chunked Drive.full Drive.good_token
           (PStr "secret") 1000 "/BTDownloads"
           "/downloads/show.mkv" None 26214400 Drive.signed_in 0).
  - reflexivity.
  - reflexivity.
  - intros w. simpl. lia.
  - intros url w. eexists _, _. split; [reflexivity|]. by repeat split.
  - intros w. eexists. reflexivity.
  - reflexivity.
Defined.

Lemma token_without_expiry_runs_device_flow_witness :
  (∃ w1, OneDriveClient.is_authenticated Drive.full Drive.restored 0
         = (Return false, Drive.restored, w1))
  ∧ ∃ w2,
      OneDriveClient.ensure_authenticated Drive.full Drive.restored 0
      = match OneDriveClient.authenticate_device_flow Drive.full
                Drive.restored w2 with
        | (Return ok, c', w') =>
            (Return (if ok then None
                     else Some OneDriveClient.authentication_failed), c', w')
        | (Raise e, c', w') => (Raise e, c', w')
        end.
Proof.
  apply (token_without_expiry_runs_device_flow Drive.full
           [("access_token", PStr "secret")] Drive.restored 0).
  - reflexivity.
  - reflexivity.
  - intros w. simpl. lia.
  - intros w. eexists. reflexivity.
  - reflexivity.
Defined.


Lemma add_then_remove_torrent_forgets_witness :
  ∃ torrent s0 added,
    TransmissionAdapter.session_add_torrent Seedbox.daemon torrent
      "/downloads" s0
    = (Return added, 1)
    ∧ "hash:magnet:?xt=urn:btih:show" = TransmissionAdapter.hashString added
    ∧ dict_get "hash:magnet:?xt=urn:btih:show"
        [("hash:old", 7%Z); ("hash:magnet:?xt=urn:btih:show", 0%Z)]
      = Some (TransmissionAdapter.id added)
    ∧ (∀ k', k' ≠ "hash:magnet:?xt=urn:btih:show" →
             dict_get k'
               [("hash:old", 7%Z); ("hash:magnet:?xt=urn:btih:show", 0%Z)]
             = dict_get k' [("hash:old", 7%Z)])
    ∧ NoDup [("hash:old", 7%Z); ("hash:magnet:?xt=urn:btih:show", 0%Z)].*1
    ∧ ∀ found s2 s3,
        TransmissionAdapter.session_get_torrent Seedbox.daemon
          (TransmissionAdapter.id added) 1 = (Return found, s2) →
        TransmissionAdapter.session_remove_torrent Seedbox.daemon
          (TransmissionAdapter.id added) true s2 = (Return (), s3) →
        ∃ handles2,
          TransmissionAdapter.remove_torrent Seedbox.daemon
            "hash:magnet:?xt=urn:btih:show" true
            [("hash:old", 7%Z); ("hash:magnet:?xt=urn:btih:show", 0%Z)] 1
          = (Return true, handles2, s3)
          ∧ dict_get "hash:magnet:?xt=urn:btih:show" handles2 = None
          ∧ (∀ k', k' ≠ "hash:magnet:?xt=urn:btih:show" →
                   dict_get k' handles2 = dict_get k' [("hash:old", 7%Z)])
          ∧ NoDup handles2.*1
          ∧ ("hash:magnet:?xt=urn:btih:show" ∉ [("hash:old", 7%Z)].*1 →
             handles2 = [("hash:old", 7%Z)])
          ∧ TransmissionAdapter.remove_torrent Seedbox.daemon
              "hash:magnet:?xt=urn:btih:show" true handles2 s3
            = (Return false, handles2, s3).
Proof.
  apply (add_then_remove_torrent_forgets Seedbox.daemon "/downloads"
           "magnet:?xt=urn:btih:show" true [("hash:old", 7%Z)] 0
           "hash:magnet:?xt=urn:btih:show"
           [("hash:old", 7%Z); ("hash:magnet:?xt=urn:btih:show", 0%Z)] 1).
  - decide_now.
  - vm_compute. reflexivity.
Defined.

(** ** Sequences of operations *)

Section Sequences.
Context {W : Type} (E : Collaborators W).

(** What one operation does to the tasks that are completed or failed. *)
Lemma run_op_step op sv w :
  dict_ok (tasks sv) → one_bucket_each (tasks sv) →
  ∃ sv' w',
    run_op E op sv w = (sv', w')
    ∧ dict_ok (tasks sv')
    ∧ one_bucket_each (tasks sv')
    ∧ completed (tasks sv) `prefix_of` completed (tasks sv')
    ∧ failed (tasks sv) `prefix_of` failed (tasks sv')
    ∧ ∀ l, l ∈ completed (tasks sv) ++ failed (tasks sv) →
           heap (tasks sv') l = heap (tasks sv) l.
Proof.
  intros Hok Hone.
  pose proof (one_bucket_no_alias _ Hone) as Hna. unfold live in Hna.
  apply NoDup_app in Hna as (_ & Hpend & Hna).
  apply NoDup_app in Hna as (_ & Hdown & _).
  destruct op as [s| |]; simpl.
  - destruct (task_exists s (tasks sv)) eqn:Hex.
    + rewrite add_task_duplicate by done. by eexists _, _.
    + destruct (add_task_accepted E s sv w Hex)
        as (sv1 & w1 & Hadd & Hp & Hothers & Hd).
      pose proof (add_task_accepted_sources s sv sv1 Hp Hothers) as Hperm.
      assert (Hnew : s ∉ all_sources (tasks sv)).
      { intros Hin%elem_of_all_sources%task_exists_spec. congruence. }
      assert (Hframe : completed (tasks sv1) = completed (tasks sv)
                       ∧ failed (tasks sv1) = failed (tasks sv)
                       ∧ ∀ l, l ∈ completed (tasks sv) ++ failed (tasks sv) →
                              heap (tasks sv1) l = heap (tasks sv) l).
      { unfold add_task in Hadd. rewrite Hex in Hadd.
        destruct (clock E w) as [now w2]. injection Hadd as <- <-. simpl.
        split; [done|]. split; [done|]. intros l Hl. apply upd_ne.
        intros ->. apply (fresh_not_in (live (tasks sv))).
        unfold live. rewrite !elem_of_app in *. tauto. }
      destruct Hframe as (Hc & Hf & Hh).
      rewrite Hadd. exists sv1, w1. split; [done|].
      split; [unfold dict_ok; by rewrite Hd|].
      split; [unfold one_bucket_each; rewrite Hperm; by apply NoDup_cons|].
      by rewrite Hc, Hf.
  - unfold process_pending_tasks.
    destruct (pending (tasks sv)) as [|l0 rest] eqn:Hp; [by eexists _, _|].
    destruct (dispatch_all_spec E (l0 :: rest) [] sv w)
      as (sv' & w' & Hrun & _ & Hc & Hf & _ & Hh & Hsub & Hok' & _);
      [by rewrite app_nil_r|].
    rewrite Hrun. exists sv', w'. split; [done|]. split; [auto|].
    split; [by eapply one_bucket_submseteq|].
    split; [by rewrite Hc|]. split; [done|].
    intros l Hl. apply Hh.
    + rewrite elem_of_app. by right.
    + intros Hin. apply (Hpend l Hin). rewrite elem_of_app. by right.
  - unfold check_downloads.
    destruct (downloading (tasks sv)) as [|item rest] eqn:Hd;
      [by eexists _, _|].
    destruct (check_all_spec E (item :: rest) [] [] sv w)
      as (sv' & w' & stay & moved & Hrun & Hd' & Hst & Hc & _ & _ & Hf & _
          & Hh & Hsub & _);
      [by rewrite app_nil_r|by rewrite app_nil_r, <- Hd|].
    rewrite Hrun. exists sv', w'. split; [done|].
    simpl in Hd'. rewrite app_nil_r in Hd'.
    split.
    { unfold dict_ok. rewrite Hd'. eapply dict_ok_sublist; [exact Hst|].
      by rewrite <- Hd. }
    split; [by eapply one_bucket_submseteq|].
    split; [rewrite Hc; by apply prefix_app_r|]. split; [by rewrite Hf|].
    intros l Hl. apply Hh. intros Hin. by apply (Hdown l Hin).
Qed.

End Sequences.

(** X20. Completed and failed are final. Through any sequence of
    [add_task], [process_pending_tasks] and [check_downloads] on a store
    with every task in one bucket, the tasks in [completed] and in [failed]
    stay where they are, in their order, and their records are not written
    again; the store keeps every task in one bucket. *)
Theorem completed_and_failed_are_final {W} (E : Collaborators W)
    (ops : list Op) sv w :
  dict_ok (tasks sv) →
  one_bucket_each (tasks sv) →
  dict_ok (tasks (run_ops E ops sv w).1)
  ∧ one_bucket_each (tasks (run_ops E ops sv w).1)
  ∧ completed (tasks sv) `prefix_of` completed (tasks (run_ops E ops sv w).1)
  ∧ failed (tasks sv) `prefix_of` failed (tasks (run_ops E ops sv w).1)
  ∧ ∀ l, l ∈ completed (tasks sv) ++ failed (tasks sv) →
         heap (tasks (run_ops E ops sv w).1) l = heap (tasks sv) l.
Proof.
  revert sv w. induction ops as [|op ops IH]; intros sv w Hok Hone.
  - done.
  - cbn [run_ops].
    destruct (run_op_step E op sv w Hok Hone)
      as (sv1 & w1 & -> & Hok1 & Hone1 & Hc1 & Hf1 & Hh1).
    destruct (IH sv1 w1 Hok1 Hone1) as (Hok' & Hone' & Hc' & Hf' & Hh').
    split; [done|]. split; [done|]. split; [by etrans|]. split; [by etrans|].
    intros l Hl. rewrite Hh', Hh1; [done|done|].
    apply elem_of_app in Hl as [Hl|Hl]; apply elem_of_app.
    + left. by eapply elem_of_prefix.
    + right. by eapply elem_of_prefix.
Qed.

Lemma completed_and_failed_are_final_witness :
  dict_ok (tasks (run_ops Demo.world
                    [ProcessPendingTasks; CheckDownloads; AddTask "m1";
                     ProcessPendingTasks; CheckDownloads]
                    Demo.three_pending 0).1)
  ∧ one_bucket_each
      (tasks (run_ops Demo.world
                [ProcessPendingTasks; CheckDownloads; AddTask "m1";
                 ProcessPendingTasks; CheckDownloads]
                Demo.three_pending 0).1)
  ∧ completed (tasks Demo.three_pending)
    `prefix_of`
    completed (tasks (run_ops Demo.world
                        [ProcessPendingTasks; CheckDownloads; AddTask "m1";
                         ProcessPendingTasks; CheckDownloads]
                        Demo.three_pending 0).1)
  ∧ failed (tasks Demo.three_pending)
    `prefix_of`
    failed (tasks (run_ops Demo.world
                     [ProcessPendingTasks; CheckDownloads; AddTask "m1";
                      ProcessPendingTasks; CheckDownloads]
                     Demo.three_pending 0).1)
  ∧ ∀ l, l ∈ completed (tasks Demo.three_pending)
              ++ failed (tasks Demo.three_pending) →
         heap (tasks (run_ops Demo.world
                        [ProcessPendingTasks; CheckDownloads; AddTask "m1";
                         ProcessPendingTasks; CheckDownloads]
                        Demo.three_pending 0).1) l
         = heap (tasks Demo.three_pending) l.
Proof.
  apply (completed_and_failed_are_final Demo.world
           [ProcessPendingTasks; CheckDownloads; AddTask "m1";
            ProcessPendingTasks; CheckDownloads]
           Demo.three_pending 0).
  - unfold dict_ok. decide_now.
  - unfold one_bucket_each. decide_now.
Defined.

(** ** A client that cannot sign in *)

Section SignedOut.
Import OneDriveClient.
Context {W : Type} (C : Cloud W).
Hypothesis Hflow : ∀ w, ∃ flow w',
  initiate_device_flow C w = (Return flow, w')
  ∧ dict_has "user_code" flow = false.

(** Without a token the guard asks MSAL for a device flow only, and gives
    up when there is none. *)
Lemma ensure_authenticated_signed_out c w :
  token c = None ∨ token c = Some [] →
  ∃ w', ensure_authenticated C c w = (Return (Some authentication_failed), c, w').
Proof.
  intros Htok.
  assert (Hauth : is_authenticated C c w = (Return false, c, w)).
  { unfold is_authenticated.
    destruct Htok as [Htok|Htok];
      by rewrite (bind_Return _ _ _ _ _ _ _ (get_token_eq c w _ Htok)). }
  assert (Hsilent : _acquire_token_silently C c w = (Return None, c, w)).
  { unfold _acquire_token_silently.
    destruct Htok as [Htok|Htok];
      by rewrite (bind_Return _ _ _ _ _ _ _ (get_token_eq c w _ Htok)). }
  destruct (Hflow w) as (flow & w' & Hinit & Hcode).
  exists w'. unfold ensure_authenticated.
  rewrite (bind_Return _ _ _ _ _ _ _ Hauth).
  unfold authenticate.
  unfold mbind at 1, M_bind at 1.
  rewrite (bind_Return _ _ _ _ _ _ _ Hsilent).
  unfold authenticate_device_flow, mbind, M_bind, call.
  by rewrite Hinit, Hcode.
Qed.

End SignedOut.

(** X22. A client without a token, for which MSAL starts no device flow,
    sends nothing: [get_item_by_path], [create_folder] and [upload_file]
    each return the dict of the failed authentication, with no request
    sent, no prompt printed and no token written. *)
Theorem signed_out_client_sends_nothing {W} (C : OneDriveClient.Cloud W)
    default_folder chunked path file_path dest c w :
  OneDriveClient.token c = None ∨ OneDriveClient.token c = Some [] →
  (∀ w, ∃ flow w',
     OneDriveClient.initiate_device_flow C w = (Return flow, w')
     ∧ dict_has "user_code" flow = false) →
  (∃ w',
     OneDriveClient.get_item_by_path C path c w
     = (Return OneDriveClient.authentication_failed, c, w'))
  ∧ (∃ w',
       OneDriveClient.create_folder C path c w
       = (Return OneDriveClient.authentication_failed, c, w'))
  ∧ (∃ w',
       OneDriveClient.upload_file C default_folder chunked file_path dest c w
       = (Return OneDriveClient.authentication_failed, c, w')).
Proof.
  intros Htok Hflow.
  destruct (ensure_authenticated_signed_out C Hflow c w Htok) as (w' & Hguard).
  split; [|split]; exists w'.
  - unfold OneDriveClient.get_item_by_path.
    by rewrite (bind_Return _ _ _ _ _ _ _ Hguard).
  - unfold OneDriveClient.create_folder.
    by rewrite (bind_Return _ _ _ _ _ _ _ Hguard).
  - unfold OneDriveClient.upload_file.
    by rewrite (bind_Return _ _ _ _ _ _ _ Hguard).
Qed.

Lemma signed_out_client_sends_nothing_witness :
  (∃ w',
     OneDriveClient.get_item_by_path Drive.full "/BTDownloads"
       (OneDriveClient.mkClient None []) 0
     = (Return OneDriveClient.authentication_failed,
        OneDriveClient.mkClient None [], w'))
  ∧ (∃ w',
       OneDriveClient.create_folder Drive.full "/BTDownloads"
         (OneDriveClient.mkClient None []) 0
       = (Return OneDriveClient.authentication_failed,
          OneDriveClient.mkClient None [], w'))
  ∧ (∃ w',
       OneDriveClient.upload_file Drive.full "/BTDownloads" Drive.chunked
         "/downloads/a.srt" None (OneDriveClient.mkClient None []) 0
       = (Return OneDriveClient.authentication_failed,
          OneDriveClient.mkClient None [], w')).
Proof.
  apply (signed_out_client_sends_nothing Drive.full "/BTDownloads"
           Drive.chunked "/BTDownloads" "/downloads/a.srt" None
           (OneDriveClient.mkClient None []) 0).
  - by left.
  - intros w. eexists _, _. split; reflexivity.
Defined.

(** ** The upload call of [check_downloads] *)

Section ThroughInstance.
Context {W : Type} (E : Collaborators W).
Variables client_id client_secret tenant_id redirect_uri scopes : pyval.
Variables (token_path : pyval) (folder : string) (token : pyval).

(** On the instance, [upload_folder] is the folder string: the call is the
    call of a str; [upload_file] is the function of the class. *)
Lemma invoke_on_instance path w :
  upload_folder
    (Uploader.through_instance
       (Uploader.instance_attributes client_id client_secret tenant_id
          redirect_uri scopes token_path folder token) E) path w
  = (Raise "'str' object is not callable", w)
  ∧ upload_file
      (Uploader.through_instance
         (Uploader.instance_attributes client_id client_secret tenant_id
            redirect_uri scopes token_path folder token) E) path w
    = upload_file E path w.
Proof. split; reflexivity. Qed.

(** The turn of [check_downloads] for a finished download whose artifact
    is a directory: the [TypeError] of the upload call lands in the
    [except] block, after the status has been written. *)
Lemma directory_turn sv w pre k l post sv1 w1 st w2 path w3 :
  dict_ok (tasks sv) →
  no_alias (tasks sv) →
  downloading (tasks sv) = pre ++ (k, l) :: post →
  check_all
    (Uploader.through_instance
       (Uploader.instance_attributes client_id client_secret tenant_id
          redirect_uri scopes token_path folder token) E) pre sv w
  = (sv1, w1) →
  get_torrent_status E k w1 = (Return st, w2) →
  is_finished st = true →
  get_download_path E k w2 = (Return (Some path), w3) →
  path ≠ "" →
  isdir E path w3 = true →
  ∃ sv' w',
    check_downloads
      (Uploader.through_instance
         (Uploader.instance_attributes client_id client_secret tenant_id
            redirect_uri scopes token_path folder token) E) sv w
    = (sv', w')
    ∧ (k, l) ∈ downloading (tasks sv')
    ∧ (l ∉ completed (tasks sv'))
    ∧ (l ∉ failed (tasks sv'))
    ∧ heap (tasks sv') l = set_status st (heap (tasks sv) l)
    ∧ Logged Error (ErrorCheckingDownload k "'str' object is not callable")
      ∈ trace sv'.
Proof.
  set (E' := Uploader.through_instance _ E).
  intros Hok Hna Hd Hpre Hpoll Hfin Hpath Hne Hdir.
  destruct (entry_not_aliased pre k l post _ Hna Hd) as (_ & _ & _ & Hlf).
  destruct (check_all_around E' pre k l post sv w Hok Hna Hd)
    as (sv1' & w1' & kept & Hrun1 & Hd1 & Hk & _ & Hh1 & Hc1 & Hf1 & Hafter).
  rewrite Hrun1 in Hpre. injection Hpre as <- <-.
  assert (Hturn : ∃ sv2,
    check_one E' (k, l) sv1' w1' = (sv2, w3)
    ∧ downloading (tasks sv2) = kept ++ [(k, l)] ++ post
    ∧ completed (tasks sv2) = completed (tasks sv1')
    ∧ failed (tasks sv2) = failed (tasks sv1')
    ∧ heap (tasks sv2) l = set_status st (heap (tasks sv1') l)
    ∧ Logged Error (ErrorCheckingDownload k "'str' object is not callable")
      ∈ trace sv2).
  { unfold check_one.
    change (get_torrent_status E' k w1') with (get_torrent_status E k w1').
    rewrite Hpoll, Hfin.
    change (get_download_path E' k w2) with (get_download_path E k w2).
    rewrite Hpath.
    apply String.eqb_neq in Hne as ->. unfold upload.
    change (isdir E' path w3) with (isdir E path w3). rewrite Hdir.
    change (upload_folder E' path w3)
      with (@Raise pydict "'str' object is not callable", w3).
    eexists. split; [done|]. simpl. rewrite upd_eq.
    repeat split; try done. apply elem_of_app. right. by left. }
  destruct Hturn as (sv2 & Hturn & Hd2 & Hc2 & Hf2 & Hh2 & Hlog).
  destruct (Hafter sv2 w3 [(k, l)])
    as (sv' & w' & stay & Hrun3 & Hd3 & _ & _ & Hh3 & _ & Hc3 & Hf3 & Htr3);
    [done|done|].
  exists sv', w'. split.
  { rewrite (check_downloads_split E' pre (k, l) post) by done.
    rewrite Hrun1. cbn [fst snd]. by rewrite Hturn. }
  split; [|split; [|split; [|split]]].
  - rewrite Hd3, !elem_of_app. right. left. by left.
  - intros Hin. apply Hc1. rewrite <- Hc2. by apply Hc3.
  - by rewrite Hf3, Hf2, Hf1.
  - by rewrite Hh3, Hh2, Hh1.
  - by eapply elem_of_prefix.
Qed.

End ThroughInstance.

(** C4. In the service as [main.py] builds it, a download that is reported
    finished and whose artifact path resolves to a directory is not moved
    to [completed]: the upload call of line 169 is the call of the folder
    string that [__init__] has stored in [self.upload_folder], its
    [TypeError] is caught at line 190, and the task stays in [downloading],
    without a completion time, to be tried again at every pass. *)
Theorem finished_directory_download_is_not_completed {W}
    (E : Collaborators W)
    client_id client_secret tenant_id redirect_uri scopes token_path
    folder token sv w pre k l post sv1 w1 st w2 path w3 :
  dict_ok (tasks sv) →
  no_alias (tasks sv) →
  downloading (tasks sv) = pre ++ (k, l) :: post →
  check_all
    (Uploader.through_instance
       (Uploader.instance_attributes client_id client_secret tenant_id
          redirect_uri scopes token_path folder token) E) pre sv w
  = (sv1, w1) →
  get_torrent_status E k w1 = (Return st, w2) →
  is_finished st = true →
  get_download_path E k w2 = (Return (Some path), w3) →
  path ≠ "" →
  isdir E path w3 = true →
  ∃ sv' w',
    check_downloads
      (Uploader.through_instance
         (Uploader.instance_attributes client_id client_secret tenant_id
            redirect_uri scopes token_path folder token) E) sv w
    = (sv', w')
    ∧ (k, l) ∈ downloading (tasks sv')
    ∧ (l ∉ completed (tasks sv'))
    ∧ (l ∉ failed (tasks sv'))
    ∧ complete_time (heap (tasks sv') l) = complete_time (heap (tasks sv) l).
Proof.
  intros Hok Hna Hd Hpre Hpoll Hfin Hpath Hne Hdir.
  destruct (directory_turn E client_id client_secret tenant_id redirect_uri
              scopes token_path folder token sv w pre k l post sv1 w1 st w2
              path w3 Hok Hna Hd Hpre Hpoll Hfin Hpath Hne Hdir)
    as (sv' & w' & Hrun & Hin & Hc & Hf & Hh & _).
  exists sv', w'. split; [done|]. split; [done|]. split; [done|].
  split; [done|]. by rewrite Hh.
Qed.

(** C9. In the service as [main.py] builds it, the caller never tests a
    summary of [upload_folder]: on the instance the name is bound to the
    folder string of [__init__], so for a directory the call of line 169
    raises ['str' object is not callable] before any folder is created or
    any file is sent; no ['upload_result'] is written on the task, and the
    error is logged by the [except] block of the turn. *)
Theorem folder_upload_call_raises_type_error {W} (E : Collaborators W)
    client_id client_secret tenant_id redirect_uri scopes token_path
    folder token sv w pre k l post sv1 w1 st w2 path w3 :
  dict_ok (tasks sv) →
  no_alias (tasks sv) →
  downloading (tasks sv) = pre ++ (k, l) :: post →
  check_all
    (Uploader.through_instance
       (Uploader.instance_attributes client_id client_secret tenant_id
          redirect_uri scopes token_path folder token) E) pre sv w
  = (sv1, w1) →
  get_torrent_status E k w1 = (Return st, w2) →
  is_finished st = true →
  get_download_path E k w2 = (Return (Some path), w3) →
  path ≠ "" →
  isdir E path w3 = true →
  (∀ folder_path w0,
     upload_folder
       (Uploader.through_instance
          (Uploader.instance_attributes client_id client_secret tenant_id
             redirect_uri scopes token_path folder token) E) folder_path w0
     = (Raise "'str' object is not callable", w0))
  ∧ ∃ sv' w',
      check_downloads
        (Uploader.through_instance
           (Uploader.instance_attributes client_id client_secret tenant_id
              redirect_uri scopes token_path folder token) E) sv w
      = (sv', w')
      ∧ upload_result (heap (tasks sv') l)
        = upload_result (heap (tasks sv) l)
      ∧ Logged Error (ErrorCheckingDownload k "'str' object is not callable")
        ∈ trace sv'.
Proof.
  intros Hok Hna Hd Hpre Hpoll Hfin Hpath Hne Hdir. split.
  - intros folder_path w0.
    apply (invoke_on_instance E client_id client_secret tenant_id redirect_uri
             scopes token_path folder token folder_path w0).
  - destruct (directory_turn E client_id client_secret tenant_id redirect_uri
                scopes token_path folder token sv w pre k l post sv1 w1 st w2
                path w3 Hok Hna Hd Hpre Hpoll Hfin Hpath Hne Hdir)
      as (sv' & w' & Hrun & _ & _ & _ & Hh & Hlog).
    exists sv', w'. split; [done|]. split; [by rewrite Hh|done].
Qed.

Lemma finished_directory_download_is_not_completed_witness :
  ∃ sv' w',
    check_downloads (Uploader.through_instance Boxset.instance Boxset.world)
      (Demo.one_downloading "hash:show") 0
    = (sv', w')
    ∧ ("hash:show", 0) ∈ downloading (tasks sv')
    ∧ (0 ∉ completed (tasks sv'))
    ∧ (0 ∉ failed (tasks sv'))
    ∧ complete_time (heap (tasks sv') 0)
      = complete_time (heap (tasks (Demo.one_downloading "hash:show")) 0).
Proof.
  apply (finished_directory_download_is_not_completed Boxset.world
           (PStr "app-id") (PStr "app-secret") (PStr "common")
           (PStr "http://localhost:8000/callback")
           (PList [PStr "Files.ReadWrite"; PStr "Files.ReadWrite.All";
                   PStr "offline_access"])
           (PStr "./onedrive_token.json") "/BTDownloads" PNone
           (Demo.one_downloading "hash:show") 0
           [] "hash:show" 0 [] (Demo.one_downloading "hash:show") 0
           Demo.finished 1 "/downloads/show" 1).
  - unfold dict_ok. decide_now.
  - unfold no_alias. decide_now.
  - reflexivity.
  - reflexivity.
  - reflexivity.
  - reflexivity.
  - reflexivity.
  - discriminate.
  - reflexivity.
Defined.

Lemma folder_upload_call_raises_type_error_witness :
  (∀ folder_path w0,
     upload_folder (Uploader.through_instance Boxset.instance Boxset.world)
       folder_path w0
     = (Raise "'str' object is not callable", w0))
  ∧ ∃ sv' w',
      check_downloads (Uploader.through_instance Boxset.instance Boxset.world)
        (Demo.one_downloading "hash:show") 0
      = (sv', w')
      ∧ upload_result (heap (tasks sv') 0)
        = upload_result (heap (tasks (Demo.one_downloading "hash:show")) 0)
      ∧ Logged Error
          (ErrorCheckingDownload "hash:show" "'str' object is not callable")
        ∈ trace sv'.
Proof.
  apply (folder_upload_call_raises_type_error Boxset.world
           (PStr "app-id") (PStr "app-secret") (PStr "common")
           (PStr "http://localhost:8000/callback")
           (PList [PStr "Files.ReadWrite"; PStr "Files.ReadWrite.All";
                   PStr "offline_access"])
           (PStr "./onedrive_token.json") "/BTDownloads" PNone
           (Demo.one_downloading "hash:show") 0
           [] "hash:show" 0 [] (Demo.one_downloading "hash:show") 0
           Demo.finished 1 "/downloads/show" 1).
  - unfold dict_ok. decide_now.
  - unfold no_alias. decide_now.
  - reflexivity.
  - reflexivity.
  - reflexivity.
  - reflexivity.
  - reflexivity.
  - discriminate.
  - reflexivity.
Defined.
